(** * verify-pdf.py: extraction and reconciliation of invoice data

    A shallow embedding of [scripts/verify-pdf.py].  A text is a Rocq
    [string]; its characters are read as the code points 0..255 of a Python
    [str].  The library functions the script calls ([re], [Decimal], [float],
    [datetime]) are embedded as far as the script uses them. *)

From Stdlib Require Import ZArith NArith List String Ascii Bool Lia.
Import ListNotations.
Local Open Scope string_scope.

(** ** Characters and strings of Python [str] *)

Module Chars.

Definition code (c : ascii) : N := N_of_ascii c.

Definition between (lo hi : N) (c : ascii) : bool :=
  ((lo <=? code c) && (code c <=? hi))%N.

Definition is_code (n : N) (c : ascii) : bool := (code c =? n)%N.

(** [str.isspace] and the class [\s] on code points 0..255. *)
Definition isspace (c : ascii) : bool :=
  between 9 13 c || between 28 32 c || is_code 133 c || is_code 160 c.

(** The class [\d]: the decimal digits. *)
Definition isdecimal (c : ascii) : bool := between 48 57 c.

Definition isupper_ascii (c : ascii) : bool := between 65 90 c.
Definition islower_ascii (c : ascii) : bool := between 97 122 c.

(** The class [\w]: alphanumeric code points and the underscore. *)
Definition isword (c : ascii) : bool :=
  between 48 57 c || between 65 90 c || is_code 95 c || between 97 122 c
  || is_code 170 c || between 178 179 c || is_code 181 c || between 185 186 c
  || between 188 190 c || between 192 214 c || between 216 246 c
  || between 248 255 c.

(** Case folding as [re.IGNORECASE] needs it for ASCII patterns: no code
    point of 128..255 folds to an ASCII letter. *)
Definition lower (c : ascii) : ascii :=
  if isupper_ascii c then ascii_of_N (code c + 32) else c.
Definition upper (c : ascii) : ascii :=
  if islower_ascii c then ascii_of_N (code c - 32) else c.

End Chars.

Module Str.

Fixpoint lstrip (s : string) : string :=
  match s with
  | String c s' => if Chars.isspace c then lstrip s' else s
  | EmptyString => EmptyString
  end.

(** [rstrip] keeps a character when it is not a space or when something
    is kept after it. *)
Fixpoint rstrip (s : string) : string :=
  match s with
  | String c s' =>
      match rstrip s' with
      | EmptyString => if Chars.isspace c then EmptyString else String c EmptyString
      | r => String c r
      end
  | EmptyString => EmptyString
  end.

(** [s.strip()] *)
Definition strip (s : string) : string := rstrip (lstrip s).

(** [s.replace(c, '')] for a one-character [c]. *)
Fixpoint remove (c : ascii) (s : string) : string :=
  match s with
  | String a s' => if Ascii.eqb a c then remove c s' else String a (remove c s')
  | EmptyString => EmptyString
  end.

(** [s.split(c)] for a one-character separator: never the empty list. *)
Fixpoint split (c : ascii) (s : string) : list string :=
  match s with
  | EmptyString => [EmptyString]
  | String a s' =>
      if Ascii.eqb a c then EmptyString :: split c s'
      else match split c s' with
           | h :: t => String a h :: t
           | [] => [String a EmptyString]
           end
  end.

(** [sep.join(parts)] *)
Definition join (sep : string) (parts : list string) : string :=
  String.concat sep parts.

(** [s[:n]] *)
Definition take (n : nat) (s : string) : string := substring 0 n s.

(** [s.upper()], as a sequence of code points: the upper case of three
    characters of 128..255 lies outside that range or has two letters. *)
Definition upper_char (c : ascii) : list N :=
  let n := Chars.code c in
  if Chars.islower_ascii c then [n - 32]%N
  else if (n =? 181)%N then [924]%N
  else if (n =? 223)%N then [83; 83]%N
  else if (n =? 255)%N then [376]%N
  else if ((224 <=? n) && (n <=? 254) && negb (n =? 247))%N then [n - 32]%N
  else [n].

Fixpoint upper (s : string) : list N :=
  match s with
  | String c s' => upper_char c ++ upper s'
  | EmptyString => []
  end.

End Str.

(** ** Regular expressions, as [re] matches them

    The patterns of the script use literals, character sets, greedy
    quantifiers on one character or set, alternation, one capturing group and
    the anchor [^].  Matching is by backtracking: alternatives in order,
    quantifiers longest first. *)

Module Re.

(** An element of a character set. *)
Inductive item : Type :=
| Ch (c : ascii)
| Rng (lo hi : ascii)
| Digit
| Space
| Word.

Inductive regex : Type :=
| Lit (s : string)
| Set_ (cs : list item)
| Rep (cs : list item) (lo : nat) (hi : option nat)
| Cat (r1 r2 : regex)
| Alt (r1 r2 : regex)
| Grp (r : regex)
| Bol.

Definition item_has (i : item) (c : ascii) : bool :=
  match i with
  | Ch a => Ascii.eqb a c
  | Rng lo hi => Chars.between (Chars.code lo) (Chars.code hi) c
  | Digit => Chars.isdecimal c
  | Space => Chars.isspace c
  | Word => Chars.isword c
  end.

Definition set_has (cs : list item) (c : ascii) : bool :=
  existsb (fun i => item_has i c) cs.

Section Matcher.

(** [re.IGNORECASE] *)
Variable ignorecase : bool.

(** A character set accepts a character, without regard to case when the
    flag is set: the character, its lower case or its upper case is in the
    set.  This is [re] on the code points 0..255 of this embedding; beyond
    them four more characters (U+0130, U+0131, U+017F and U+212A) have a
    lower or upper case in [[A-Z]] and are accepted by it, which is why
    the shape of a matched token is stated for its characters of ASCII. *)
Definition accepts (cs : list item) (c : ascii) : bool :=
  if ignorecase
  then set_has cs c || set_has cs (Chars.lower c) || set_has cs (Chars.upper c)
  else set_has cs c.

Definition same_char (p c : ascii) : bool :=
  if ignorecase then Ascii.eqb (Chars.lower p) (Chars.lower c) else Ascii.eqb p c.

(** The rest of the input after the literal [l], when the input starts
    with it. *)
Fixpoint lit (l s : string) : option string :=
  match l, s with
  | EmptyString, _ => Some s
  | String p l', String c s' => if same_char p c then lit l' s' else None
  | String _ _, EmptyString => None
  end.

Section Run.

Context {A : Type}.

(** What follows a match: the position reached, the rest of the input
    and the text of group 1. *)
Definition cont : Type := nat -> string -> option string -> option A.

Fixpoint rep (cs : list item) (lo : nat) (hi : option nat)
         (pos : nat) (s : string) (g : option string) (k : cont) : option A :=
  let stop := match lo with O => k pos s g | S _ => None end in
  match hi with
  | Some O => stop
  | _ =>
      match s with
      | String c s' =>
          if accepts cs c
          then match rep cs (pred lo) (option_map pred hi) (S pos) s' g k with
               | Some a => Some a
               | None => stop
               end
          else stop
      | EmptyString => stop
      end
  end.

Fixpoint run (r : regex) (pos : nat) (s : string) (g : option string)
         (k : cont) : option A :=
  match r with
  | Lit l =>
      match lit l s with
      | Some s' => k (pos + String.length l) s' g
      | None => None
      end
  | Set_ cs =>
      match s with
      | String c s' => if accepts cs c then k (S pos) s' g else None
      | EmptyString => None
      end
  | Rep cs lo hi => rep cs lo hi pos s g k
  | Cat r1 r2 => run r1 pos s g (fun pos' s' g' => run r2 pos' s' g' k)
  | Alt r1 r2 =>
      match run r1 pos s g k with
      | Some a => Some a
      | None => run r2 pos s g k
      end
  | Grp r1 =>
      run r1 pos s g
          (fun pos' s' _ => k pos' s' (Some (substring 0 (pos' - pos) s)))
  | Bol => match pos with O => k pos s g | S _ => None end
  end.

End Run.

(** A match object: where the match ends, the input after it, and
    [group(1)] ([None] when the group took no part). *)
Record rmatch : Type := mk_match {
  m_start : nat;
  m_end : nat;
  m_rest : string;
  group1 : option string
}.

(** [re.match]: a match that starts at the current position. *)
Definition match_at (r : regex) (pos : nat) (s : string) : option rmatch :=
  run r pos s None (fun e s' g => Some (mk_match pos e s' g)).

(** The leftmost match at or after the current position. *)
Fixpoint search_from (r : regex) (pos : nat) (s : string) : option rmatch :=
  match match_at r pos s with
  | Some m => Some m
  | None =>
      match s with
      | String _ s' => search_from r (S pos) s'
      | EmptyString => None
      end
  end.

(** [re.search(r, text)] *)
Definition search (r : regex) (text : string) : option rmatch :=
  search_from r 0 text.

(** [re.findall(r, text)] for a pattern with one group: the texts of
    group 1 of the successive matches, none overlapping another; after
    an empty match the scan resumes one character further. *)
Fixpoint findall_from (fuel : nat) (r : regex) (pos : nat) (s : string)
  : list string :=
  match fuel with
  | O => []
  | S fuel' =>
      match search_from r pos s with
      | None => []
      | Some m =>
          let g := match group1 m with Some t => t | None => "" end in
          if Nat.eqb (m_end m) (m_start m)
          then match m_rest m with
               | String _ s' => g :: findall_from fuel' r (S (m_end m)) s'
               | EmptyString => [g]
               end
          else g :: findall_from fuel' r (m_end m) (m_rest m)
      end
  end.

Definition findall (r : regex) (text : string) : list string :=
  findall_from (S (String.length text)) r 0 text.

End Matcher.

(** Notations that follow the pattern syntax. *)
Definition star (cs : list item) : regex := Rep cs 0 None.
Definition plus (cs : list item) : regex := Rep cs 1 None.
Definition opt (cs : list item) : regex := Rep cs 0 (Some 1).
Definition at_least (n : nat) (cs : list item) : regex := Rep cs n None.
Definition from_to (n m : nat) (cs : list item) : regex := Rep cs n (Some m).
Definition exactly (n : nat) (cs : list item) : regex := Rep cs n (Some n).

Arguments Ch c%_char.
Arguments Rng lo%_char hi%_char.

Infix ">>" := Cat (right associativity, at level 60).
Infix "<|>" := Alt (right associativity, at level 70).

End Re.

(** ** Exceptions

    A computation of the script returns a value or raises. *)

Module Py.

Inductive exn : Type :=
| AttributeError
| TypeError
| IndexError
| InvalidOperation      (* decimal.InvalidOperation *)
| DecimalOverflow       (* decimal.Overflow *)
| OverflowError
| ValueError
| OSError
| CapabilityError.      (* whatever an external capability raises *)

Inductive res (A : Type) : Type :=
| Ret (a : A)
| Raise (e : exn).

Arguments Ret {A} a.
Arguments Raise {A} e.

Definition bind {A B : Type} (m : res A) (f : A -> res B) : res B :=
  match m with
  | Ret a => f a
  | Raise e => Raise e
  end.

(** [try: body  except: handler] *)
Definition try_except {A : Type} (body : res A) (handler : exn -> res A) : res A :=
  match body with
  | Ret a => Ret a
  | Raise e => handler e
  end.

Definition exn_eqb (a b : exn) : bool :=
  match a, b with
  | AttributeError, AttributeError
  | TypeError, TypeError
  | IndexError, IndexError
  | InvalidOperation, InvalidOperation
  | DecimalOverflow, DecimalOverflow
  | OverflowError, OverflowError
  | ValueError, ValueError
  | OSError, OSError
  | CapabilityError, CapabilityError => true
  | _, _ => false
  end.

(** [try: body  except E: handler]: another exception goes through. *)
Definition try_except_only {A : Type} (E : exn) (body : res A) (handler : res A)
  : res A :=
  match body with
  | Ret a => Ret a
  | Raise e => if exn_eqb e E then handler else Raise e
  end.

Definition returns {A : Type} (m : res A) : Prop := exists a, m = Ret a.

Declare Scope py_scope.
Delimit Scope py_scope with py.
Notation "x <- m ;; f" := (bind m (fun x => f))
  (at level 61, m at next level, right associativity) : py_scope.

End Py.

(** ** Decimal digits *)

Module Digits.

Definition digit_val (c : ascii) : N := (Chars.code c - 48)%N.

Fixpoint all_digits (s : string) : bool :=
  match s with
  | String c s' => Chars.isdecimal c && all_digits s'
  | EmptyString => true
  end.

(** The number a digit string reads as, after the digits read so far. *)
Fixpoint read (acc : N) (s : string) : N :=
  match s with
  | String c s' => read (10 * acc + digit_val c)%N s'
  | EmptyString => acc
  end.

Definition digit_char (n : N) : ascii := ascii_of_N (48 + n).

(** The digits of [n], the last digit first, at most [fuel] of them. *)
Fixpoint rev_digits (fuel : nat) (n : N) : list ascii :=
  match fuel with
  | O => []
  | S fuel' =>
      if (n <? 10)%N then [digit_char n]
      else digit_char (n mod 10) :: rev_digits fuel' (n / 10)%N
  end.

(** [str(n)] for a natural number. *)
Definition show (n : N) : string :=
  string_of_list_ascii (rev (rev_digits (S (N.to_nat (N.log2 n))) n)).

(** The number of decimal digits of [n]; 1 for zero. *)
Definition count (n : N) : nat := String.length (show n).

Fixpoint zeros (n : nat) : string :=
  match n with
  | O => EmptyString
  | S n' => String "0" (zeros n')
  end.

End Digits.

(** ** [decimal.Decimal]

    A decimal is a sign, a coefficient and an exponent, or an infinity, or a
    NaN (whose diagnostic digits are not kept).  Arithmetic is that of the
    default context: 28 digits, half-even, exponents within -999999..999999,
    [InvalidOperation] and [Overflow] trapped. *)

Module Dec.

Import Py.
Local Open Scope py_scope.

Inductive t : Type :=
| Fin (neg : bool) (coeff : N) (exp : Z)
| Inf (neg : bool)
| NaN (neg : bool) (signaling : bool).

Definition prec : Z := 28.
Definition Emax : Z := 999999.
Definition Emin : Z := -999999.
Definition Etiny : Z := Emin - prec + 1.
Definition Etop : Z := Emax - prec + 1.

(** *** [Decimal(s)] for a string *)

Fixpoint span_digits (s : string) : string * string :=
  match s with
  | String c s' =>
      if Chars.isdecimal c
      then let (d, r) := span_digits s' in (String c d, r)
      else (EmptyString, s)
  | EmptyString => (EmptyString, EmptyString)
  end.

Definition parse_sign (s : string) : bool * string :=
  match s with
  | String "-" r => (true, r)
  | String "+" r => (false, r)
  | _ => (false, s)
  end.

Fixpoint lowercase (s : string) : string :=
  match s with
  | String c s' => String (Chars.lower c) (lowercase s')
  | EmptyString => EmptyString
  end.

Definition nonempty (s : string) : bool :=
  match s with EmptyString => false | String _ _ => true end.

(** The exponent part [E[+-]digits], or nothing. *)
Definition parse_exponent (s : string) : option Z :=
  match s with
  | EmptyString => Some 0%Z
  | String c r =>
      if Ascii.eqb (Chars.lower c) "e"
      then let (neg, ds) := parse_sign r in
           if nonempty ds && Digits.all_digits ds
           then Some (if neg then - Z.of_N (Digits.read 0 ds)
                      else Z.of_N (Digits.read 0 ds))%Z
           else None
      else None
  end.

Definition parse_finite (neg : bool) (s : string) : option t :=
  let (ip, r1) := span_digits s in
  let (fp, r2) := match r1 with
                  | String "." r => span_digits r
                  | _ => (EmptyString, r1)
                  end in
  if nonempty (ip ++ fp)
  then match parse_exponent r2 with
       | Some e => Some (Fin neg (Digits.read 0 (ip ++ fp))
                             (e - Z.of_nat (String.length fp)))
       | None => None
       end
  else None.

Definition parse_special (neg : bool) (s : string) : option t :=
  let l := lowercase s in
  if String.eqb l "inf" || String.eqb l "infinity" then Some (Inf neg)
  else if String.eqb (Str.take 3 l) "nan" && Digits.all_digits (substring 3 (String.length l) l)
  then Some (NaN neg false)
  else if String.eqb (Str.take 4 l) "snan" && Digits.all_digits (substring 4 (String.length l) l)
  then Some (NaN neg true)
  else None.

(** Spaces around the number and underscores in it are dropped; a string
    that is no number raises [InvalidOperation]. *)
Definition of_string (s : string) : res t :=
  let (neg, body) := parse_sign (Str.remove "_" (Str.strip s)) in
  match parse_finite neg body with
  | Some d => Ret d
  | None =>
      match parse_special neg body with
      | Some d => Ret d
      | None => Raise InvalidOperation
      end
  end.

(** *** [str(d)] *)

Definition show_Z_signed (z : Z) : string :=
  ((if (z <? 0)%Z then "-" else "+") ++ Digits.show (Z.abs_N z))%string.

Definition to_string (d : t) : string :=
  match d with
  | Inf neg => (if neg then "-" else "") ++ "Infinity"
  | NaN neg sig => (if neg then "-" else "") ++ (if sig then "sNaN" else "NaN")
  | Fin neg c e =>
      let int := Digits.show c in
      let n := Z.of_nat (String.length int) in
      let leftdigits := (e + n)%Z in
      let dotplace := if ((e <=? 0) && (-6 <? leftdigits))%Z then leftdigits else 1%Z in
      let body :=
        if (dotplace <=? 0)%Z
        then "0." ++ Digits.zeros (Z.to_nat (- dotplace)) ++ int
        else if (n <=? dotplace)%Z
        then int ++ Digits.zeros (Z.to_nat (dotplace - n))
        else Str.take (Z.to_nat dotplace) int ++ "."
             ++ substring (Z.to_nat dotplace) (String.length int) int in
      let ex := if (leftdigits =? dotplace)%Z then ""
                else "E" ++ show_Z_signed (leftdigits - dotplace) in
      (if neg then "-" else "") ++ body ++ ex
  end.

(** *** Values and comparisons *)

(** [bool(d)] *)
Definition truthy (d : t) : bool :=
  match d with
  | Fin _ c _ => negb (c =? 0)%N
  | _ => true
  end.

Definition signed (neg : bool) (c : N) : Z :=
  if neg then (- Z.of_N c)%Z else Z.of_N c.

(** The order of two finite decimals, on a common exponent. *)
Definition compare_fin (n1 : bool) (c1 : N) (e1 : Z) (n2 : bool) (c2 : N) (e2 : Z)
  : comparison :=
  let e := Z.min e1 e2 in
  (signed n1 c1 * 10 ^ (e1 - e) ?= signed n2 c2 * 10 ^ (e2 - e))%Z.

(** An ordering comparison signals [InvalidOperation] on a NaN. *)
Definition compare (a b : t) : res comparison :=
  match a, b with
  | NaN _ _, _ | _, NaN _ _ => Raise InvalidOperation
  | Inf n1, Inf n2 =>
      Ret (if Bool.eqb n1 n2 then Eq else if n1 then Lt else Gt)
  | Inf n1, Fin _ _ _ => Ret (if n1 then Lt else Gt)
  | Fin _ _ _, Inf n2 => Ret (if n2 then Gt else Lt)
  | Fin n1 c1 e1, Fin n2 c2 e2 => Ret (compare_fin n1 c1 e1 n2 c2 e2)
  end.

(** [a < b] and [a > b] *)
Definition lt (a b : t) : res bool :=
  c <- compare a b ;; Ret (match c with Lt => true | _ => false end).
Definition gt (a b : t) : res bool :=
  c <- compare a b ;; Ret (match c with Gt => true | _ => false end).

(** *** Rounding to the context *)

(** [c / 10^k] rounded half-even. *)
Definition drop_digits (c : N) (k : Z) : N :=
  let p := (10 ^ Z.to_N k)%N in
  let q := (c / p)%N in
  let r := (c mod p)%N in
  match (2 * r ?= p)%N with
  | Gt => (q + 1)%N
  | Eq => if N.even q then q else (q + 1)%N
  | Lt => q
  end.

Definition fix_ (d : t) : res t :=
  match d with
  | Fin neg c e =>
      if (c =? 0)%N
      then Ret (Fin neg 0 (Z.max Etiny (Z.min e Emax)))
      else
        let len := Z.of_nat (Digits.count c) in
        let exp_min := (len + e - prec)%Z in
        if (Etop <? exp_min)%Z then Raise DecimalOverflow
        else
          let exp_min := Z.max exp_min Etiny in
          if (e <? exp_min)%Z
          then
            let c' := drop_digits c (exp_min - e) in
            if (prec <? Z.of_nat (Digits.count c'))%Z
            then if (Etop <? exp_min + 1)%Z then Raise DecimalOverflow
                 else Ret (Fin neg (c' / 10)%N (exp_min + 1))
            else Ret (Fin neg c' exp_min)
          else Ret d
  | _ => Ret d
  end.

(** [a - b] *)
Definition sub (a b : t) : res t :=
  match a, b with
  | NaN _ true, _ | _, NaN _ true => Raise InvalidOperation
  | NaN n s, _ => Ret (NaN n s)
  | _, NaN n s => Ret (NaN n s)
  | Inf n1, Inf n2 => if Bool.eqb n1 n2 then Raise InvalidOperation else Ret (Inf n1)
  | Inf n1, Fin _ _ _ => Ret (Inf n1)
  | Fin _ _ _, Inf n2 => Ret (Inf (negb n2))
  | Fin n1 c1 e1, Fin n2 c2 e2 =>
      let e := Z.min e1 e2 in
      let z := (signed n1 c1 * 10 ^ (e1 - e) - signed n2 c2 * 10 ^ (e2 - e))%Z in
      let neg := if ((c1 =? 0) && (c2 =? 0))%N then n1 && negb n2 else (z <? 0)%Z in
      fix_ (Fin neg (Z.abs_N z) e)
  end.

(** [abs(d)] *)
Definition abs (d : t) : res t :=
  match d with
  | NaN _ true => Raise InvalidOperation
  | NaN n s => Ret (NaN n s)
  | Inf _ => Ret (Inf false)
  | Fin _ c e => fix_ (Fin false c e)
  end.

End Dec.

(** ** [float]

    A float is a binary64 number [m * 2^e] with [m < 2^53] (and [2^52 <= m]
    unless [e = -1074]), an infinity or a NaN.  Conversions round to the
    nearest float, ties to the even one. *)

Module F64.

Import Py.
Local Open Scope py_scope.
Local Open Scope Z_scope.

Inductive t : Type :=
| Fin (neg : bool) (m : N) (e : Z)
| Inf (neg : bool)
| NaN.

(** The ratio [(n / d) / 2^k]. *)
Definition scale2 (n d k : Z) : Z * Z :=
  if 0 <=? k then (n, d * 2 ^ k) else (n * 2 ^ (- k), d).

(** The ratio [(n / d) * 10^k]. *)
Definition scale10 (n d k : Z) : Z * Z :=
  if 0 <=? k then (n * 10 ^ k, d) else (n, d * 10 ^ (- k)).

(** [floor (log2 (n / d))] for positive [n] and [d]. *)
Definition ilog2 (n d : Z) : Z :=
  let l := Z.log2 n - Z.log2 d in
  let (n', d') := scale2 n d l in
  if d' <=? n' then l else l - 1.

(** [n / d] rounded to an integer, ties to even. *)
Definition round_half_even (n d : Z) : Z :=
  let q := n / d in
  match 2 * (n mod d) ?= d with
  | Gt => q + 1
  | Eq => if Z.even q then q else q + 1
  | Lt => q
  end.

(** The float nearest to [n / d], for [0 <= n] and [0 < d]. *)
Definition round_ratio (neg : bool) (n d : Z) : t :=
  if n =? 0 then Fin neg 0 (-1074)
  else
    let e := Z.max (ilog2 n d - 52) (-1074) in
    let (n', d') := scale2 n d e in
    let m := round_half_even n' d' in
    let (m, e) := if m =? 2 ^ 53 then (2 ^ 52, e + 1) else (m, e) in
    if 971 <? e then Inf neg else Fin neg (Z.to_N m) e.

(** [bool(x)] *)
Definition truthy (x : t) : bool :=
  match x with
  | Fin _ m _ => negb (m =? 0)%N
  | _ => true
  end.

(** [float(d)] for a decimal [d]. *)
Definition of_dec (d : Dec.t) : res t :=
  match d with
  | Dec.NaN _ true => Raise ValueError
  | Dec.NaN _ false => Ret NaN
  | Dec.Inf neg => Ret (Inf neg)
  | Dec.Fin neg c e =>
      let (n, d) := scale10 (Z.of_N c) 1 e in Ret (round_ratio neg n d)
  end.

(** [a / b] for two integers, [b] not zero. *)
Definition true_div (a b : Z) : res t :=
  let neg := xorb (a <? 0) (b <? 0) in
  match round_ratio neg (Z.abs a) (Z.abs b) with
  | Inf _ => Raise OverflowError
  | x => Ret x
  end.

(** [x > z] for an integer [z]. *)
Definition gt_int (x : t) (z : Z) : bool :=
  match x with
  | NaN => false
  | Inf neg => negb neg
  | Fin neg m e =>
      let (n, d) := scale2 (Dec.signed neg m) 1 (- e) in z * d <? n
  end.

(** *** [repr(x)]: the shortest digits that read back as [x] *)

Definition eqb (x y : t) : bool :=
  match x, y with
  | Fin n1 m1 e1, Fin n2 m2 e2 => Bool.eqb n1 n2 && (m1 =? m2)%N && (e1 =? e2)
  | Inf n1, Inf n2 => Bool.eqb n1 n2
  | _, _ => false
  end.

(** [10^k <= n / d] *)
Definition ge_pow10 (n d k : Z) : bool :=
  let (n', d') := scale10 n d (- k) in d' <=? n'.

(** [floor (log10 (n / d))] for positive [n] and [d]. *)
Definition ilog10 (n d : Z) : Z :=
  let g := ilog2 n d * 30103 / 100000 in
  if ge_pow10 n d (g + 1) then g + 1
  else if ge_pow10 n d g then g
  else g - 1.

Fixpoint strip_zeros (fuel : nat) (c q : Z) : Z * Z :=
  match fuel with
  | O => (c, q)
  | S fuel' =>
      if (c mod 10 =? 0) && negb (c =? 0) then strip_zeros fuel' (c / 10) (q + 1)
      else (c, q)
  end.

(** The digits [c] and the exponent [q] of the decimal [c * 10^q] with
    the fewest digits that rounds to [m * 2^e], the nearest to it among
    these; [ks] lists the numbers of digits to try. *)
Fixpoint shortest (ks : list Z) (m : N) (e : Z) : Z * Z :=
  let (n, d) := scale2 (Z.of_N m) 1 (- e) in
  match ks with
  | [] => (0, 0)
  | k :: ks' =>
      let s := k - 1 - ilog10 n d in
      let (n', d') := scale10 n d s in
      let lo := n' / d' in
      let hi := lo + 1 in
      let back (c : Z) :=
        let (a, b) := scale10 c 1 (- s) in eqb (round_ratio false a b) (Fin false m e) in
      let pick :=
        match back lo, back hi with
        | true, true => Some (if 2 * (n' mod d') <=? d' then lo else hi)
        | true, false => Some lo
        | false, true => Some hi
        | false, false => None
        end in
      match pick with
      | Some c => strip_zeros 17 c (- s)
      | None => shortest ks' m e
      end
  end.

Definition up_to_17 : list Z := [1; 2; 3; 4; 5; 6; 7; 8; 9; 10; 11; 12; 13; 14; 15; 16; 17].

Definition show_exponent (x : Z) : string :=
  let a := Digits.show (Z.abs_N x) in
  (if x <? 0 then "-" else "+")
    ++ (if (String.length a <? 2)%nat then "0" else "") ++ a.

(** [str(x)] and [repr(x)] *)
Definition to_string (x : t) : string :=
  match x with
  | NaN => "nan"
  | Inf neg => if neg then "-inf" else "inf"
  | Fin neg m e =>
      let sign := if neg then "-" else "" in
      if (m =? 0)%N then sign ++ "0.0"
      else
        let (c, q) := shortest up_to_17 m e in
        let ds := Digits.show (Z.to_N c) in
        let len := Z.of_nat (String.length ds) in
        let decpt := len + q in
        sign ++
         (if (decpt <=? -4) || (16 <? decpt)
          then Str.take 1 ds
               ++ (if 1 <? len then "." ++ substring 1 (String.length ds) ds else "")
               ++ "e" ++ show_exponent (decpt - 1)
          else if decpt <=? 0
          then "0." ++ Digits.zeros (Z.to_nat (- decpt)) ++ ds
          else if len <=? decpt
          then ds ++ Digits.zeros (Z.to_nat (decpt - len)) ++ ".0"
          else Str.take (Z.to_nat decpt) ds ++ "."
               ++ substring (Z.to_nat decpt) (String.length ds) ds)
  end.

End F64.

(** ** The patterns of the field extractors *)

Module Patterns.

Import Re.

(** [[:\s]*] *)
Definition label_sep : regex := star [Ch ":"; Space].

(** [([A-Z0-9][-A-Z0-9]{n,})] *)
Definition number_token (n : nat) : regex :=
  Grp (Set_ [Rng "A" "Z"; Rng "0" "9"]
       >> at_least n [Ch "-"; Rng "A" "Z"; Rng "0" "9"]).

Definition invoice_patterns : list regex :=
  [ (* (?:Invoice|Inv|Invoice\s*#|Invoice\s*Number|Invoice\s*No\.?)[:\s]*([A-Z0-9][-A-Z0-9]{3,}) *)
    (Lit "Invoice"
     <|> Lit "Inv"
     <|> Lit "Invoice" >> star [Space] >> Lit "#"
     <|> Lit "Invoice" >> star [Space] >> Lit "Number"
     <|> Lit "Invoice" >> star [Space] >> Lit "No" >> opt [Ch "."])
    >> label_sep >> number_token 3;
    (* (?:Order|Order\s*#|Order\s*Number)[:\s]*([A-Z0-9][-A-Z0-9]{3,}) *)
    (Lit "Order"
     <|> Lit "Order" >> star [Space] >> Lit "#"
     <|> Lit "Order" >> star [Space] >> Lit "Number")
    >> label_sep >> number_token 3;
    (* (?:Reference|Ref|Ref\s*#)[:\s]*([A-Z0-9][-A-Z0-9]{3,}) *)
    (Lit "Reference"
     <|> Lit "Ref"
     <|> Lit "Ref" >> star [Space] >> Lit "#")
    >> label_sep >> number_token 3;
    (* #\s*([A-Z0-9][-A-Z0-9]{5,}) *)
    Lit "#" >> star [Space] >> number_token 5 ].

(** [[/-]] *)
Definition date_sep : regex := Set_ [Ch "/"; Ch "-"].

(** [(?:Invoice\s*Date|Date|Issued)] *)
Definition date_label : regex :=
  Lit "Invoice" >> star [Space] >> Lit "Date" <|> Lit "Date" <|> Lit "Issued".

(** [\d{1,2}[/-]\d{1,2}[/-]\d{n,4}] *)
Definition numeric_date (n : nat) : regex :=
  from_to 1 2 [Digit] >> date_sep >> from_to 1 2 [Digit] >> date_sep
  >> from_to n 4 [Digit].

(** [\w+\s+\d{1,2},?\s+\d{4}] *)
Definition month_name_date : regex :=
  plus [Word] >> plus [Space] >> from_to 1 2 [Digit] >> opt [Ch ","]
  >> plus [Space] >> exactly 4 [Digit].

(** [\d{4}[/-]\d{1,2}[/-]\d{1,2}] *)
Definition iso_date : regex :=
  exactly 4 [Digit] >> date_sep >> from_to 1 2 [Digit] >> date_sep
  >> from_to 1 2 [Digit].

Definition date_patterns : list regex :=
  [ date_label >> label_sep >> Grp (numeric_date 2);
    date_label >> label_sep >> Grp month_name_date;
    date_label >> label_sep >> Grp iso_date ].

Definition generic_patterns : list regex :=
  [ Grp (numeric_date 4);
    Grp iso_date;
    Grp month_name_date ].

(** [(?:Total|Amount\s*Due|Grand\s*Total|Balance\s*Due|Total\s*Due)] *)
Definition total_label : regex :=
  Lit "Total"
  <|> Lit "Amount" >> star [Space] >> Lit "Due"
  <|> Lit "Grand" >> star [Space] >> Lit "Total"
  <|> Lit "Balance" >> star [Space] >> Lit "Due"
  <|> Lit "Total" >> star [Space] >> Lit "Due".

(** The group of [[\d,]+\.?\d*] *)
Definition amount_token : regex :=
  Grp (plus [Digit; Ch ","] >> opt [Ch "."] >> star [Digit]).

Definition total_patterns : list regex :=
  [ (* the label, [[:\s]*\$?] and the group *)
    total_label >> label_sep >> opt [Ch "$"] >> amount_token;
    (* the label, [[:\s]*USD?\s*] and the group *)
    total_label >> label_sep >> Lit "US" >> opt [Ch "D"] >> star [Space]
    >> amount_token ].

(** [\$\s*([\d,]+\.\d{2})] *)
Definition currency_pattern : regex :=
  Lit "$" >> star [Space]
  >> Grp (plus [Digit; Ch ","] >> Lit "." >> exactly 2 [Digit]).

Definition skip_patterns : list regex :=
  [ Bol >> Lit "invoice";
    Bol >> Lit "date";
    Bol >> Lit "bill" >> star [Space] >> Lit "to";
    Bol >> Lit "ship" >> star [Space] >> Lit "to";
    Bol >> Set_ [Digit];
    Bol >> Lit "page";
    Bol >> Lit "total" ].

(** [^[A-Z]] *)
Definition capital_pattern : regex := Bol >> Set_ [Rng "A" "Z"].

End Patterns.

(** ** The date-parsing capability ([dateutil])

    What the script asks of it: [dateparser.parse] on a string, the [year]
    of the date it returns and [int(parsed.timestamp())]. *)

Record DateLib : Type := {
  datetime : Type;
  dateparser_parse : string -> Py.res (option datetime);
  year : datetime -> Z;
  timestamp : datetime -> Py.res Z
}.

(** ** The field extractors *)

Module Extract.

Import Py Re Patterns.
Local Open Scope py_scope.

(** *** Invoice number *)

Fixpoint invoice_number_loop (patterns : list regex) (text : string)
  : res (option string) :=
  match patterns with
  | [] => Ret None
  | pattern :: rest =>
      match search true pattern text with
      | Some m =>
          match group1 m with
          | Some g => Ret (Some (Str.strip g))
          | None => Raise AttributeError
          end
      | None => invoice_number_loop rest text
      end
  end.

Definition parse_invoice_number (text : string) : res (option string) :=
  invoice_number_loop invoice_patterns text.

(** *** Date *)

Section Date.

Variable HAS_DATEUTIL : bool.
Variable lib : DateLib.

(** The body of the [try] of the labeled tier, on the captured text. *)
Definition labeled_candidate (g : option string) : res (option (string * Z)) :=
  match g with
  | Some date_str =>
      parsed <- dateparser_parse lib date_str ;;
      match parsed with
      | Some d => ts <- timestamp lib d ;; Ret (Some (date_str, ts))
      | None => Ret None
      end
  | None => Raise TypeError
  end.

Fixpoint labeled_dates (patterns : list regex) (text : string)
  : res (option (string * Z)) :=
  match patterns with
  | [] => Ret None
  | pattern :: rest =>
      match search true pattern text with
      | Some m =>
          found <- try_except (labeled_candidate (group1 m)) (fun _ => Ret None) ;;
          match found with
          | Some r => Ret (Some r)
          | None => labeled_dates rest text
          end
      | None => labeled_dates rest text
      end
  end.

(** The body of the [try] of the generic tier. *)
Definition generic_candidate (date_str : string) : res (option (string * Z)) :=
  parsed <- dateparser_parse lib date_str ;;
  match parsed with
  | Some d =>
      if ((2020 <=? year lib d) && (year lib d <=? 2030))%Z
      then ts <- timestamp lib d ;; Ret (Some (date_str, ts))
      else Ret None
  | None => Ret None
  end.

(** [for date_str in matches[:3]] *)
Fixpoint first_plausible (matches : list string) : res (option (string * Z)) :=
  match matches with
  | [] => Ret None
  | date_str :: rest =>
      found <- try_except (generic_candidate date_str) (fun _ => Ret None) ;;
      match found with
      | Some r => Ret (Some r)
      | None => first_plausible rest
      end
  end.

Fixpoint generic_dates (patterns : list regex) (text : string)
  : res (option (string * Z)) :=
  match patterns with
  | [] => Ret None
  | pattern :: rest =>
      found <- first_plausible (firstn 3 (findall false pattern text)) ;;
      match found with
      | Some r => Ret (Some r)
      | None => generic_dates rest text
      end
  end.

Definition parse_date (text : string) : res (option string * option Z) :=
  if negb HAS_DATEUTIL then Ret (None, None)
  else
    labeled <- labeled_dates date_patterns text ;;
    match labeled with
    | Some (date_str, ts) => Ret (Some date_str, Some ts)
    | None =>
        generic <- generic_dates generic_patterns text ;;
        match generic with
        | Some (date_str, ts) => Ret (Some date_str, Some ts)
        | None => Ret (None, None)
        end
    end.

End Date.

(** *** Amount *)

Fixpoint labeled_totals (patterns : list regex) (text : string)
  : res (option (string * Dec.t)) :=
  match patterns with
  | [] => Ret None
  | pattern :: rest =>
      match search true pattern text with
      | Some m =>
          match group1 m with
          | None => Raise AttributeError
          | Some g =>
              let amount_str := Str.remove "," g in
              found <- try_except_only InvalidOperation
                         (d <- Dec.of_string amount_str ;; Ret (Some (g, d)))
                         (Ret None) ;;
              match found with
              | Some r => Ret (Some r)
              | None => labeled_totals rest text
              end
          end
      | None => labeled_totals rest text
      end
  end.

(** [for m in matches: try: amounts.append(...) except: pass] *)
Fixpoint collect_amounts (matches : list string) : list (string * Dec.t) :=
  match matches with
  | [] => []
  | m :: rest =>
      match Dec.of_string (Str.remove "," m) with
      | Ret d => (m, d) :: collect_amounts rest
      | Raise _ => collect_amounts rest
      end
  end.

(** [amounts.sort(key=lambda x: x[1], reverse=True)]: the sort is stable,
    so an entry goes before the entries after it whose value is not
    greater; the only comparison is [<] on the values. *)
Fixpoint insert_desc (x : string * Dec.t) (sorted : list (string * Dec.t))
  : res (list (string * Dec.t)) :=
  match sorted with
  | [] => Ret [x]
  | y :: rest =>
      smaller <- Dec.lt (snd x) (snd y) ;;
      if smaller
      then rest' <- insert_desc x rest ;; Ret (y :: rest')
      else Ret (x :: y :: rest)
  end.

Fixpoint sort_desc (amounts : list (string * Dec.t)) : res (list (string * Dec.t)) :=
  match amounts with
  | [] => Ret []
  | x :: rest => sorted <- sort_desc rest ;; insert_desc x sorted
  end.

Definition largest_amount (text : string) : res (option string * option Dec.t) :=
  let matches := findall false currency_pattern text in
  match matches with
  | [] => Ret (None, None)
  | _ =>
      match collect_amounts matches with
      | [] => Ret (None, None)
      | amounts =>
          sorted <- sort_desc amounts ;;
          match sorted with
          | (amount_str, d) :: _ => Ret (Some amount_str, Some d)
          | [] => Raise IndexError
          end
      end
  end.

Definition parse_amount (text : string) : res (option string * option Dec.t) :=
  labeled <- labeled_totals total_patterns text ;;
  match labeled with
  | Some (amount_str, d) => Ret (Some amount_str, Some d)
  | None => largest_amount text
  end.

(** *** Vendor *)

Definition NL : ascii := "010"%char.

Definition matches_any (patterns : list regex) (line : string) : bool :=
  existsb (fun pattern => match match_at true pattern 0 line with
                          | Some _ => true
                          | None => false
                          end) patterns.

Fixpoint vendor_loop (lines : list string) : option string :=
  match lines with
  | [] => None
  | l :: rest =>
      let line := Str.strip l in
      let len := String.length line in
      if (len =? 0)%nat || (len <? 3)%nat || (100 <? len)%nat then vendor_loop rest
      else if matches_any skip_patterns line then vendor_loop rest
      else
        match match_at false capital_pattern 0 line with
        | Some _ => if (3 <=? len)%nat then Some line else vendor_loop rest
        | None => vendor_loop rest
        end
  end.

Definition parse_vendor (text : string) : option string :=
  vendor_loop (firstn 10 (Str.split NL text)).

End Extract.

(** ** Text acquisition and the extraction coordinator *)

Module Acquire.

Import Py.
Local Open Scope py_scope.

(** What the script does to the outside: it invokes a capability or
    prints a diagnostic on the error stream. *)
Inductive event : Type :=
| Structured_invoked
| Recognition_invoked
| Diagnostic (prefix : string) (e : exn).

(** The external collaborators.  [pdfplumber_pages] stands for opening
    the document and [extract_text] on each page, [ocr_pages] for
    [convert_from_path] and [image_to_string] on each image; a page
    without text yields the empty string; either raises when any of its
    steps does.  [path_exists] stands for [Path(pdf_path).exists()], which
    answers or raises ([OSError] for a name that is too long or a directory
    that may not be searched). *)
Record Capabilities : Type := {
  HAS_PDFPLUMBER : bool;
  HAS_OCR : bool;
  HAS_DATEUTIL : bool;
  dateutil : DateLib;
  path_exists : string -> res bool;
  pdfplumber_pages : string -> res (list string);
  ocr_pages : string -> res (list string)
}.

Definition newline : string := String Extract.NL EmptyString.

Definition join_pages (pages : list string) : string :=
  Str.join newline (filter Dec.nonempty pages).

(** The [result] dictionary. *)
Record result : Type := {
  file : string;
  extraction_method : option string;
  invoice_number : option string;
  date_string : option string;
  date_timestamp : option Z;
  amount_string : option string;
  amount_decimal : option F64.t;
  vendor : option string;
  raw_text_preview : option string;
  errors : list string
}.

Definition empty_result (pdf_path : string) : result :=
  {| file := pdf_path; extraction_method := None; invoice_number := None;
     date_string := None; date_timestamp := None; amount_string := None;
     amount_decimal := None; vendor := None; raw_text_preview := None;
     errors := [] |}.

Section Acquisition.

Variable caps : Capabilities.

Definition extract_text_pdfplumber (pdf_path : string) : string * list event :=
  if negb (HAS_PDFPLUMBER caps) then ("", [])
  else
    match pdfplumber_pages caps pdf_path with
    | Ret pages => (join_pages pages, [Structured_invoked])
    | Raise e => ("", [Structured_invoked; Diagnostic "pdfplumber error: " e])
    end.

Definition extract_text_ocr (pdf_path : string) : string * list event :=
  if negb (HAS_OCR caps) then ("", [])
  else
    match ocr_pages caps pdf_path with
    | Ret pages => (join_pages pages, [Recognition_invoked])
    | Raise e => ("", [Recognition_invoked; Diagnostic "OCR error: " e])
    end.

(** Returns [(text, method)] and what was done to obtain it. *)
Definition extract_text (pdf_path : string) : (string * string) * list event :=
  let (text, log1) := extract_text_pdfplumber pdf_path in
  if (50 <=? String.length (Str.strip text))%nat
  then ((text, "pdfplumber"), log1)
  else
    let (text, log2) := extract_text_ocr pdf_path in
    if Dec.nonempty (Str.strip text)
    then ((text, "ocr"), (log1 ++ log2)%list)
    else (("", "none"), (log1 ++ log2)%list).

(** [float(amount) if amount else None] *)
Definition float_if_truthy (amount : option Dec.t) : res (option F64.t) :=
  match amount with
  | Some d => if Dec.truthy d then x <- F64.of_dec d ;; Ret (Some x) else Ret None
  | None => Ret None
  end.

(** The dictionary starts as [empty_result pdf_path]; each return below
    shows the entries set by then. *)
Definition extract_invoice_data (pdf_path : string) : res (result * list event) :=
  found <- path_exists caps pdf_path ;;
  if negb found
  then Ret ({| file := pdf_path; extraction_method := None;
               invoice_number := None; date_string := None;
               date_timestamp := None; amount_string := None;
               amount_decimal := None; vendor := None;
               raw_text_preview := None;
               errors := ["File not found: " ++ pdf_path] |}, [])
  else
    let '((text, method), log) := extract_text pdf_path in
    let preview := if Dec.nonempty text then Some (Str.take 500 text) else None in
    if negb (Dec.nonempty text)
    then Ret ({| file := pdf_path; extraction_method := Some method;
                 invoice_number := None; date_string := None;
                 date_timestamp := None; amount_string := None;
                 amount_decimal := None; vendor := None;
                 raw_text_preview := preview;
                 errors := ["Could not extract text from PDF"] |}, log)
    else
      number <- Extract.parse_invoice_number text ;;
      date <- Extract.parse_date (HAS_DATEUTIL caps) (dateutil caps) text ;;
      amount <- Extract.parse_amount text ;;
      amount_float <- float_if_truthy (snd amount) ;;
      Ret ({| file := pdf_path; extraction_method := Some method;
              invoice_number := number;
              date_string := fst date; date_timestamp := snd date;
              amount_string := fst amount; amount_decimal := amount_float;
              vendor := Extract.parse_vendor text;
              raw_text_preview := preview;
              errors := [] |}, log).

End Acquisition.

End Acquire.

(** ** Calendar dates of [datetime]

    [datetime.fromtimestamp(ts).strftime('%Y-%m-%d')]: the local date of a
    timestamp, for years 1 to 9999 and no others. *)

Module Calendar.

Import Py.
Local Open Scope py_scope.
Local Open Scope Z_scope.

(** Year, month and day of the day [z] days after 1970-01-01. *)
Definition civil_from_days (z : Z) : Z * Z * Z :=
  let z := z + 719468 in
  let era := z / 146097 in
  let doe := z - era * 146097 in
  let yoe := (doe - doe / 1460 + doe / 36524 - doe / 146096) / 365 in
  let doy := doe - (365 * yoe + yoe / 4 - yoe / 100) in
  let mp := (5 * doy + 2) / 153 in
  let d := doy - (153 * mp + 2) / 5 + 1 in
  let m := if mp <? 10 then mp + 3 else mp - 9 in
  let y := yoe + era * 400 + (if m <=? 2 then 1 else 0) in
  (y, m, d).

Definition MINYEAR : Z := 1.
Definition MAXYEAR : Z := 9999.

Definition pad (width : nat) (n : Z) : string :=
  let s := Digits.show (Z.to_N n) in
  Digits.zeros (width - String.length s) ++ s.

(** [strftime('%Y-%m-%d')] for a year of 1 to 9999: the C library writes
    the year as it is, without leading zeros (the year 385 gives
    [385-07-25]); month and day have two digits. *)
Definition strftime_ymd (date : Z * Z * Z) : string :=
  let '(y, m, d) := date in
  Digits.show (Z.to_N y) ++ "-" ++ pad 2 m ++ "-" ++ pad 2 d.

(** The platform: a time is a signed number of seconds on 64 bits, and the
    year of a broken-down time, counted from 1900, is an [int] of 32
    bits. *)
Definition TIME_T_MIN : Z := - 2 ^ 63.
Definition TIME_T_MAX : Z := 2 ^ 63 - 1.
Definition INT_MIN : Z := - 2 ^ 31.
Definition INT_MAX : Z := 2 ^ 31 - 1.

(** The seconds [fromtimestamp] looks back to detect a repeated hour. *)
Definition max_fold_seconds : Z := 86400.

(** The test of the year of [datetime]. *)
Definition check_year (y : Z) : res unit :=
  if (MINYEAR <=? y) && (y <=? MAXYEAR) then Ret tt else Raise ValueError.

Section Zone.

(** Seconds east of UTC of the local zone at an instant. *)
Variable utcoffset : Z -> Z.

(** The platform's [localtime]: the local date of an instant; it fails
    ([OSError]) when the year does not fit. *)
Definition localtime (t : Z) : res (Z * Z * Z) :=
  let '(y, m, d) := civil_from_days ((t + utcoffset t) / 86400) in
  if (INT_MIN <=? y - 1900) && (y - 1900 <=? INT_MAX) then Ret (y, m, d)
  else Raise OSError.

(** The local time of an instant, its year tested. *)
Definition local (t : Z) : res unit :=
  date <- localtime t ;;
  let '(y, _, _) := date in check_year y.

(** [datetime.fromtimestamp(ts)] for an integer, as far as the date goes:
    the timestamp has to fit the platform's time ([OverflowError]), the
    platform has to convert it ([OSError]), and the year has to be one of
    1 to 9999 ([ValueError]), also at the instants looked at to detect a
    repeated hour: one day before, and after a backward change of the
    offset the instant that much before. *)
Definition fromtimestamp (ts : Z) : res (Z * Z * Z) :=
  if (ts <? TIME_T_MIN) || (TIME_T_MAX <? ts) then Raise OverflowError
  else
    date <- localtime ts ;;
    let '(y, m, d) := date in
    _ <- check_year y ;;
    _ <- local (ts - max_fold_seconds) ;;
    let transition := utcoffset ts - utcoffset (ts - max_fold_seconds) in
    _ <- (if transition <? 0 then local (ts + transition) else Ret tt) ;;
    Ret (y, m, d).

End Zone.

End Calendar.

(** ** The reconciliation engine *)

Module Reconcile.

Import Py Acquire.
Local Open Scope py_scope.

(** A number of a bill record. *)
Inductive number : Type :=
| Int (z : Z)
| Float (x : F64.t)
| Decimal (d : Dec.t).

Definition show_Z (z : Z) : string :=
  (if (z <? 0)%Z then "-" else "") ++ Digits.show (Z.abs_N z).

(** [str(n)] *)
Definition number_to_string (n : number) : string :=
  match n with
  | Int z => show_Z z
  | Float x => F64.to_string x
  | Decimal d => Dec.to_string d
  end.

(** The bill dictionary, as far as the engine reads it. *)
Record bill : Type := {
  BillNumber : option string;
  Amount : option number;
  BillDate : option Z
}.

(** A value of an issue: [None], a string or a float. *)
Inductive value : Type :=
| VNone
| VStr (s : string)
| VFloat (x : F64.t).

Record issue : Type := {
  field : string;
  severity : string;
  pdf_value : value;
  bill_value : value;
  message : string
}.

(** *** Truth values: what [d.get(key)] counts as true *)

Definition truthy_string (s : string) : bool := Dec.nonempty s.
Definition truthy_int (z : Z) : bool := negb (z =? 0)%Z.
Definition truthy_number (n : number) : bool :=
  match n with
  | Int z => truthy_int z
  | Float x => F64.truthy x
  | Decimal d => Dec.truthy d
  end.

(** The entry when it is there and counts as true. *)
Definition get {A : Type} (truthy : A -> bool) (entry : option A) : option A :=
  match entry with
  | Some a => if truthy a then Some a else None
  | None => None
  end.

Fixpoint codes_eqb (a b : list N) : bool :=
  match a, b with
  | [], [] => true
  | x :: a', y :: b' => (x =? y)%N && codes_eqb a' b'
  | _, _ => false
  end.

Definition value_of_string (s : option string) : value :=
  match s with Some t => VStr t | None => VNone end.

(** [str(s)] for a string or [None]. *)
Definition show_option (s : option string) : string :=
  match s with Some t => t | None => "None" end.

Section Engine.

Variable utcoffset : Z -> Z.

Definition compare_invoice_number (extracted : result) (b : bill)
           (issues : list issue) : res (list issue) :=
  match get truthy_string (invoice_number extracted),
        get truthy_string (BillNumber b) with
  | Some number, Some bill_number =>
      if negb (codes_eqb (Str.upper number) (Str.upper bill_number))
      then Ret (issues ++ [ {| field := "invoice_number";
                               severity := "WARNING";
                               pdf_value := VStr number;
                               bill_value := VStr bill_number;
                               message := "Invoice number mismatch: PDF has '"
                                          ++ number ++ "', bill has '"
                                          ++ bill_number ++ "'" |} ])%list
      else Ret issues
  | _, _ => Ret issues
  end.

Definition compare_amount (extracted : result) (b : bill)
           (issues : list issue) : res (list issue) :=
  match get F64.truthy (amount_decimal extracted),
        get truthy_number (Amount b) with
  | Some amount, Some bill_number =>
      pdf_amount <- Dec.of_string (F64.to_string amount) ;;
      bill_amount <- Dec.of_string (number_to_string bill_number) ;;
      difference <- Dec.sub pdf_amount bill_amount ;;
      distance <- Dec.abs difference ;;
      cent <- Dec.of_string "0.01" ;;
      mismatch <- Dec.gt distance cent ;;
      if mismatch
      then
        pdf_float <- F64.of_dec pdf_amount ;;
        bill_float <- F64.of_dec bill_amount ;;
        Ret (issues ++ [ {| field := "amount";
                            severity := "ERROR";
                            pdf_value := VFloat pdf_float;
                            bill_value := VFloat bill_float;
                            message := "Amount mismatch: PDF has $"
                                       ++ Dec.to_string pdf_amount
                                       ++ ", bill has $"
                                       ++ Dec.to_string bill_amount |} ])%list
      else Ret issues
  | _, _ => Ret issues
  end.

Definition compare_date (extracted : result) (b : bill)
           (issues : list issue) : res (list issue) :=
  match get truthy_int (date_timestamp extracted),
        get truthy_int (BillDate b) with
  | Some pdf_ts, Some bill_ts =>
      diff_days <- F64.true_div (Z.abs (pdf_ts - bill_ts)) 86400 ;;
      if F64.gt_int diff_days 1
      then
        bill_day <- Calendar.fromtimestamp utcoffset bill_ts ;;
        let shown := Calendar.strftime_ymd bill_day in
        Ret (issues ++ [ {| field := "date";
                            severity := "WARNING";
                            pdf_value := value_of_string (date_string extracted);
                            bill_value := VStr shown;
                            message := "Date mismatch: PDF has '"
                                       ++ show_option (date_string extracted)
                                       ++ "', bill has " ++ shown |} ])%list
      else Ret issues
  | _, _ => Ret issues
  end.

(** The three comparisons, in the order of the script. *)
Definition compare_with_bill (extracted : result) (b : bill) : res (list issue) :=
  issues <- compare_invoice_number extracted b [] ;;
  issues <- compare_amount extracted b issues ;;
  compare_date extracted b issues.

End Engine.

End Reconcile.

(** * The vocabulary of the properties *)

Module Spec.

Import Py Re Patterns Extract Acquire Reconcile.
Local Open Scope py_scope.

(** ** Matches *)

Fixpoint all_chars (P : ascii -> bool) (s : string) : bool :=
  match s with
  | String c s' => P c && all_chars P s'
  | EmptyString => true
  end.

Fixpoint some_char (P : ascii -> bool) (s : string) : bool :=
  match s with
  | String c s' => P c || some_char P s'
  | EmptyString => false
  end.

(** The characters an expression can consume. *)
Fixpoint alphabet (ic : bool) (r : regex) (c : ascii) : bool :=
  match r with
  | Lit l => some_char (fun p => same_char ic p c) l
  | Set_ cs | Rep cs _ _ => accepts ic cs c
  | Cat r1 r2 | Alt r1 r2 => alphabet ic r1 c || alphabet ic r2 c
  | Grp r1 => alphabet ic r1 c
  | Bol => false
  end.

(** Every match of the expression sets group 1. *)
Fixpoint captures (r : regex) : bool :=
  match r with
  | Grp _ => true
  | Cat r1 r2 => captures r1 || captures r2
  | Alt r1 r2 => captures r1 && captures r2
  | _ => false
  end.

(** The characters group 1 can hold. *)
Fixpoint group_alphabet (ic : bool) (r : regex) (c : ascii) : bool :=
  match r with
  | Grp r1 => alphabet ic r1 c
  | Cat r1 r2 | Alt r1 r2 => group_alphabet ic r1 c || group_alphabet ic r2 c
  | _ => false
  end.

(** Group 1 after a match of [r] that started with [g]. *)
Definition grp_post (ic : bool) (r : regex) (g g' : option string) : Prop :=
  (captures r = false /\ g' = g)
  \/ (exists t, g' = Some t /\ all_chars (group_alphabet ic r) t = true).

(** ** Decimals *)

Definition finite (d : Dec.t) : Prop :=
  match d with Dec.Fin _ _ _ => True | _ => False end.

(** The characters of an amount token, and of one without separators. *)
Definition token_char (c : ascii) : bool :=
  Chars.isdecimal c || Ascii.eqb c "," || Ascii.eqb c ".".
Definition amount_char (c : ascii) : bool :=
  Chars.isdecimal c || Ascii.eqb c ".".

(** The coefficient of a finite decimal on the exponent [E]. *)
Definition scaled (E : Z) (d : Dec.t) : Z :=
  match d with
  | Dec.Fin n c e => Dec.signed n c * 10 ^ (e - E)
  | _ => 0
  end.

Definition exponent (d : Dec.t) : Z :=
  match d with Dec.Fin _ _ e => e | _ => 0 end.

(** ** Amounts *)

Definition all_finite (l : list (string * Dec.t)) : Prop :=
  Forall (fun x => finite (snd x)) l.

(** An amount as the extractor reads it: the decimal of the matched text
    without its separators, finite and not negative. *)
Definition reads_as (amount_str : string) (d : Dec.t) : Prop :=
  Dec.of_string (Str.remove "," amount_str) = Ret d
  /\ exists c e, d = Dec.Fin false c e.

(** [x] is the entry of [l] with the greatest value, the first of them. *)
Definition earliest_max (l : list (string * Dec.t)) (x : string * Dec.t) : Prop :=
  exists i,
    nth_error l i = Some x
    /\ (forall y, In y l -> Dec.lt (snd x) (snd y) = Ret false)
    /\ (forall j y, (j < i)%nat -> nth_error l j = Some y ->
                    Dec.lt (snd y) (snd x) = Ret true).

(** What a float holds exactly: [m * 2^e] is the decimal [c * 10^q]. *)
Definition exactly_decimal (x : F64.t) (d : Dec.t) : Prop :=
  match x, d with
  | F64.Fin n1 m e, Dec.Fin n2 c q =>
      let (a, b) := F64.scale2 (Dec.signed n1 m) 1 (- e) in
      let (a', b') := F64.scale10 (Dec.signed n2 c) 1 q in
      (a * b' = a' * b)%Z
  | _, _ => False
  end.

(** ** Dates *)

(** A candidate that is acceptable, in the words of the specification: the
    date library parses it, and the year of the date it gives lies in 2020
    to 2030.  An acceptable candidate comes with the timestamp of that date
    (a date without a timestamp is not acceptable). *)
Definition plausible_year (y : Z) : bool := ((2020 <=? y) && (y <=? 2030))%Z.

Definition accepted (lib : DateLib) (date_str : string) : option (string * Z) :=
  match dateparser_parse lib date_str with
  | Ret (Some d) =>
      if plausible_year (year lib d)
      then match timestamp lib d with
           | Ret ts => Some (date_str, ts)
           | Raise _ => None
           end
      else None
  | Ret None | Raise _ => None
  end.

Fixpoint first_some {A B : Type} (f : A -> option B) (l : list A) : option B :=
  match l with
  | [] => None
  | a :: rest => match f a with Some b => Some b | None => first_some f rest end
  end.

Definition as_pair (found : option (string * Z)) : option string * option Z :=
  match found with
  | Some (date_str, ts) => (Some date_str, Some ts)
  | None => (None, None)
  end.

(** The first three matches of a generic pattern. *)
Definition candidates (pattern : regex) (text : string) : list string :=
  firstn 3 (findall false pattern text).

(** ** Reconciliation *)

(** The number a record holds for the amount written [s]: that decimal, or
    the float of it. *)
Definition number_reads (s : string) (n : number) : Prop :=
  exists d, Dec.of_string s = Ret d
            /\ (n = Decimal d \/ exists x, F64.of_dec d = Ret x /\ n = Float x).

(** The extracted value of the amount written [s]. *)
Definition float_reads (s : string) (x : F64.t) : Prop :=
  (d <- Dec.of_string s ;; F64.of_dec d) = Ret x.

(** Both sides hold a value that counts as true, per field. *)
Definition both_numbers (e : result) (b : bill) : Prop :=
  get truthy_string (invoice_number e) <> None
  /\ get truthy_string (BillNumber b) <> None.
Definition both_amounts (e : result) (b : bill) : Prop :=
  get F64.truthy (amount_decimal e) <> None
  /\ get truthy_number (Amount b) <> None.
Definition both_dates (e : result) (b : bill) : Prop :=
  get truthy_int (date_timestamp e) <> None
  /\ get truthy_int (BillDate b) <> None.

(** The exact difference of two finite decimals: coefficient and exponent. *)
Definition difference (d1 d2 : Dec.t) : Z * Z :=
  match d1, d2 with
  | Dec.Fin n1 c1 e1, Dec.Fin n2 c2 e2 =>
      let e := Z.min e1 e2 in
      (Dec.signed n1 c1 * 10 ^ (e1 - e) - Dec.signed n2 c2 * 10 ^ (e2 - e), e)%Z
  | _, _ => (0, 0)%Z
  end.

(** The difference of two finite decimals needs no rounding in the context:
    at most 28 digits and an exponent within its range. *)
Definition within_context (d1 d2 : Dec.t) : Prop :=
  finite d1 /\ finite d2
  /\ (Digits.count (Z.abs_N (fst (difference d1 d2))) <= 28)%nat
  /\ (Dec.Etiny <= snd (difference d1 d2) <= Dec.Etop)%Z.

(** The two decimals are more than 0.01 apart. *)
Definition more_than_a_cent (d1 d2 : Dec.t) : Prop :=
  let (z, e) := difference d1 d2 in
  let E := Z.min e (-2) in
  (1 * 10 ^ (-2 - E) < Z.abs z * 10 ^ (e - E))%Z.

(** The decimals the engine reads from the two amounts, when both count as
    true: [Decimal(str(...))] of each. *)
Definition amounts_read (e : result) (b : bill) (d1 d2 : Dec.t) : Prop :=
  exists x n,
    get F64.truthy (amount_decimal e) = Some x
    /\ get truthy_number (Amount b) = Some n
    /\ Dec.of_string (F64.to_string x) = Ret d1
    /\ Dec.of_string (number_to_string n) = Ret d2.

(** What a block can do: leave the issues as they are, add one issue of its
    field, or raise; the last two only with a true value on both sides. *)
Definition outcome (fld sev : string) (both : Prop) (issues : list issue)
           (r : res (list issue)) : Prop :=
  match r with
  | Ret l =>
      l = issues
      \/ (both /\ exists i, l = (issues ++ [i])%list /\ field i = fld /\ severity i = sev)
  | Raise _ => both
  end.

(** ** The dates that can be formatted *)

(** The timestamp fits the platform's time of 64 bits. *)
Definition fits_time_t (ts : Z) : Prop :=
  (Calendar.TIME_T_MIN <= ts <= Calendar.TIME_T_MAX)%Z.

(** The local date of the instant [t] lies in the years 1 to 9999: its
    local seconds lie between 0001-01-01 00:00:00 and 9999-12-31
    23:59:59. *)
Definition in_calendar (utcoffset : Z -> Z) (t : Z) : Prop :=
  (-62135596800 <= t + utcoffset t <= 253402300799)%Z.

(** The local date lies in the years 1 to 9999 at the timestamp, one day
    before it and, when the offset of the zone is smaller than it was one
    day before, that much before it. *)
Definition formattable (utcoffset : Z -> Z) (ts : Z) : Prop :=
  in_calendar utcoffset ts
  /\ in_calendar utcoffset (ts - 86400)%Z
  /\ ((utcoffset ts < utcoffset (ts - 86400))%Z ->
      in_calendar utcoffset (ts + (utcoffset ts - utcoffset (ts - 86400)))%Z).

(** The year, counted within its era of 400 years, of day [doe] of the
    era. *)
Definition year_in_era (doe : Z) : Z :=
  (let yoe := (doe - doe / 1460 + doe / 36524 - doe / 146096) / 365 in
   let doy := doe - (365 * yoe + yoe / 4 - yoe / 100) in
   let mp := (5 * doy + 2) / 153 in
   let m := if mp <? 10 then mp + 3 else mp - 9 in
   yoe + (if m <=? 2 then 1 else 0))%Z.

End Spec.

(** ** Sample documents and records *)

Module Sample.

Import Py Acquire Reconcile.

(** A date capability that recognises nothing. *)
Definition no_dates : DateLib :=
  {| datetime := unit;
     dateparser_parse := fun _ => Ret None;
     year := fun _ => 0%Z;
     timestamp := fun _ => Ret 0%Z |}.

(** A date capability that knows two dates of March 2024, as a year and a
    timestamp. *)
Definition two_dates : DateLib :=
  {| datetime := Z * Z;
     dateparser_parse := fun s =>
       if String.eqb s "March 5, 2024" then Ret (Some (2024, 1709596800)%Z)
       else if String.eqb s "2024-03-07" then Ret (Some (2024, 1709769600)%Z)
       else Raise ValueError;
     year := fst;
     timestamp := fun d => Ret (snd d) |}.

Definition lines (l : list string) : string := Str.join newline l.

(** A document with a text layer of one page. *)
Definition one_page (has_dateutil : bool) (lib : DateLib) (page : string)
  : Capabilities :=
  {| HAS_PDFPLUMBER := true; HAS_OCR := true; HAS_DATEUTIL := has_dateutil;
     dateutil := lib;
     path_exists := fun _ => Ret true;
     pdfplumber_pages := fun _ => Ret [page];
     ocr_pages := fun _ => Raise CapabilityError |}.

(** A scanned document: no text layer, one recognised page. *)
Definition scanned (page : string) : Capabilities :=
  {| HAS_PDFPLUMBER := true; HAS_OCR := true; HAS_DATEUTIL := false;
     dateutil := no_dates;
     path_exists := fun _ => Ret true;
     pdfplumber_pages := fun _ => Ret [""; "  "];
     ocr_pages := fun _ => Ret [page] |}.

Definition zero_invoice : string :=
  lines ["Acme Tools Ltd";
         "Services rendered during the month of March";
         "Total: $0.00"].

Definition dime_invoice : string :=
  lines ["Acme Tools Ltd";
         "Services rendered during the month of March";
         "Total: $0.10"].

Definition hundred_invoice : string :=
  lines ["Acme Tools Ltd";
         "Services rendered during the month of March";
         "Total: $100.00"].

(** An extraction result that holds an amount and nothing else. *)
Definition only_amount (x : F64.t) : result :=
  {| file := "invoice.pdf"; extraction_method := Some "pdfplumber";
     invoice_number := None; date_string := None; date_timestamp := None;
     amount_string := None; amount_decimal := Some x; vendor := None;
     raw_text_preview := None; errors := [] |}.

(** An extraction result that holds a date and nothing else. *)
Definition only_date (s : string) (ts : Z) : result :=
  {| file := "invoice.pdf"; extraction_method := Some "pdfplumber";
     invoice_number := None; date_string := Some s; date_timestamp := Some ts;
     amount_string := None; amount_decimal := None; vendor := None;
     raw_text_preview := None; errors := [] |}.

(** [float(Decimal('100.00'))] *)
Definition hundred : F64.t := F64.Fin false 7036874417766400 (-46).

Definition utc : Z -> Z := fun _ => 0%Z.

(** What the coordinator returns for [hundred_invoice] and for
    [zero_invoice] as the text layer of a document. *)
Definition hundred_result : result :=
  {| file := "invoice.pdf"; extraction_method := Some "pdfplumber";
     invoice_number := None; date_string := None; date_timestamp := None;
     amount_string := Some "100.00"; amount_decimal := Some hundred;
     vendor := Some "Acme Tools Ltd";
     raw_text_preview := Some hundred_invoice; errors := [] |}.

Definition zero_result : result :=
  {| file := "invoice.pdf"; extraction_method := Some "pdfplumber";
     invoice_number := None; date_string := None; date_timestamp := None;
     amount_string := Some "0.00"; amount_decimal := None;
     vendor := Some "Acme Tools Ltd";
     raw_text_preview := Some zero_invoice; errors := [] |}.

End Sample.

Definition march_text : string := "Paid March 5, 2024 ref 2024-03-07".

(** ** Further vocabulary: acquisition, coordinator, vendor, issues *)

Module More.

Import Py Re Patterns Extract Acquire Reconcile Spec.
Local Open Scope py_scope.

(** How often an event occurs in a log. *)
Definition is_structured (ev : event) : bool :=
  match ev with Structured_invoked => true | _ => false end.
Definition is_recognition (ev : event) : bool :=
  match ev with Recognition_invoked => true | _ => false end.
Definition times (which : event -> bool) (log : list event) : nat :=
  List.length (filter which log).

(** No field of the result is set. *)
Definition no_fields (r : result) : Prop :=
  invoice_number r = None /\ date_string r = None /\ date_timestamp r = None
  /\ amount_string r = None /\ amount_decimal r = None /\ vendor r = None.

(** The text that acquisition returns for a document. *)
Definition acquired (caps : Capabilities) (pdf_path : string) : string :=
  fst (fst (extract_text caps pdf_path)).

(** A trimmed line that the vendor extractor returns when it comes to it. *)
Definition vendor_line (line : string) : bool :=
  let len := String.length line in
  (3 <=? len)%nat && (len <=? 100)%nat
  && negb (matches_any skip_patterns line)
  && match match_at false capital_pattern 0 line with
     | Some _ => true
     | None => false
     end.

(** The line starts with the word, whatever the case of its letters. *)
Definition starts_with (word line : string) : bool :=
  match lit true word line with Some _ => true | None => false end.

(** The issue of a field with a severity, or nothing. *)
(** A letterhead whose first line is a title and whose second starts with a
    skipped word. *)
Definition letterhead : string :=
  Sample.lines ["INVOICE"; "  Total Care Ltd"; ""; "  Acme Tools Ltd  "; "Bill To: Jane"].

Definition at_most_one (fld sev : string) (l : list issue) : Prop :=
  l = [] \/ exists i, l = [i] /\ field i = fld /\ severity i = sev.

(** The texts an expression matches. *)
Fixpoint lang (ic : bool) (r : regex) (w : string) : Prop :=
  match r with
  | Lit l => lit ic l w = Some EmptyString
  | Set_ cs => exists c, w = String c EmptyString /\ accepts ic cs c = true
  | Rep cs lo hi =>
      all_chars (accepts ic cs) w = true
      /\ (lo <= String.length w)%nat
      /\ (forall h, hi = Some h -> (String.length w <= h)%nat)
  | Cat r1 r2 => exists w1 w2, w = w1 ++ w2 /\ lang ic r1 w1 /\ lang ic r2 w2
  | Alt r1 r2 => lang ic r1 w \/ lang ic r2 w
  | Grp r1 => lang ic r1 w
  | Bol => w = EmptyString
  end.

(** The texts group 1 can hold after a match. *)
Fixpoint group_lang (ic : bool) (r : regex) (t : string) : Prop :=
  match r with
  | Grp r1 => lang ic r1 t
  | Cat r1 r2 | Alt r1 r2 => group_lang ic r1 t \/ group_lang ic r2 t
  | _ => False
  end.

(** [t] is a part of [text]. *)
Definition occurs_in (t text : string) : Prop :=
  exists pre post, text = pre ++ t ++ post.

(** Group 1 after a match of [r] on [w] that started with [g]: as it was, or
    a part of [w]. *)
Definition grp_in (ic : bool) (r : regex) (w : string) (g g' : option string)
  : Prop :=
  g' = g \/ exists t, g' = Some t /\ group_lang ic r t /\ occurs_in t w.

(** The characters of an invoice number token: ASCII letters and digits,
    and the hyphen after the first. *)
Definition alnum (c : ascii) : bool :=
  Chars.isdecimal c || Chars.isupper_ascii c || Chars.islower_ascii c.
Definition number_char (c : ascii) : bool := alnum c || Ascii.eqb c "-".

(** A character of ASCII, and a text with the ASCII letters in upper case. *)
Definition is_ascii (c : ascii) : bool := (Chars.code c <? 128)%N.

Fixpoint ascii_upper (s : string) : string :=
  match s with
  | String c s' => String (Chars.upper c) (ascii_upper s')
  | EmptyString => EmptyString
  end.

(** The bill record that holds the values of an extraction result. *)
Definition bill_of (r : result) : bill :=
  {| BillNumber := invoice_number r;
     Amount := option_map Float (amount_decimal r);
     BillDate := date_timestamp r |}.

(** The characters of a number as [str] writes it. *)
Definition numeral_char (c : ascii) : bool :=
  Chars.isdecimal c || Ascii.eqb c "." || Ascii.eqb c "e"
  || Ascii.eqb c "+" || Ascii.eqb c "-".

End More.

(** ** The command-line report ([main]) *)

Module Report.

Import Py Acquire Reconcile.
Local Open Scope py_scope.

(** [format(x, '.2f')]: the decimal with two places nearest to the exact
    value of the float, ties to the even one. *)
Definition format_2f (x : F64.t) : string :=
  match x with
  | F64.NaN => "nan"
  | F64.Inf neg => if neg then "-inf" else "inf"
  | F64.Fin neg m e =>
      let (n, d) := F64.scale2 (Z.of_N m * 100) 1 (- e) in
      let k := F64.round_half_even n d in
      (if neg then "-" else "")
        ++ Digits.show (Z.to_N (k / 100)) ++ "." ++ Calendar.pad 2 (k mod 100)
  end.

(** [s or 'NOT FOUND'] *)
Definition or_not_found (s : option string) : string :=
  match get truthy_string s with Some t => t | None => "NOT FOUND" end.

(** The entry, or the words for an absent one. *)
Definition or_absent (s : option string) : string :=
  match s with Some t => t | None => "NOT FOUND" end.

(** [s * n] *)
Fixpoint repeat_string (s : string) (n : nat) : string :=
  match n with
  | O => EmptyString
  | S n' => s ++ repeat_string s n'
  end.

Definition amount_line (r : result) : string :=
  match get F64.truthy (amount_decimal r) with
  | Some x => "Amount: $" ++ format_2f x
  | None => "Amount: NOT FOUND"
  end.

Definition fields_section (r : result) : list string :=
  [ "File: " ++ file r;
    "Extraction method: " ++ show_option (extraction_method r);
    "Invoice #: " ++ or_not_found (invoice_number r);
    "Date: " ++ or_not_found (date_string r);
    amount_line r;
    "Vendor: " ++ or_not_found (vendor r) ].

Definition errors_section (r : result) : list string :=
  match errors r with
  | [] => []
  | errs => (newline ++ "Errors:") :: map (fun err => "  - " ++ err) errs
  end.

Definition preview_section (r : result) : list string :=
  match get truthy_string (raw_text_preview r) with
  | Some preview =>
      [ newline ++ "Text preview:" ++ newline ++ repeat_string "-" 40;
        Str.take 300 preview ]
  | None => []
  end.

(** What the text mode prints, one entry for each call of [print]. *)
Definition report (r : result) : list string :=
  fields_section r ++ errors_section r ++ preview_section r.

(** The packages the script reports as missing. *)
Definition missing_packages (caps : Capabilities) : list string :=
  (if negb (HAS_PDFPLUMBER caps) then ["pdfplumber"] else [])
    ++ (if negb (HAS_DATEUTIL caps) then ["python-dateutil"] else []).

(** The notes on the error stream before the extraction. *)
Definition dependency_notes (caps : Capabilities) : list string :=
  let missing := missing_packages caps in
  (match missing with
   | [] => []
   | _ => [ "Warning: Missing packages: " ++ Str.join ", " missing;
            "Install with: pip install " ++ Str.join " " missing ]
   end)
    ++ (if negb (HAS_OCR caps)
        then ["Note: OCR support unavailable (install pytesseract, pdf2image)"]
        else []).

Section Main.

(** [json.dumps(result, indent=2, default=str)], which the script only
    prints. *)
Variable json_dumps : result -> string.

(** [main] after the arguments are parsed: [pdf_file] and [--json] (a
    [--bill-id] is accepted and not read).  It returns the notes and the
    events of the extraction, which go to the error stream, and what is
    printed on the output, one entry for each call of [print]. *)
Definition main (caps : Capabilities) (pdf_file : string) (json : bool)
  : res (list string * list event * list string) :=
  let notes := dependency_notes caps in
  extracted <- extract_invoice_data caps pdf_file ;;
  let (result, log) := extracted in
  if json then Ret (notes, log, [json_dumps result])
  else Ret (notes, log, report result).

End Main.

End Report.

(** * Properties *)

(** ** What a match consumes and what group 1 holds *)

Module ReFacts.

Import Re Spec.

Lemma all_chars_weaken (P Q : ascii -> bool) (s : string) :
  (forall c, P c = true -> Q c = true) ->
  all_chars P s = true -> all_chars Q s = true.
Proof.
  intros HPQ. induction s as [|c s IH]; simpl; [reflexivity|].
  intros H. apply andb_true_iff in H. destruct H as [Hc Hs].
  apply andb_true_iff. split; [apply HPQ; exact Hc | apply IH; exact Hs].
Qed.

Lemma all_chars_app (P : ascii -> bool) (u v : string) :
  all_chars P (u ++ v) = all_chars P u && all_chars P v.
Proof.
  induction u as [|c u IH]; simpl; [reflexivity|].
  rewrite IH. apply andb_assoc.
Qed.

Lemma length_app (u v : string) :
  String.length (u ++ v) = String.length u + String.length v.
Proof. induction u as [|c u IH]; simpl; [reflexivity | now rewrite IH]. Qed.

Lemma app_assoc (u v w : string) : (u ++ v) ++ w = u ++ (v ++ w).
Proof. induction u as [|c u IH]; simpl; [reflexivity | now rewrite IH]. Qed.

Lemma substring_app (w s : string) : substring 0 (String.length w) (w ++ s) = w.
Proof.
  induction w as [|c w IH]; simpl.
  - destruct s; reflexivity.
  - now rewrite IH.
Qed.

Lemma grp_post_weaken (ic : bool) (r r' : regex) (g g' : option string) :
  (captures r' = true -> captures r = true) ->
  (forall c, group_alphabet ic r c = true -> group_alphabet ic r' c = true) ->
  grp_post ic r g g' -> grp_post ic r' g g'.
Proof.
  intros Hc Ha [[Hn Hg] | [t [Ht Hall]]].
  - left. split; [|exact Hg].
    destruct (captures r') eqn:E; [|reflexivity].
    rewrite (Hc eq_refl) in Hn. discriminate.
  - right. exists t. split; [exact Ht|].
    now apply (all_chars_weaken (group_alphabet ic r)).
Qed.

Section Soundness.

Variable ic : bool.
Context {A : Type}.

Lemma lit_sound (l : string) : forall s s',
  lit ic l s = Some s' ->
  exists w, s = w ++ s' /\ String.length w = String.length l
            /\ all_chars (alphabet ic (Lit l)) w = true.
Proof.
  induction l as [|p l IH]; intros s s' H; simpl in H.
  - exists EmptyString. inversion H; subst. repeat split.
  - destruct s as [|c s]; [discriminate|].
    destruct (same_char ic p c) eqn:E; [|discriminate].
    destruct (IH _ _ H) as [w [Hs [Hl Hall]]].
    exists (String c w). simpl. repeat split.
    + now rewrite Hs.
    + now rewrite Hl.
    + rewrite E. simpl.
      apply (all_chars_weaken (alphabet ic (Lit l))); [|exact Hall].
      intros x Hx. simpl in Hx. rewrite Hx. apply orb_true_r.
Qed.

Lemma rep_sound (cs : list item) : forall s lo hi pos g (k : cont) (a : A),
  rep ic cs lo hi pos s g k = Some a ->
  exists w s', s = w ++ s' /\ k (pos + String.length w) s' g = Some a
               /\ all_chars (accepts ic cs) w = true.
Proof.
  assert (Hstop : forall lo pos s g (k : cont) (a : A),
             match lo with O => k pos s g | S _ => None end = Some a ->
             exists w s', s = w ++ s' /\ k (pos + String.length w) s' g = Some a
                          /\ all_chars (accepts ic cs) w = true).
  { intros lo pos s g k a H. destruct lo; [|discriminate].
    exists EmptyString, s. simpl. rewrite Nat.add_0_r. repeat split. exact H. }
  induction s as [|c s IH]; intros lo hi pos g k a H.
  - destruct hi as [[|h]|]; simpl in H; apply Hstop in H; exact H.
  - assert (Hgo : (if accepts ic cs c
                   then match rep ic cs (pred lo) (option_map pred hi) (S pos) s g k with
                        | Some x => Some x
                        | None => match lo with O => k pos (String c s) g | S _ => None end
                        end
                   else match lo with O => k pos (String c s) g | S _ => None end)
                  = Some a ->
                  exists w s', String c s = w ++ s'
                               /\ k (pos + String.length w) s' g = Some a
                               /\ all_chars (accepts ic cs) w = true).
    { intros H'. destruct (accepts ic cs c) eqn:E; [|now apply Hstop in H'].
      destruct (rep ic cs (pred lo) (option_map pred hi) (S pos) s g k) as [x|] eqn:R;
        [|now apply Hstop in H'].
      inversion H'; subst x.
      destruct (IH _ _ _ _ _ _ R) as [w [s' [Hs [Hk Hall]]]].
      exists (String c w), s'. simpl. repeat split.
      - now rewrite Hs.
      - rewrite Nat.add_succ_r. exact Hk.
      - now rewrite E, Hall. }
    destruct hi as [[|h]|]; simpl in H.
    + now apply Hstop in H.
    + now apply Hgo.
    + now apply Hgo.
Qed.

Lemma run_sound (r : regex) : forall pos s g (k : cont) (a : A),
  run ic r pos s g k = Some a ->
  exists w s' g', s = w ++ s' /\ k (pos + String.length w) s' g' = Some a
                  /\ all_chars (alphabet ic r) w = true
                  /\ grp_post ic r g g'.
Proof.
  induction r as [l | cs | cs lo hi | r1 IH1 r2 IH2 | r1 IH1 r2 IH2 | r1 IH1 |];
    intros pos s g k a H; simpl in H.
  - destruct (lit ic l s) as [s'|] eqn:E; [|discriminate].
    destruct (lit_sound _ _ _ E) as [w [Hs [Hl Hall]]].
    exists w, s', g. rewrite Hl. repeat split; try assumption.
    left. split; reflexivity.
  - destruct s as [|c s]; [discriminate|].
    destruct (accepts ic cs c) eqn:E; [|discriminate].
    exists (String c EmptyString), s, g. simpl. rewrite Nat.add_1_r, E.
    repeat split; try assumption. left. split; reflexivity.
  - destruct (rep_sound _ _ _ _ _ _ _ _ H) as [w [s' [Hs [Hk Hall]]]].
    exists w, s', g. repeat split; try assumption. left. split; reflexivity.
  - destruct (IH1 _ _ _ _ _ H) as [w1 [s1 [g1 [Hs1 [Hk1 [Ha1 Hg1]]]]]].
    destruct (IH2 _ _ _ _ _ Hk1) as [w2 [s2 [g2 [Hs2 [Hk2 [Ha2 Hg2]]]]]].
    exists (w1 ++ w2), s2, g2. repeat split.
    + now rewrite app_assoc, <- Hs2.
    + now rewrite length_app, Nat.add_assoc.
    + rewrite all_chars_app. apply andb_true_iff. split.
      * apply (all_chars_weaken (alphabet ic r1)); [|exact Ha1].
        intros c Hc. simpl. now rewrite Hc.
      * apply (all_chars_weaken (alphabet ic r2)); [|exact Ha2].
        intros c Hc. simpl. rewrite Hc. apply orb_true_r.
    + destruct Hg2 as [[Hn2 Heq2] | [t [Ht Hall]]].
      * subst g2. destruct Hg1 as [[Hn1 Heq1] | [t [Ht Hall]]].
        -- left. simpl. now rewrite Hn1, Hn2.
        -- right. exists t. split; [exact Ht|].
           apply (all_chars_weaken (group_alphabet ic r1)); [|exact Hall].
           intros c Hc. simpl. now rewrite Hc.
      * right. exists t. split; [exact Ht|].
        apply (all_chars_weaken (group_alphabet ic r2)); [|exact Hall].
        intros c Hc. simpl. rewrite Hc. apply orb_true_r.
  - destruct (run ic r1 pos s g k) as [x|] eqn:E.
    + inversion H; subst x.
      destruct (IH1 _ _ _ _ _ E) as [w [s' [g' [Hs [Hk [Ha Hg]]]]]].
      exists w, s', g'. repeat split; try assumption.
      * apply (all_chars_weaken (alphabet ic r1)); [|exact Ha].
        intros c Hc. simpl. now rewrite Hc.
      * apply (grp_post_weaken ic r1); [| |exact Hg].
        -- simpl. intros Hc. apply andb_true_iff in Hc. tauto.
        -- intros c Hc. simpl. now rewrite Hc.
    + destruct (IH2 _ _ _ _ _ H) as [w [s' [g' [Hs [Hk [Ha Hg]]]]]].
      exists w, s', g'. repeat split; try assumption.
      * apply (all_chars_weaken (alphabet ic r2)); [|exact Ha].
        intros c Hc. simpl. rewrite Hc. apply orb_true_r.
      * apply (grp_post_weaken ic r2); [| |exact Hg].
        -- simpl. intros Hc. apply andb_true_iff in Hc. tauto.
        -- intros c Hc. simpl. rewrite Hc. apply orb_true_r.
  - destruct (IH1 _ _ _ _ _ H) as [w [s' [g' [Hs [Hk [Ha Hg]]]]]].
    exists w, s', (Some w). repeat split; try assumption.
    + replace (pos + String.length w - pos) with (String.length w) in Hk by lia.
      rewrite Hs, substring_app in Hk. exact Hk.
    + right. exists w. split; [reflexivity | exact Ha].
  - destruct pos; [|discriminate].
    exists EmptyString, s, g. simpl. repeat split; try assumption.
    left. split; reflexivity.
Qed.

End Soundness.

Section Search.

Variable ic : bool.

Lemma match_at_group (r : regex) (pos : nat) (s : string) (m : rmatch) :
  match_at ic r pos s = Some m -> grp_post ic r None (group1 m).
Proof.
  unfold match_at. intros H.
  destruct (run_sound _ _ _ _ _ _ _ H) as [w [s' [g' [_ [Hk [_ Hg]]]]]].
  inversion Hk; subst m. exact Hg.
Qed.

Lemma search_from_group (r : regex) : forall s pos m,
  search_from ic r pos s = Some m -> grp_post ic r None (group1 m).
Proof.
  induction s as [|c s IH]; intros pos m H; simpl in H.
  - destruct (match_at ic r pos EmptyString) as [x|] eqn:E; [|discriminate].
    inversion H; subst x. exact (match_at_group _ _ _ _ E).
  - destruct (match_at ic r pos (String c s)) as [x|] eqn:E.
    + inversion H; subst x. exact (match_at_group _ _ _ _ E).
    + exact (IH _ _ H).
Qed.

(** A pattern that captures on every path gives [group(1)] a text. *)
Lemma search_captures (r : regex) (text : string) (m : rmatch) :
  captures r = true ->
  search ic r text = Some m ->
  exists t, group1 m = Some t /\ all_chars (group_alphabet ic r) t = true.
Proof.
  intros Hc H. destruct (search_from_group _ _ _ _ H) as [[Hn _] | Ht].
  - rewrite Hc in Hn. discriminate.
  - exact Ht.
Qed.

Lemma findall_from_group (r : regex) : forall fuel pos s t,
  In t (findall_from ic fuel r pos s) ->
  all_chars (group_alphabet ic r) t = true.
Proof.
  induction fuel as [|fuel IH]; intros pos s t H; simpl in H; [contradiction|].
  destruct (search_from ic r pos s) as [m|] eqn:E; [|contradiction].
  assert (Hg : all_chars (group_alphabet ic r)
                 (match group1 m with Some u => u | None => EmptyString end) = true).
  { destruct (search_from_group _ _ _ _ E) as [[_ Hn] | [u [Hu Hall]]].
    - now rewrite Hn.
    - now rewrite Hu. }
  destruct (Nat.eqb (m_end m) (m_start m)).
  - destruct (m_rest m) as [|c s'].
    + destruct H as [H | []]. now subst t.
    + destruct H as [H | H]; [now subst t | exact (IH _ _ _ H)].
  - destruct H as [H | H]; [now subst t | exact (IH _ _ _ H)].
Qed.

Lemma findall_group (r : regex) (text t : string) :
  In t (findall ic r text) -> all_chars (group_alphabet ic r) t = true.
Proof. apply findall_from_group. Qed.

End Search.

End ReFacts.

(** ** Decimals read from amounts, and their order *)

Module DecFacts.

Import Py Spec ReFacts.

Lemma amount_char_cases (c : ascii) :
  amount_char c = true ->
  In c ["0"; "1"; "2"; "3"; "4"; "5"; "6"; "7"; "8"; "9"; "."]%char.
Proof.
  destruct c as [[] [] [] [] [] [] [] []]; intros H; vm_compute in H;
    try discriminate; simpl; tauto.
Qed.

Lemma all_chars_lstrip (P : ascii -> bool) (s : string) :
  all_chars P s = true -> all_chars P (Str.lstrip s) = true.
Proof.
  induction s as [|c s IH]; simpl; [reflexivity|]. intros H.
  destruct (Chars.isspace c); [|exact H].
  apply andb_true_iff in H. apply IH, H.
Qed.

Lemma all_chars_rstrip (P : ascii -> bool) (s : string) :
  all_chars P s = true -> all_chars P (Str.rstrip s) = true.
Proof.
  induction s as [|c s IH]; simpl; [reflexivity|]. intros H.
  apply andb_true_iff in H. destruct H as [Hc Hs]. specialize (IH Hs).
  destruct (Str.rstrip s) as [|c' r].
  - destruct (Chars.isspace c); simpl; [reflexivity | now rewrite Hc].
  - simpl in *. now rewrite Hc.
Qed.

Lemma all_chars_remove (P : ascii -> bool) (x : ascii) (s : string) :
  all_chars P s = true -> all_chars P (Str.remove x s) = true.
Proof.
  induction s as [|c s IH]; simpl; [reflexivity|]. intros H.
  apply andb_true_iff in H. destruct H as [Hc Hs].
  destruct (Ascii.eqb c x); [exact (IH Hs)|]. simpl. now rewrite Hc, IH.
Qed.

Lemma remove_separators (s : string) :
  all_chars token_char s = true ->
  all_chars amount_char (Str.remove "," s) = true.
Proof.
  induction s as [|c s IH]; simpl; [reflexivity|]. intros H.
  apply andb_true_iff in H. destruct H as [Hc Hs].
  destruct (Ascii.eqb c ",") eqn:E; [exact (IH Hs)|].
  simpl. rewrite (IH Hs), andb_true_r.
  unfold token_char in Hc. unfold amount_char. rewrite E, orb_false_r in Hc. exact Hc.
Qed.

Lemma parse_finite_shape (neg : bool) (s : string) (d : Dec.t) :
  Dec.parse_finite neg s = Some d -> exists c e, d = Dec.Fin neg c e.
Proof.
  unfold Dec.parse_finite. destruct (Dec.span_digits s) as [ip r1].
  destruct (match r1 with
            | String "." r => Dec.span_digits r
            | _ => (EmptyString, r1)
            end) as [fp r2].
  destruct (Dec.nonempty (ip ++ fp)); [|discriminate].
  destruct (Dec.parse_exponent r2); [|discriminate].
  intros H. inversion H. eauto.
Qed.

(** [Decimal(s)] raises nothing but [InvalidOperation]. *)
Lemma of_string_raises (s : string) (e : exn) :
  Dec.of_string s = Raise e -> e = InvalidOperation.
Proof.
  unfold Dec.of_string.
  destruct (Dec.parse_sign (Str.remove "_" (Str.strip s))) as [neg body].
  destruct (Dec.parse_finite neg body); [discriminate|].
  destruct (Dec.parse_special neg body); [discriminate|].
  intros H. now inversion H.
Qed.

(** Digits and a point read as a finite decimal that is not negative, or
    as no number. *)
Lemma of_string_amount (s : string) (d : Dec.t) :
  all_chars amount_char s = true ->
  Dec.of_string s = Ret d ->
  exists c e, d = Dec.Fin false c e.
Proof.
  intros Hs. unfold Dec.of_string, Str.strip.
  pose proof (all_chars_remove _ "_"%char _
                (all_chars_rstrip _ _ (all_chars_lstrip _ _ Hs))) as Hb.
  destruct (Str.remove "_" (Str.rstrip (Str.lstrip s))) as [|c body].
  - simpl. discriminate.
  - simpl in Hb. apply andb_true_iff in Hb. destruct Hb as [Hc _].
    assert (Hsign : Dec.parse_sign (String c body) = (false, String c body)).
    { destruct (amount_char_cases c Hc) as
          [<-|[<-|[<-|[<-|[<-|[<-|[<-|[<-|[<-|[<-|[<-|[]]]]]]]]]]]]; reflexivity. }
    rewrite Hsign.
    destruct (Dec.parse_finite false (String c body)) as [d'|] eqn:E.
    + intros H. inversion H; subst d'. exact (parse_finite_shape _ _ _ E).
    + assert (Hsp : Dec.parse_special false (String c body) = None).
      { unfold Dec.parse_special.
        destruct (amount_char_cases c Hc) as
            [<-|[<-|[<-|[<-|[<-|[<-|[<-|[<-|[<-|[<-|[<-|[]]]]]]]]]]]]; reflexivity. }
      rewrite Hsp. discriminate.
Qed.

(** *** The order of finite decimals *)

Local Open Scope Z_scope.

Lemma compare_fin_scaled (E : Z) n1 c1 e1 n2 c2 e2 :
  E <= e1 -> E <= e2 ->
  Dec.compare_fin n1 c1 e1 n2 c2 e2
  = (scaled E (Dec.Fin n1 c1 e1) ?= scaled E (Dec.Fin n2 c2 e2)).
Proof.
  intros H1 H2. unfold Dec.compare_fin, scaled.
  set (e := Z.min e1 e2).
  assert (He : E <= e) by (unfold e; lia).
  assert (He1 : e <= e1) by (unfold e; lia).
  assert (He2 : e <= e2) by (unfold e; lia).
  replace (e1 - E) with ((e1 - e) + (e - E)) by lia.
  replace (e2 - E) with ((e2 - e) + (e - E)) by lia.
  rewrite !Z.pow_add_r by lia. rewrite !Z.mul_assoc.
  apply Zmult_compare_compat_r.
  apply Z.lt_gt, Z.pow_pos_nonneg; lia.
Qed.

Lemma lt_scaled (E : Z) (a b : Dec.t) :
  finite a -> finite b -> E <= exponent a -> E <= exponent b ->
  Dec.lt a b = Ret (scaled E a <? scaled E b).
Proof.
  destruct a as [n1 c1 e1| |]; destruct b as [n2 c2 e2| |]; simpl;
    try contradiction.
  intros _ _ H1 H2. unfold Dec.lt. simpl.
  rewrite (compare_fin_scaled E) by assumption. unfold scaled, Z.ltb.
  now destruct (_ ?= _).
Qed.

Lemma lt_irrefl (a : Dec.t) : finite a -> Dec.lt a a = Ret false.
Proof.
  intros H. rewrite (lt_scaled (exponent a)) by (assumption || lia).
  now rewrite Z.ltb_irrefl.
Qed.

Lemma lt_asym (a b : Dec.t) :
  finite a -> finite b -> Dec.lt a b = Ret true -> Dec.lt b a = Ret false.
Proof.
  intros Ha Hb. set (E := Z.min (exponent a) (exponent b)).
  rewrite !(lt_scaled E) by (assumption || (unfold E; lia)).
  intros H. inversion H as [H']. f_equal. lia.
Qed.

Lemma lt_neg_trans (a b c : Dec.t) :
  finite a -> finite b -> finite c ->
  Dec.lt a b = Ret false -> Dec.lt b c = Ret false -> Dec.lt a c = Ret false.
Proof.
  intros Ha Hb Hc.
  set (E := Z.min (exponent a) (Z.min (exponent b) (exponent c))).
  rewrite !(lt_scaled E) by (assumption || (unfold E; lia)).
  intros H1 H2. inversion H1 as [H1']. inversion H2 as [H2']. f_equal. lia.
Qed.

Lemma lt_returns (a b : Dec.t) :
  finite a -> finite b -> exists t, Dec.lt a b = Ret t.
Proof.
  intros Ha Hb. set (E := Z.min (exponent a) (exponent b)).
  rewrite (lt_scaled E) by (assumption || (unfold E; lia)). eauto.
Qed.

End DecFacts.

(** ** The extractors return *)

Module ExtractFacts.

Import Py Re Patterns Extract Spec ReFacts DecFacts.
Local Open Scope py_scope.

Lemma try_except_returns {A : Type} (body : res A) (handler : exn -> res A) :
  (forall e, returns (handler e)) -> returns (try_except body handler).
Proof.
  intros H. destruct body as [a|e]; simpl; [now exists a | apply H].
Qed.

Lemma patterns_capture :
  forallb captures invoice_patterns = true
  /\ forallb captures total_patterns = true
  /\ forallb captures date_patterns = true
  /\ forallb captures generic_patterns = true
  /\ captures currency_pattern = true.
Proof. repeat split. Qed.

(** Group 1 of an amount pattern holds digits, separators and points. *)
Lemma amount_group_chars (c : ascii) :
  existsb (fun p => group_alphabet true p c) total_patterns
  || group_alphabet false currency_pattern c = true ->
  token_char c = true.
Proof.
  destruct c as [[] [] [] [] [] [] [] []]; vm_compute; intros H;
    first [reflexivity | exact H].
Qed.

(** *** Invoice number *)

Lemma invoice_number_loop_returns (text : string) : forall patterns,
  forallb captures patterns = true ->
  returns (invoice_number_loop patterns text).
Proof.
  induction patterns as [|p ps IH]; simpl; intros H.
  - now exists None.
  - apply andb_true_iff in H. destruct H as [Hp Hps].
    destruct (search true p text) as [m|] eqn:E; [|exact (IH Hps)].
    destruct (search_captures _ _ _ _ Hp E) as [t [Ht _]].
    rewrite Ht. now eexists.
Qed.

(** *** Date *)

Section Date.

Variable has : bool.
Variable lib : DateLib.

Lemma labeled_dates_returns (text : string) : forall patterns,
  returns (labeled_dates lib patterns text).
Proof.
  induction patterns as [|p ps IH]; simpl.
  - now exists None.
  - destruct (search true p text) as [m|]; [|exact IH].
    destruct (try_except_returns (labeled_candidate lib (group1 m))
                (fun _ => Ret None)) as [found Hf].
    { intros e. now exists None. }
    rewrite Hf. simpl. destruct found as [r|]; [now eexists | exact IH].
Qed.

Lemma first_plausible_returns : forall matches,
  returns (first_plausible lib matches).
Proof.
  induction matches as [|s rest IH]; simpl.
  - now exists None.
  - destruct (try_except_returns (generic_candidate lib s)
                (fun _ => Ret None)) as [found Hf].
    { intros e. now exists None. }
    rewrite Hf. simpl. destruct found as [r|]; [now eexists | exact IH].
Qed.

Lemma generic_dates_returns (text : string) : forall patterns,
  returns (generic_dates lib patterns text).
Proof.
  induction patterns as [|p ps IH]; cbn [generic_dates].
  - now exists None.
  - destruct (first_plausible_returns (firstn 3 (findall false p text)))
      as [found Hf].
    rewrite Hf. cbn [bind]. destruct found as [r|]; [now eexists | exact IH].
Qed.

(** The date and its timestamp come together or not at all. *)
Lemma parse_date_paired (text : string) :
  exists date_str ts,
    parse_date has lib text = Ret (date_str, ts)
    /\ (date_str = None <-> ts = None).
Proof.
  unfold parse_date. destruct has; cbn [negb].
  - destruct (labeled_dates_returns text date_patterns) as [l Hl].
    rewrite Hl. cbn [bind]. destruct l as [[s ts]|].
    + exists (Some s), (Some ts). split; [reflexivity | split; discriminate].
    + destruct (generic_dates_returns text generic_patterns) as [g Hg].
      rewrite Hg. cbn [bind]. destruct g as [[s ts]|].
      * exists (Some s), (Some ts). split; [reflexivity | split; discriminate].
      * exists None, None. split; [reflexivity | tauto].
  - exists None, None. split; [reflexivity | tauto].
Qed.

Lemma parse_date_returns (text : string) : returns (parse_date has lib text).
Proof.
  destruct (parse_date_paired text) as [s [ts [H _]]]. eexists. exact H.
Qed.

End Date.

(** *** Amount *)

Lemma token_reads_as (g : string) (d : Dec.t) :
  all_chars token_char g = true ->
  Dec.of_string (Str.remove "," g) = Ret d ->
  reads_as g d.
Proof.
  intros Hg Hd. split; [exact Hd|].
  exact (of_string_amount _ _ (remove_separators _ Hg) Hd).
Qed.

Lemma labeled_totals_spec (text : string) : forall patterns,
  forallb captures patterns = true ->
  (forall p c, In p patterns -> group_alphabet true p c = true -> token_char c = true) ->
  exists found,
    labeled_totals patterns text = Ret found
    /\ (forall g d, found = Some (g, d) -> reads_as g d).
Proof.
  induction patterns as [|p ps IH]; simpl; intros Hc Ha.
  - exists None. split; [reflexivity | discriminate].
  - apply andb_true_iff in Hc. destruct Hc as [Hp Hps].
    assert (IH' := IH Hps (fun q c Hq => Ha q c (or_intror Hq))).
    destruct (search true p text) as [m|] eqn:E; [|exact IH'].
    destruct (search_captures _ _ _ _ Hp E) as [t [Ht Hall]].
    rewrite Ht.
    assert (Htok : all_chars token_char t = true).
    { apply (all_chars_weaken (group_alphabet true p)); [|exact Hall].
      intros c. apply Ha. now left. }
    destruct (Dec.of_string (Str.remove "," t)) as [d|e] eqn:D; simpl.
    + exists (Some (t, d)). split; [reflexivity|].
      intros g d' H. inversion H; subst. now apply token_reads_as.
    + rewrite (of_string_raises _ _ D). simpl. exact IH'.
Qed.

Lemma total_patterns_spec (text : string) :
  exists found,
    labeled_totals total_patterns text = Ret found
    /\ (forall g d, found = Some (g, d) -> reads_as g d).
Proof.
  apply labeled_totals_spec; [reflexivity|].
  intros p c Hp Hc. apply amount_group_chars.
  apply orb_true_iff. left. apply existsb_exists. now exists p.
Qed.

Lemma collect_amounts_spec : forall matches x,
  In x (collect_amounts matches) ->
  In (fst x) matches /\ Dec.of_string (Str.remove "," (fst x)) = Ret (snd x).
Proof.
  induction matches as [|m ms IH]; simpl; intros x H; [contradiction|].
  destruct (Dec.of_string (Str.remove "," m)) as [d|e] eqn:D.
  - destruct H as [H | H].
    + subst x. simpl. split; [now left | exact D].
    + destruct (IH _ H). split; [now right | assumption].
  - destruct (IH _ H). split; [now right | assumption].
Qed.

Lemma currency_amounts_read (text : string) (x : string * Dec.t) :
  In x (collect_amounts (findall false currency_pattern text)) ->
  reads_as (fst x) (snd x).
Proof.
  intros H. destruct (collect_amounts_spec _ _ H) as [Hin Hd].
  apply token_reads_as; [|exact Hd].
  apply (all_chars_weaken (group_alphabet false currency_pattern)).
  - intros c Hc. apply amount_group_chars. rewrite Hc. apply orb_true_r.
  - exact (findall_group _ _ _ _ Hin).
Qed.

Lemma reads_as_finite (g : string) (d : Dec.t) : reads_as g d -> finite d.
Proof. intros [_ [c [e ->]]]. exact I. Qed.

(** *** The stable descending sort *)

Lemma insert_desc_spec (x : string * Dec.t) : forall l,
  finite (snd x) -> all_finite l ->
  exists l',
    insert_desc x l = Ret l'
    /\ all_finite l'
    /\ match l with
       | [] => l' = [x]
       | h :: _ => exists b t, Dec.lt (snd x) (snd h) = Ret b
                               /\ l' = (if b then h else x) :: t
       end.
Proof.
  induction l as [|h rest IH]; intros Hx Hl; simpl.
  - exists [x]. repeat split. now constructor.
  - inversion Hl as [|? ? Hh Hrest]; subst.
    destruct (lt_returns _ _ Hx Hh) as [b Hb]. rewrite Hb. simpl.
    destruct b.
    + destruct (IH Hx Hrest) as [l' [Hins [Hfin _]]]. rewrite Hins. simpl.
      exists (h :: l'). repeat split; [now constructor|].
      now exists true, l'.
    + exists (x :: h :: rest). repeat split; [now constructor|].
      now exists false, (h :: rest).
Qed.

Lemma sort_desc_spec : forall l,
  all_finite l ->
  exists l',
    sort_desc l = Ret l'
    /\ all_finite l'
    /\ match l with
       | [] => l' = []
       | _ :: _ => exists h t, l' = h :: t /\ earliest_max l h
       end.
Proof.
  induction l as [|x rest IH]; intros Hl; simpl.
  - exists []. repeat split. constructor.
  - inversion Hl as [|? ? Hx Hrest]; subst.
    destruct (IH Hrest) as [sorted [Hs [Hfin Hhead]]]. rewrite Hs. simpl.
    destruct (insert_desc_spec x sorted Hx Hfin) as [l' [Hins [Hfin' Hshape]]].
    exists l'. split; [exact Hins|]. split; [exact Hfin'|].
    destruct rest as [|y rest'].
    + subst sorted. subst l'. exists x, []. split; [reflexivity|].
      exists 0%nat. repeat split.
      * intros z [<- | []]. now apply lt_irrefl.
      * intros j z Hj. inversion Hj.
    + destruct Hhead as [h [t [-> [i [Hi [Hmax Hfirst]]]]]].
      destruct Hshape as [b [t' [Hb ->]]].
      assert (Hh : finite (snd h)) by now inversion Hfin.
      destruct b.
      * exists h, t'. split; [reflexivity|]. exists (S i). repeat split.
        -- exact Hi.
        -- intros z [<- | Hz]; [now apply lt_asym | now apply Hmax].
        -- intros [|j] z Hj Hz; simpl in Hz.
           ++ now inversion Hz; subst.
           ++ apply (Hfirst j); [lia | exact Hz].
      * exists x, t'. split; [reflexivity|]. exists 0%nat. repeat split.
        -- intros z [<- | Hz]; [now apply lt_irrefl|].
           apply (lt_neg_trans _ (snd h)); try assumption.
           ++ rewrite Forall_forall in Hrest. exact (Hrest z Hz).
           ++ now apply Hmax.
        -- intros j z Hj. inversion Hj.
Qed.

(** *** The amount extractor *)

Lemma largest_amount_spec (text : string) :
  let candidates := collect_amounts (findall false currency_pattern text) in
  match candidates with
  | [] => largest_amount text = Ret (None, None)
  | _ :: _ =>
      exists x, largest_amount text = Ret (Some (fst x), Some (snd x))
                /\ earliest_max candidates x
  end.
Proof.
  intros candidates. unfold largest_amount.
  assert (Hfin : all_finite candidates).
  { apply Forall_forall. intros x Hx.
    exact (reads_as_finite _ _ (currency_amounts_read text x Hx)). }
  subst candidates.
  destruct (findall false currency_pattern text) as [|m ms]; [reflexivity|].
  destruct (collect_amounts (m :: ms)) as [|a amounts]; [reflexivity|].
  destruct (sort_desc_spec _ Hfin) as [sorted [Hs [_ [h [t [-> Hmax]]]]]].
  rewrite Hs. cbn [bind]. destruct h as [amount_str d].
  now exists (amount_str, d).
Qed.

(** The amount extractor returns, and what it returns was read from the
    text it gives back. *)
Lemma parse_amount_spec (text : string) :
  exists amount_str amount,
    parse_amount text = Ret (amount_str, amount)
    /\ match amount_str, amount with
       | Some g, Some d => reads_as g d
       | None, None => True
       | _, _ => False
       end.
Proof.
  unfold parse_amount.
  destruct (total_patterns_spec text) as [found [Hl Hread]].
  rewrite Hl. cbn [bind]. destruct found as [[g d]|].
  - exists (Some g), (Some d). split; [reflexivity | now apply Hread].
  - pose proof (largest_amount_spec text) as H. cbv zeta in H.
    destruct (collect_amounts (findall false currency_pattern text))
      as [|a amounts] eqn:E.
    + exists None, None. split; [exact H | exact I].
    + destruct H as [x [Hx [i [Hi _]]]].
      exists (Some (fst x)), (Some (snd x)). split; [exact Hx|].
      apply (currency_amounts_read text). rewrite E.
      exact (nth_error_In _ _ Hi).
Qed.

Lemma parse_amount_returns (text : string) : returns (parse_amount text).
Proof.
  destruct (parse_amount_spec text) as [s [a [H _]]]. eexists. exact H.
Qed.

End ExtractFacts.

(** ** The coordinator returns *)

Module AcquireFacts.

Import Py Acquire Extract Spec ExtractFacts DecFacts.
Local Open Scope py_scope.

(** The fields of the result, for a document that exists and has text. *)
Lemma extract_invoice_data_fields (caps : Capabilities) (pdf_path text method : string)
      (log : list event) :
  path_exists caps pdf_path = Ret true ->
  extract_text caps pdf_path = ((text, method), log) ->
  Dec.nonempty text = true ->
  exists r amount,
    extract_invoice_data caps pdf_path = Ret (r, log)
    /\ parse_invoice_number text = Ret (invoice_number r)
    /\ parse_date (HAS_DATEUTIL caps) (dateutil caps) text
       = Ret (date_string r, date_timestamp r)
    /\ parse_amount text = Ret (amount_string r, amount)
    /\ float_if_truthy amount = Ret (amount_decimal r).
Proof.
  intros Hex Htext Hne. unfold extract_invoice_data.
  rewrite Hex, Htext. cbn [bind negb]. rewrite Hne. cbn [negb].
  destruct (invoice_number_loop_returns text Patterns.invoice_patterns eq_refl)
    as [number Hn].
  unfold parse_invoice_number. rewrite Hn. cbn [bind].
  destruct (parse_date_paired (HAS_DATEUTIL caps) (dateutil caps) text)
    as [date_str [ts [Hd _]]].
  rewrite Hd. cbn [bind].
  destruct (parse_amount_spec text) as [amount_str [amount [Ha Hread]]].
  rewrite Ha. cbn [bind snd fst].
  assert (Hf : returns (float_if_truthy amount)).
  { destruct amount as [d|]; [|now exists None].
    destruct amount_str as [g|]; [|contradiction].
    destruct Hread as [_ [c [e ->]]]. simpl.
    destruct (c =? 0)%N; simpl.
    - now eexists.
    - destruct (F64.scale10 (Z.of_N c) 1 e). now eexists. }
  destruct Hf as [x Hx]. rewrite Hx. cbn [bind].
  eexists. exists amount. repeat split; simpl; try reflexivity; assumption.
Qed.

(** The coordinator has no handler for the test of the path: what that
    test raises, the coordinator raises. *)
Lemma extract_invoice_data_raises (caps : Capabilities) (pdf_path : string) (x : exn) :
  path_exists caps pdf_path = Raise x ->
  extract_invoice_data caps pdf_path = Raise x.
Proof. intros H. unfold extract_invoice_data. now rewrite H. Qed.

(** The two results with an error. *)
Lemma extract_invoice_data_missing (caps : Capabilities) (pdf_path : string) :
  path_exists caps pdf_path = Ret false ->
  extract_invoice_data caps pdf_path
  = Ret ({| file := pdf_path; extraction_method := None;
            invoice_number := None; date_string := None;
            date_timestamp := None; amount_string := None;
            amount_decimal := None; vendor := None;
            raw_text_preview := None;
            errors := ["File not found: " ++ pdf_path] |}, []).
Proof. intros H. unfold extract_invoice_data. now rewrite H. Qed.

Lemma extract_invoice_data_no_text (caps : Capabilities) (pdf_path text method : string)
      (log : list event) :
  path_exists caps pdf_path = Ret true ->
  extract_text caps pdf_path = ((text, method), log) ->
  Dec.nonempty text = false ->
  extract_invoice_data caps pdf_path
  = Ret ({| file := pdf_path; extraction_method := Some method;
            invoice_number := None; date_string := None;
            date_timestamp := None; amount_string := None;
            amount_decimal := None; vendor := None;
            raw_text_preview := None;
            errors := ["Could not extract text from PDF"] |}, log).
Proof.
  intros Hex Ht Hne. unfold extract_invoice_data.
  rewrite Hex, Ht. cbn [bind negb]. now rewrite Hne.
Qed.

(** The coordinator returns a result whenever the test of the path
    answers. *)
Lemma extract_invoice_data_returns (caps : Capabilities) (pdf_path : string)
      (found : bool) :
  path_exists caps pdf_path = Ret found ->
  returns (extract_invoice_data caps pdf_path).
Proof.
  intros Hex. destruct found.
  - destruct (extract_text caps pdf_path) as [[text method] log] eqn:Ht.
    destruct (Dec.nonempty text) eqn:Hne.
    + destruct (extract_invoice_data_fields _ _ _ _ _ Hex Ht Hne)
        as [r [amount [H _]]].
      eexists. exact H.
    + rewrite (extract_invoice_data_no_text _ _ _ _ _ Hex Ht Hne). now eexists.
  - rewrite (extract_invoice_data_missing _ _ Hex). now eexists.
Qed.

(** A result comes from a path whose test answered. *)
Lemma extract_invoice_data_answered (caps : Capabilities) (pdf_path : string)
      (r : result) (log : list event) :
  extract_invoice_data caps pdf_path = Ret (r, log) ->
  exists found, path_exists caps pdf_path = Ret found.
Proof.
  intros H. destruct (path_exists caps pdf_path) as [found|x] eqn:Hex.
  - now exists found.
  - rewrite (extract_invoice_data_raises _ _ _ Hex) in H. discriminate.
Qed.

End AcquireFacts.

(** ** Amount extraction *)

Section AmountExtraction.

Import Py Re Patterns Extract Spec ExtractFacts.

(** A labeled total is returned whatever bare currency amounts the text
    holds. *)
Lemma labeled_total_has_priority (text g : string) (d : Dec.t) :
  labeled_totals total_patterns text = Ret (Some (g, d)) ->
  parse_amount text = Ret (Some g, Some d).
Proof. intros H. unfold parse_amount. rewrite H. reflexivity. Qed.

(** The labeled total is the token after the leftmost match of the first
    labeled pattern, when that token reads as a decimal. *)
Lemma first_labeled_match_wins (text g : string) (m : rmatch) (d : Dec.t) (ps : list regex)
      (p : regex) :
  search true p text = Some m ->
  group1 m = Some g ->
  Dec.of_string (Str.remove "," g) = Ret d ->
  labeled_totals (p :: ps) text = Ret (Some (g, d)).
Proof.
  intros Hm Hg Hd. cbn [labeled_totals]. rewrite Hm, Hg, Hd. reflexivity.
Qed.

(** C1.  On the text "Subtotal: $80.00 ... Total: $100.00" the amount
    extractor returns 80.00 and not the labeled total 100.00: the label
    [Total] of the first pattern, matched without regard to case and
    anywhere in the text, is found inside "Subtotal". *)
Theorem subtotal_taken_for_total :
  parse_amount "Subtotal: $80.00 ... Total: $100.00"
  = Ret (Some "80.00", Some (Dec.Fin false 8000 (-2))).
Proof. vm_compute. reflexivity. Qed.

(** C10.  When no labeled total is found and some [$] amount is read, the
    amount extractor returns an entry of the candidates, in the order of
    the text, such that no candidate has a greater value and every
    candidate before it has a smaller one: among the candidates tied at
    the maximum it is the earliest. *)
Theorem largest_amount_earliest_among_ties (text : string) :
  labeled_totals total_patterns text = Ret None ->
  collect_amounts (findall false currency_pattern text) <> [] ->
  exists x,
    parse_amount text = Ret (Some (fst x), Some (snd x))
    /\ earliest_max (collect_amounts (findall false currency_pattern text)) x.
Proof.
  intros Hlabeled Hsome. unfold parse_amount. rewrite Hlabeled. cbn [bind].
  pose proof (largest_amount_spec text) as H. cbv zeta in H.
  destruct (collect_amounts (findall false currency_pattern text)) as [|a l];
    [contradiction | exact H].
Qed.

Lemma largest_amount_earliest_among_ties_witness :
  exists x,
    parse_amount "$999.99 then $1,000.00 and $1000.00"
    = Ret (Some (fst x), Some (snd x))
    /\ fst x = "1,000.00"
    /\ earliest_max
         [("999.99", Dec.Fin false 99999 (-2));
          ("1,000.00", Dec.Fin false 100000 (-2));
          ("1000.00", Dec.Fin false 100000 (-2))] x.
Proof.
  destruct (largest_amount_earliest_among_ties
              "$999.99 then $1,000.00 and $1000.00") as [x [Hx Hmax]].
  - vm_compute. reflexivity.
  - vm_compute. discriminate.
  - exists x. split; [exact Hx|]. split; [|exact Hmax].
    vm_compute in Hx. inversion Hx as [[H1 H2]]. symmetry. exact H1.
Defined.

End AmountExtraction.

(** ** Invoice-number extraction *)

Section InvoiceNumber.

Import Py Extract.

(** The first pattern that matches anywhere decides: the patterns after it
    are not consulted. *)
Lemma earlier_tier_wins (text g : string) (m : Re.rmatch) (p : Re.regex)
      (ps : list Re.regex) :
  Re.search true p text = Some m ->
  Re.group1 m = Some g ->
  invoice_number_loop (p :: ps) text = Ret (Some (Str.strip g)).
Proof.
  intros Hm Hg. cbn [invoice_number_loop]. rewrite Hm, Hg. reflexivity.
Qed.

Lemma later_tier_needs_failure (text : string) (p : Re.regex) (ps : list Re.regex) :
  Re.search true p text = None ->
  invoice_number_loop (p :: ps) text = invoice_number_loop ps text.
Proof.
  intros Hm. cbn [invoice_number_loop]. rewrite Hm. reflexivity.
Qed.

(** C6.  On a text with both "Invoice #INV-1234" and "#XYZZY99" the
    invoice-number extractor returns "oice": in the first pattern the
    alternative [Inv] is tried before [Invoice\s*#], and the token after it,
    matched without regard to case, is the rest of the word "Invoice".  The
    first pattern matched, so no later pattern was consulted; but the number
    INV-1234 is not what it captured. *)
Theorem invoice_label_read_as_number :
  parse_invoice_number "Invoice #INV-1234 and #XYZZY99" = Ret (Some "oice").
Proof. vm_compute. reflexivity. Qed.

End InvoiceNumber.

(** ** The result of the coordinator *)

Section Coordinator.

Import Py Acquire Extract Spec ExtractFacts AcquireFacts Sample.

(** Where the pairs of the result hold: the date text and the timestamp
    come together; an amount value comes with its text; an amount text
    without a value is a text that reads as zero. *)
Lemma result_pairs (caps : Capabilities) (pdf_path : string) (r : result)
      (log : list event) :
  extract_invoice_data caps pdf_path = Ret (r, log) ->
  (date_string r = None <-> date_timestamp r = None)
  /\ (amount_decimal r <> None -> amount_string r <> None)
  /\ (forall g, amount_string r = Some g -> amount_decimal r = None ->
                exists d, reads_as g d /\ Dec.truthy d = false).
Proof.
  intros Hret.
  destruct (extract_invoice_data_answered _ _ _ _ Hret) as [[|] Hex].
  - destruct (extract_text caps pdf_path) as [[text method] log'] eqn:Ht.
    destruct (Dec.nonempty text) eqn:Hne.
    + destruct (extract_invoice_data_fields _ _ _ _ _ Hex Ht Hne)
        as [r' [amount [Hr [_ [Hd [Ha Hf]]]]]].
      rewrite Hret in Hr. inversion Hr; subst r' log'. clear Hr.
      destruct (parse_date_paired (HAS_DATEUTIL caps) (dateutil caps) text)
        as [s [ts [Hd' Hpair]]].
      rewrite Hd in Hd'. inversion Hd' as [[Hs Hts]].
      split; [rewrite Hs, Hts; exact Hpair|].
      destruct (parse_amount_spec text) as [g [amount' [Ha' Hread]]].
      rewrite Ha in Ha'. inversion Ha' as [[Hg Hamount]]. subst amount'.
      rewrite <- Hg in Hread.
      destruct (amount_string r) as [g'|]; destruct amount as [d|];
        try contradiction.
      * split; [discriminate|]. intros g0 Hg0 Hnone. inversion Hg0; subst g0.
        exists d. split; [exact Hread|].
        rewrite Hnone in Hf. simpl in Hf. destruct (Dec.truthy d); [|reflexivity].
        destruct (F64.of_dec d); discriminate.
      * simpl in Hf. inversion Hf as [Hnone].
        split; [intros H; congruence | discriminate].
    + rewrite (extract_invoice_data_no_text _ _ _ _ _ Hex Ht Hne) in Hret.
      inversion Hret. simpl. repeat split; try tauto; discriminate.
  - rewrite (extract_invoice_data_missing _ _ Hex) in Hret.
    inversion Hret. simpl. repeat split; try tauto; discriminate.
Qed.

(** C2.  For a document whose total is zero the result holds the amount
    text without the amount value: [float(amount) if amount else None]
    takes the decimal zero for an absent amount.  (The other pairs hold, see
    [result_pairs].) *)
Theorem zero_amount_loses_its_value (has_dateutil : bool) (lib : DateLib) :
  exists r log,
    extract_invoice_data (one_page has_dateutil lib zero_invoice) "invoice.pdf"
    = Ret (r, log)
    /\ amount_string r = Some "0.00"
    /\ amount_decimal r = None.
Proof.
  destruct (extract_invoice_data_fields
              (one_page has_dateutil lib zero_invoice) "invoice.pdf"
              zero_invoice "pdfplumber" [Structured_invoked])
    as [r [amount [Hr [_ [_ [Ha Hf]]]]]]; try reflexivity.
  exists r, [Structured_invoked]. split; [exact Hr|].
  assert (Hp : parse_amount zero_invoice
               = Ret (Some "0.00", Some (Dec.Fin false 0 (-2))))
    by (vm_compute; reflexivity).
  rewrite Hp in Ha. inversion Ha as [[Hs Hamount]]. subst amount.
  simpl in Hf. inversion Hf. split; reflexivity.
Qed.

(** C3, as the code has it: whenever the coordinator returns a result that
    stores an amount value, that value is [float] of the decimal read from
    the stored amount text without its separators, that is the binary64
    number nearest to it; the decimal is exact as the amount extractor
    returns it, not as the result stores it. *)
Theorem amount_value_is_float_of_decimal (caps : Capabilities) (pdf_path : string)
        (r : result) (log : list event) (x : F64.t) :
  extract_invoice_data caps pdf_path = Ret (r, log) ->
  amount_decimal r = Some x ->
  exists g d, amount_string r = Some g
              /\ reads_as g d
              /\ F64.of_dec d = Ret x.
Proof.
  intros Hret Hx.
  destruct (extract_invoice_data_answered _ _ _ _ Hret) as [[|] Hex].
  - destruct (extract_text caps pdf_path) as [[text method] log'] eqn:Ht.
    destruct (Dec.nonempty text) eqn:Hne.
    + destruct (extract_invoice_data_fields _ _ _ _ _ Hex Ht Hne)
        as [r' [amount [Hr [_ [_ [Ha Hf]]]]]].
      rewrite Hret in Hr. inversion Hr; subst r' log'. clear Hr.
      destruct (parse_amount_spec text) as [g [amount' [Ha' Hread]]].
      rewrite Ha in Ha'. inversion Ha' as [[Hg Hamount]]. subst amount'.
      rewrite Hx in Hf. destruct amount as [d|]; [|discriminate].
      rewrite <- Hg in Hread. destruct (amount_string r) as [g'|]; [|contradiction].
      exists g', d. split; [reflexivity|]. split; [exact Hread|].
      simpl in Hf. destruct (Dec.truthy d); [|discriminate].
      destruct (F64.of_dec d) as [y|]; [|discriminate].
      simpl in Hf. now inversion Hf.
    + rewrite (extract_invoice_data_no_text _ _ _ _ _ Hex Ht Hne) in Hret.
      inversion Hret as [[Hr Hl]]. rewrite <- Hr in Hx. discriminate.
  - rewrite (extract_invoice_data_missing _ _ Hex) in Hret.
    inversion Hret as [[Hr Hl]]. rewrite <- Hr in Hx. discriminate.
Qed.

Lemma amount_value_is_float_of_decimal_witness :
  exists r log g d,
    extract_invoice_data (one_page false no_dates dime_invoice) "invoice.pdf"
    = Ret (r, log)
    /\ amount_decimal r = Some (F64.Fin false 7205759403792794 (-56))
    /\ amount_string r = Some g
    /\ reads_as g d
    /\ F64.of_dec d = Ret (F64.Fin false 7205759403792794 (-56)).
Proof.
  destruct (extract_invoice_data_returns
              (one_page false no_dates dime_invoice) "invoice.pdf" true eq_refl)
    as [[r log] Hr].
  assert (Hx : amount_decimal r = Some (F64.Fin false 7205759403792794 (-56))).
  { vm_compute in Hr. inversion Hr. reflexivity. }
  destruct (amount_value_is_float_of_decimal _ _ r log _ Hr Hx)
    as [g [d [Hg [Hd Hf]]]].
  exists r, log, g, d. repeat split; try assumption; apply Hd.
Defined.

(** C3, as stated, fails: for the total 0.10 the stored value is the float
    7205759403792794 * 2^-56, which is not the decimal 0.10. *)
Lemma stored_amount_is_rounded :
  exists r log x d,
    extract_invoice_data (one_page false no_dates dime_invoice) "invoice.pdf"
    = Ret (r, log)
    /\ amount_string r = Some "0.10"
    /\ Dec.of_string "0.10" = Ret d
    /\ amount_decimal r = Some x
    /\ ~ exactly_decimal x d.
Proof.
  eexists. eexists. eexists. eexists.
  split; [vm_compute; reflexivity|].
  split; [reflexivity|].
  split; [vm_compute; reflexivity|].
  split; [reflexivity|].
  vm_compute. discriminate.
Qed.

End Coordinator.

(** ** Text acquisition *)

Section TextAcquisition.

Import Py Acquire Spec ReFacts Sample.

Lemma lstrip_head (s r : string) (c : ascii) :
  Str.lstrip s = String c r -> Chars.isspace c = false.
Proof.
  induction s as [|a s IH]; simpl; [discriminate|].
  destruct (Chars.isspace a) eqn:E; [exact IH|].
  intros H. inversion H; subst. exact E.
Qed.

Lemma lstrip_empty (s : string) :
  Str.lstrip s = EmptyString <-> all_chars Chars.isspace s = true.
Proof.
  induction s as [|a s IH]; simpl; [tauto|].
  destruct (Chars.isspace a); simpl; [exact IH|]. split; discriminate.
Qed.

(** A text strips to nothing exactly when it is all white space. *)
Lemma strip_empty (s : string) :
  Str.strip s = EmptyString <-> all_chars Chars.isspace s = true.
Proof.
  unfold Str.strip. rewrite <- lstrip_empty.
  destruct (Str.lstrip s) as [|c r] eqn:E; simpl; [tauto|].
  rewrite (lstrip_head _ _ _ E).
  split; [|discriminate]. destruct (Str.rstrip r); discriminate.
Qed.

(** C5.  The method of text acquisition follows the two tiers: a
    structured text of trimmed length 50 or more is returned with the method
    "pdfplumber", and image recognition is not invoked; otherwise a recognised
    text that is not all white space is returned with the method "ocr";
    otherwise the result is the empty text with the method "none". *)
Theorem text_acquisition_cascade (caps : Capabilities) (pdf_path : string) :
  let structured := fst (extract_text_pdfplumber caps pdf_path) in
  let recognised := fst (extract_text_ocr caps pdf_path) in
  let trimmed := String.length (Str.strip structured) in
  (50 <= trimmed ->
   fst (extract_text caps pdf_path) = (structured, "pdfplumber")
   /\ ~ In Recognition_invoked (snd (extract_text caps pdf_path)))
  /\ (trimmed < 50 -> all_chars Chars.isspace recognised = false ->
      fst (extract_text caps pdf_path) = (recognised, "ocr"))
  /\ (trimmed < 50 -> all_chars Chars.isspace recognised = true ->
      fst (extract_text caps pdf_path) = ("", "none")).
Proof.
  intros structured recognised trimmed. subst structured recognised trimmed.
  unfold extract_text.
  destruct (extract_text_pdfplumber caps pdf_path) as [text log1] eqn:E1.
  destruct (extract_text_ocr caps pdf_path) as [text2 log2] eqn:E2.
  cbn [fst snd].
  assert (Hlog : ~ In Recognition_invoked log1).
  { unfold extract_text_pdfplumber in E1.
    destruct (HAS_PDFPLUMBER caps); cbn [negb] in E1.
    - destruct (pdfplumber_pages caps pdf_path); inversion E1; subst;
        simpl; intros [H | H]; try discriminate; try contradiction.
      destruct H as [H | []]. discriminate.
    - inversion E1; subst. simpl. tauto. }
  destruct (50 <=? String.length (Str.strip text))%nat eqn:L.
  - apply Nat.leb_le in L. repeat split; try (intros; lia). exact Hlog.
  - apply Nat.leb_gt in L.
    assert (Hne : Dec.nonempty (Str.strip text2)
                  = negb (all_chars Chars.isspace text2)).
    { destruct (all_chars Chars.isspace text2) eqn:A.
      - apply strip_empty in A. now rewrite A.
      - destruct (Str.strip text2) eqn:S; [|reflexivity].
        apply strip_empty in S. congruence. }
    rewrite Hne. repeat split; try (intros; lia).
    + intros _ A. now rewrite A.
    + intros _ A. now rewrite A.
Qed.

Lemma text_acquisition_cascade_witness :
  (fst (extract_text (one_page false no_dates zero_invoice) "invoice.pdf")
   = (zero_invoice, "pdfplumber")
   /\ ~ In Recognition_invoked
        (snd (extract_text (one_page false no_dates zero_invoice) "invoice.pdf")))
  /\ fst (extract_text (scanned "Total: $5.00") "scan.pdf") = ("Total: $5.00", "ocr")
  /\ fst (extract_text (scanned "   ") "scan.pdf") = ("", "none").
Proof.
  split; [|split].
  - apply (text_acquisition_cascade (one_page false no_dates zero_invoice) "invoice.pdf").
    vm_compute. repeat constructor.
  - apply (text_acquisition_cascade (scanned "Total: $5.00") "scan.pdf").
    + vm_compute. repeat constructor.
    + reflexivity.
  - apply (text_acquisition_cascade (scanned "   ") "scan.pdf").
    + vm_compute. repeat constructor.
    + reflexivity.
Defined.

End TextAcquisition.

(** ** The division of two integers and the test against one *)

Section FloatDivision.

Import Py.
Local Open Scope py_scope.
Local Open Scope Z_scope.

Lemma ilog2_le (n d : Z) : (0 < d -> F64.ilog2 n d <= Z.log2 n)%Z.
Proof.
  intros Hd. unfold F64.ilog2. pose proof (Z.log2_nonneg d).
  destruct (F64.scale2 n d (Z.log2 n - Z.log2 d)) as [n' d'].
  destruct (d' <=? n')%Z; lia.
Qed.

(** A ratio below [2^1000] rounds to a finite float. *)
Lemma round_ratio_finite (neg : bool) (n d : Z) :
  (0 <= n < 2 ^ 1000 -> 0 < d ->
   exists m e, F64.round_ratio neg n d = F64.Fin neg m e)%Z.
Proof.
  intros [Hn Hlt] Hd. unfold F64.round_ratio.
  destruct (n =? 0)%Z eqn:E; [now eexists; eexists|].
  apply Z.eqb_neq in E.
  assert (Hlog : (Z.log2 n < 1000)%Z) by (apply Z.log2_lt_pow2; lia).
  pose proof (ilog2_le n d Hd) as Hi.
  set (e := Z.max (F64.ilog2 n d - 52) (-1074)).
  assert (He : (e <= 947)%Z) by (unfold e; lia).
  destruct (F64.scale2 n d e) as [n' d'].
  destruct (F64.round_half_even n' d' =? 2 ^ 53)%Z.
  - replace (971 <? e + 1)%Z with false by (symmetry; apply Z.ltb_ge; lia).
    now eexists; eexists.
  - replace (971 <? e)%Z with false by (symmetry; apply Z.ltb_ge; lia).
    now eexists; eexists.
Qed.

Lemma ilog2_small (n d : Z) : 0 < n <= d -> F64.ilog2 n d <= 0.
Proof.
  intros H. unfold F64.ilog2.
  assert (Z.log2 n <= Z.log2 d) by (apply Z.log2_le_mono; lia).
  destruct (F64.scale2 n d (Z.log2 n - Z.log2 d)) as [n' d'].
  destruct (d' <=? n'); lia.
Qed.

Lemma ilog2_large (n d : Z) :
  0 < d <= n -> 0 <= F64.ilog2 n d /\ 2 ^ F64.ilog2 n d * d <= n.
Proof.
  intros H. unfold F64.ilog2.
  assert (Hl : Z.log2 d <= Z.log2 n) by (apply Z.log2_le_mono; lia).
  destruct (Z.log2_spec n) as [Hn1 Hn2]; [lia|].
  destruct (Z.log2_spec d) as [Hd1 Hd2]; [lia|].
  pose proof (Z.log2_nonneg d) as Hd0.
  set (l := Z.log2 n - Z.log2 d) in *.
  unfold F64.scale2.
  replace (0 <=? l) with true by (symmetry; apply Z.leb_le; lia).
  destruct (d * 2 ^ l <=? n) eqn:E.
  - apply Z.leb_le in E. split; [lia | lia].
  - apply Z.leb_gt in E.
    assert (l <> 0) by (intros H0; rewrite H0 in E; simpl in E; lia).
    split; [lia|].
    assert (P : 2 ^ (l - 1) * 2 ^ Z.succ (Z.log2 d) = 2 ^ Z.log2 n).
    { rewrite <- Z.pow_add_r by lia. f_equal. lia. }
    assert (0 < 2 ^ (l - 1)) by (apply Z.pow_pos_nonneg; lia).
    nia.
Qed.

Lemma round_half_even_near (n d : Z) :
  0 <= n -> 0 < d ->
  let m := F64.round_half_even n d in
  2 * n - d <= 2 * m * d <= 2 * n + d.
Proof.
  intros Hn Hd. cbv zeta. unfold F64.round_half_even.
  pose proof (Z.div_mod n d ltac:(lia)) as E.
  pose proof (Z.mod_pos_bound n d Hd) as B.
  set (q := n / d) in *. set (r := n mod d) in *. clearbody q r.
  assert (Hq : 2 * (q + 1) * d = 2 * (d * q) + 2 * d) by ring.
  assert (Hq' : 2 * q * d = 2 * (d * q)) by ring.
  destruct (2 * r ?= d) eqn:C; [destruct (Z.even q)| |];
    rewrite ?Hq, ?Hq'; set (p := d * q) in *; clearbody p; clear Hq Hq'.
  - apply Z.compare_eq in C. lia.
  - apply Z.compare_eq in C. lia.
  - change (2 * r < d) in C. lia.
  - change (2 * r > d) in C. lia.
Qed.


(** [x > 1] for a float given by a mantissa and an exponent. *)
Lemma gt_one (m e : Z) :
  0 <= m ->
  F64.gt_int (F64.Fin false (Z.to_N m) e) 1
  = if e <=? 0 then 2 ^ (- e) <? m else 1 <? m * 2 ^ e.
Proof.
  intros Hm. unfold F64.gt_int, Dec.signed, F64.scale2.
  rewrite Z2N.id by exact Hm.
  destruct (Z.leb_spec e 0) as [He|He].
  - replace (0 <=? - e) with true by (symmetry; apply Z.leb_le; lia).
    now rewrite !Z.mul_1_l.
  - replace (0 <=? - e) with false by (symmetry; apply Z.leb_gt; lia).
    now rewrite Z.opp_involutive.
Qed.


Lemma day_test (n : Z) :
  0 <= n ->
  match F64.round_ratio false n 86400 with
  | F64.Fin neg m e => F64.gt_int (F64.Fin neg m e) 1 = (86400 <? n)
  | F64.Inf _ => 86400 < n
  | F64.NaN => False
  end.
Proof.
  intros Hn. unfold F64.round_ratio.
  destruct (Z.eqb_spec n 0) as [->|Hn0]; [vm_compute; reflexivity|].
  set (L := F64.ilog2 n 86400).
  assert (H52 : 2 ^ 52 = 4503599627370496) by reflexivity.
  assert (H53 : 2 ^ 53 = 9007199254740992) by reflexivity.
  destruct (Z.le_gt_cases n 86400) as [Hs|Hl].
  - assert (HL : L <= 0) by (apply ilog2_small; lia).
    set (e := Z.max (L - 52) (-1074)).
    assert (He : -1074 <= e <= -52) by (unfold e; lia).
    unfold F64.scale2.
    replace (0 <=? e) with false by (symmetry; apply Z.leb_gt; lia).
    replace (86400 <? n) with false by (symmetry; apply Z.ltb_ge; lia).
    assert (HP : 2 ^ (- e) = 2 * 2 ^ (- (e + 1))).
    { rewrite <- Z.pow_succ_r by lia. f_equal. lia. }
    assert (HP0 : 0 < 2 ^ (- (e + 1))) by (apply Z.pow_pos_nonneg; lia).
    pose proof (round_half_even_near (n * 2 ^ (- e)) 86400) as Hm.
    cbv zeta in Hm.
    set (m := F64.round_half_even (n * 2 ^ (- e)) 86400) in *.
    set (P := 2 ^ (- e)) in *. set (Q := 2 ^ (- (e + 1))) in *.
    assert (Hm' : 2 * (n * P) - 86400 <= 2 * m * 86400 <= 2 * (n * P) + 86400)
      by (apply Hm; nia).
    assert (Hmle : m <= P) by nia. assert (Hm0 : 0 <= m) by nia.
    destruct (Z.eqb_spec m (2 ^ 53)) as [Em|Em].
    + replace (971 <? e + 1) with false by (symmetry; apply Z.ltb_ge; lia).
      rewrite gt_one by lia.
      replace (e + 1 <=? 0) with true by (symmetry; apply Z.leb_le; lia).
      fold Q. apply Z.ltb_ge. lia.
    + replace (971 <? e) with false by (symmetry; apply Z.ltb_ge; lia).
      rewrite gt_one by lia.
      replace (e <=? 0) with true by (symmetry; apply Z.leb_le; lia).
      fold P. apply Z.ltb_ge. lia.
  - destruct (ilog2_large n 86400) as [HL0 HLd]; [lia|]. fold L in HL0, HLd.
    replace (Z.max (L - 52) (-1074)) with (L - 52) by lia.
    replace (86400 <? n) with true by (symmetry; apply Z.ltb_lt; lia).
    unfold F64.scale2.
    destruct (Z.leb_spec 0 (L - 52)) as [Hbig|Hsmall].
    + assert (HE : 2 ^ L = 2 ^ 52 * 2 ^ (L - 52)).
      { rewrite <- Z.pow_add_r by lia. f_equal. lia. }
      assert (HE0 : 0 < 2 ^ (L - 52)) by (apply Z.pow_pos_nonneg; lia).
      assert (HE1 : 2 ^ (L - 52 + 1) = 2 * 2 ^ (L - 52)).
      { rewrite Z.pow_add_r by lia. rewrite Z.mul_comm. reflexivity. }
      pose proof (round_half_even_near n (86400 * 2 ^ (L - 52))) as Hm.
      cbv zeta in Hm.
      set (m := F64.round_half_even n (86400 * 2 ^ (L - 52))) in *.
      set (E := 2 ^ (L - 52)) in *.
      assert (Hm' : 2 * n - 86400 * E <= 2 * m * (86400 * E) <= 2 * n + 86400 * E)
        by (apply Hm; nia).
      assert (Hmge : 2 ^ 52 <= m) by nia.
      destruct (Z.eqb_spec m (2 ^ 53)) as [Em|Em].
      * destruct (971 <? L - 52 + 1); [lia|].
        rewrite gt_one by lia.
        replace (L - 52 + 1 <=? 0) with false by (symmetry; apply Z.leb_gt; lia).
        apply Z.ltb_lt. rewrite HE1. fold E. nia.
      * destruct (971 <? L - 52); [lia|].
        rewrite gt_one by lia.
        destruct (Z.leb_spec (L - 52) 0) as [Hz|Hz].
        -- replace (- (L - 52)) with 0 by lia. apply Z.ltb_lt. simpl. lia.
        -- apply Z.ltb_lt. fold E. nia.
    + assert (HP : 2 ^ L * 2 ^ (- (L - 52)) = 2 ^ 52).
      { rewrite <- Z.pow_add_r by lia. f_equal. lia. }
      assert (HP0 : 0 < 2 ^ (- (L - 52))) by (apply Z.pow_pos_nonneg; lia).
      assert (HQ : 2 ^ (- (L - 52 + 1)) <= 2 ^ 51)
        by (apply Z.pow_le_mono_r; lia).
      assert (HP1 : 1 <= L -> 2 ^ (- (L - 52)) <= 2 ^ 51)
        by (intros; apply Z.pow_le_mono_r; lia).
      assert (HP2 : L = 0 -> 2 ^ (- (L - 52)) = 2 ^ 52)
        by (intros ->; reflexivity).
      assert (H51 : 2 ^ 51 = 2251799813685248) by reflexivity.
      pose proof (round_half_even_near (n * 2 ^ (- (L - 52))) 86400) as Hm.
      cbv zeta in Hm.
      set (m := F64.round_half_even (n * 2 ^ (- (L - 52))) 86400) in *.
      set (P := 2 ^ (- (L - 52))) in *. set (T := 2 ^ L) in *.
      assert (Hm' : 2 * (n * P) - 86400 <= 2 * m * 86400 <= 2 * (n * P) + 86400)
        by (apply Hm; nia).
      assert (HnP : 2 ^ 52 * 86400 <= n * P) by (rewrite <- HP; nia).
      assert (Hmge : 2 ^ 52 <= m) by lia.
      assert (HPm : P < m).
      { destruct (Z.eq_dec L 0) as [E0|E0].
        - rewrite (HP2 E0) in *. assert (T = 1) by (unfold T; now rewrite E0).
          nia.
        - assert (P <= 2 ^ 51) by (apply HP1; lia). lia. }
      destruct (Z.eqb_spec m (2 ^ 53)) as [Em|Em].
      * replace (971 <? L - 52 + 1) with false by (symmetry; apply Z.ltb_ge; lia).
        rewrite gt_one by lia.
        replace (L - 52 + 1 <=? 0) with true by (symmetry; apply Z.leb_le; lia).
        apply Z.ltb_lt. lia.
      * replace (971 <? L - 52) with false by (symmetry; apply Z.ltb_ge; lia).
        rewrite gt_one by lia.
        replace (L - 52 <=? 0) with true by (symmetry; apply Z.leb_le; lia).
        apply Z.ltb_lt. fold P. lia.
Qed.


Lemma true_div_day (n : Z) :
  0 <= n ->
  match F64.true_div n 86400 with
  | Ret x => F64.gt_int x 1 = (86400 <? n)
  | Raise _ => 86400 < n
  end.
Proof.
  intros Hn. unfold F64.true_div.
  replace (n <? 0) with false by (symmetry; apply Z.ltb_ge; lia).
  rewrite (Z.abs_eq n) by exact Hn. cbn [xorb Z.ltb Z.compare Z.abs].
  pose proof (day_test n Hn) as H.
  destruct (F64.round_ratio false n 86400); [exact H | exact H | destruct H].
Qed.

End FloatDivision.

(** ** Reconciliation *)

Section Reconciliation.

Import Py Acquire Reconcile Spec Sample.
Local Open Scope py_scope.

(** *** The amount comparison on exact differences *)

Lemma fix_exact (neg : bool) (c : N) (e : Z) :
  (Digits.count c <= 28)%nat ->
  (Dec.Etiny <= e <= Dec.Etop)%Z ->
  Dec.fix_ (Dec.Fin neg c e) = Ret (Dec.Fin neg c e).
Proof.
  intros Hc He. unfold Dec.fix_.
  unfold Dec.Etiny, Dec.Etop, Dec.Emin, Dec.Emax, Dec.prec in *.
  destruct (c =? 0)%N eqn:E.
  - apply N.eqb_eq in E. subst c. do 2 f_equal. lia.
  - cbv zeta.
    replace (999999 - 28 + 1 <? Z.of_nat (Digits.count c) + e - 28)%Z with false
      by (symmetry; apply Z.ltb_ge; lia).
    replace (e <? Z.max (Z.of_nat (Digits.count c) + e - 28) (-999999 - 28 + 1))%Z
      with false by (symmetry; apply Z.ltb_ge; lia).
    reflexivity.
Qed.

Lemma of_dec_finite (d : Dec.t) : finite d -> returns (F64.of_dec d).
Proof.
  destruct d as [neg c e| |]; simpl; try contradiction. intros _.
  destruct (F64.scale10 (Z.of_N c) 1 e). now eexists.
Qed.

(** The amount comparison is a strict one-cent test on the exact difference
    of the two decimals read, when that difference fits the context. *)
Lemma compare_amount_exact (e : result) (b : bill) (d1 d2 : Dec.t)
      (issues : list issue) :
  amounts_read e b d1 d2 ->
  within_context d1 d2 ->
  (more_than_a_cent d1 d2 ->
   exists i, compare_amount e b issues = Ret (issues ++ [i])%list
             /\ field i = "amount" /\ severity i = "ERROR")
  /\ (~ more_than_a_cent d1 d2 -> compare_amount e b issues = Ret issues).
Proof.
  intros [x [n [Hx [Hn [H1 H2]]]]] [F1 [F2 [Hdigits Hexp]]].
  unfold compare_amount. rewrite Hx, Hn, H1, H2. cbn [bind].
  destruct (of_dec_finite d1 F1) as [y1 Hy1].
  destruct (of_dec_finite d2 F2) as [y2 Hy2].
  rewrite Hy1, Hy2.
  unfold more_than_a_cent.
  destruct d1 as [n1 c1 e1| |]; try contradiction.
  destruct d2 as [n2 c2 e2| |]; try contradiction.
  cbn [difference fst snd] in *. cbn [Dec.sub].
  set (z := (Dec.signed n1 c1 * 10 ^ (e1 - Z.min e1 e2)
             - Dec.signed n2 c2 * 10 ^ (e2 - Z.min e1 e2))%Z) in *.
  rewrite (fix_exact _ _ _ Hdigits Hexp). cbn [bind Dec.abs].
  rewrite (fix_exact _ _ _ Hdigits Hexp). cbn [bind].
  change (Dec.of_string "0.01") with (Ret (Dec.Fin false 1 (-2))).
  cbn [bind Dec.gt Dec.compare]. unfold Dec.compare_fin, Dec.signed.
  rewrite N2Z.inj_abs_N. change (Z.of_N 1) with 1%Z.
  set (L := (Z.abs z * 10 ^ (Z.min e1 e2 - Z.min (Z.min e1 e2) (-2)))%Z).
  set (R := (1 * 10 ^ (-2 - Z.min (Z.min e1 e2) (-2)))%Z).
  clearbody L R.
  destruct (L ?= R)%Z eqn:C; cbn [bind].
  - apply Z.compare_eq_iff in C. split; [intros H; exfalso; lia | reflexivity].
  - assert (C' : (L < R)%Z) by exact C.
    split; [intros H; exfalso; lia | reflexivity].
  - assert (C' : (R < L)%Z) by (apply Z.compare_gt_iff; exact C).
    split; [|intros H; contradiction].
    intros _. eexists. repeat split.
Qed.

(** The boundary of the tolerance, on the amount 100.00. *)
Lemma hundred_boundary (utcoffset : Z -> Z) (e : result) (b : bill)
      (x : F64.t) (n : number) :
  float_reads "100.00" x ->
  amount_decimal e = Some x ->
  Amount b = Some n ->
  (number_reads "100.01" n ->
   (forall issues, compare_amount e b issues = Ret issues)
   /\ (invoice_number e = None -> date_timestamp e = None ->
       compare_with_bill utcoffset e b = Ret []))
  /\ (number_reads "100.02" n ->
      (forall issues, exists i,
          compare_amount e b issues = Ret (issues ++ [i])%list
          /\ field i = "amount" /\ severity i = "ERROR")
      /\ (invoice_number e = None -> date_timestamp e = None ->
          exists i, compare_with_bill utcoffset e b = Ret [i]
                    /\ field i = "amount" /\ severity i = "ERROR")).
Proof.
  intros Hx He Hb. vm_compute in Hx. inversion Hx; subst x. clear Hx.
  assert (Hwhole : forall l,
             invoice_number e = None -> date_timestamp e = None ->
             compare_amount e b [] = Ret l ->
             compare_with_bill utcoffset e b = Ret l).
  { intros l Hn Hd Ha. unfold compare_with_bill, compare_invoice_number, compare_date.
    rewrite Hn, Hd. cbn [get bind]. rewrite Ha. reflexivity. }
  split; intros [d [Hd Hn]]; vm_compute in Hd; inversion Hd; subst d; clear Hd.
  - assert (Hblock : forall issues, compare_amount e b issues = Ret issues).
    { intros issues. unfold compare_amount. rewrite He, Hb.
      destruct Hn as [-> | [y [Hy ->]]].
      - vm_compute. reflexivity.
      - vm_compute in Hy. inversion Hy; subst y. vm_compute. reflexivity. }
    split; [exact Hblock|]. intros Hi Ht. apply Hwhole; auto.
  - assert (Hblock : forall issues, exists i,
               compare_amount e b issues = Ret (issues ++ [i])%list
               /\ field i = "amount" /\ severity i = "ERROR").
    { intros issues. unfold compare_amount. rewrite He, Hb.
      destruct Hn as [-> | [y [Hy ->]]].
      - eexists. split; [vm_compute; reflexivity|]. split; reflexivity.
      - vm_compute in Hy. inversion Hy; subst y.
        eexists. split; [vm_compute; reflexivity|]. split; reflexivity. }
    split; [exact Hblock|]. intros Hi Ht.
    destruct (Hblock []) as [i [Hc Hf]]. exists i. split; [|exact Hf].
    apply Hwhole; auto.
Qed.

Lemma more_than_a_cent_dec (d1 d2 : Dec.t) :
  {more_than_a_cent d1 d2} + {~ more_than_a_cent d1 d2}.
Proof.
  unfold more_than_a_cent. destruct (difference d1 d2) as [z q]. cbv zeta.
  apply Z_lt_dec.
Qed.

Lemma compare_amount_returns (e : result) (b : bill) (issues : list issue) :
  (~ both_amounts e b
   \/ exists d1 d2, amounts_read e b d1 d2 /\ within_context d1 d2) ->
  returns (compare_amount e b issues).
Proof.
  intros [Hno | [d1 [d2 [Hread Hctx]]]].
  - unfold compare_amount, both_amounts in *.
    destruct (get F64.truthy (amount_decimal e)); [|now eexists].
    destruct (get truthy_number (Amount b)); [|now eexists].
    exfalso. apply Hno. split; discriminate.
  - destruct (compare_amount_exact e b d1 d2 issues Hread Hctx) as [Hyes Hnot].
    destruct (more_than_a_cent_dec d1 d2) as [H | H].
    + destruct (Hyes H) as [i [Hi _]]. eexists. exact Hi.
    + eexists. exact (Hnot H).
Qed.

(** C8.  The amount comparison is a strict one-cent test on the exact
    difference of the decimals read from the two amounts (a difference that
    fits the 28 digits of the decimal context is not rounded): more than
    0.01 apart adds exactly one discrepancy, for the field "amount" with
    severity "ERROR", and otherwise none.  With the extracted amount 100.00, a
    record amount of 100.01 adds no discrepancy and a record amount of 100.02
    adds exactly one; when no other field is extracted these are the whole
    outcome of the engine. *)
Theorem amount_tolerance_boundary (utcoffset : Z -> Z) (e : result) (b : bill) :
  (forall d1 d2 issues,
      amounts_read e b d1 d2 -> within_context d1 d2 ->
      (more_than_a_cent d1 d2 ->
       exists i, compare_amount e b issues = Ret (issues ++ [i])%list
                 /\ field i = "amount" /\ severity i = "ERROR")
      /\ (~ more_than_a_cent d1 d2 -> compare_amount e b issues = Ret issues))
  /\ (forall x n,
         float_reads "100.00" x ->
         amount_decimal e = Some x ->
         Amount b = Some n ->
         (number_reads "100.01" n ->
          (forall issues, compare_amount e b issues = Ret issues)
          /\ (invoice_number e = None -> date_timestamp e = None ->
              compare_with_bill utcoffset e b = Ret []))
         /\ (number_reads "100.02" n ->
             (forall issues, exists i,
                 compare_amount e b issues = Ret (issues ++ [i])%list
                 /\ field i = "amount" /\ severity i = "ERROR")
             /\ (invoice_number e = None -> date_timestamp e = None ->
                 exists i, compare_with_bill utcoffset e b = Ret [i]
                           /\ field i = "amount" /\ severity i = "ERROR"))).
Proof.
  split.
  - intros d1 d2 issues. apply compare_amount_exact.
  - intros x n. apply hundred_boundary.
Qed.

Lemma amount_tolerance_boundary_witness :
  compare_with_bill utc (only_amount hundred)
    {| BillNumber := None; Amount := Some (Decimal (Dec.Fin false 10001 (-2)));
       BillDate := None |} = Ret []
  /\ (exists i,
         compare_with_bill utc (only_amount hundred)
           {| BillNumber := None;
              Amount := Some (Float (F64.Fin false 7038281792649953 (-46)));
              BillDate := None |} = Ret [i]
         /\ field i = "amount" /\ severity i = "ERROR")
  /\ compare_amount (only_amount hundred)
       {| BillNumber := None; Amount := Some (Int 100); BillDate := None |} []
     = Ret [].
Proof.
  split; [|split].
  - apply (amount_tolerance_boundary utc (only_amount hundred) _) with (x := hundred)
      (n := Decimal (Dec.Fin false 10001 (-2))); try reflexivity.
    exists (Dec.Fin false 10001 (-2)). split; [reflexivity | now left].
  - apply (amount_tolerance_boundary utc (only_amount hundred) _) with (x := hundred)
      (n := Float (F64.Fin false 7038281792649953 (-46))); try reflexivity.
    exists (Dec.Fin false 10002 (-2)). split; [reflexivity|].
    right. eexists. split; reflexivity.
  - apply (amount_tolerance_boundary utc (only_amount hundred) _)
      with (d1 := Dec.Fin false 1000 (-1)) (d2 := Dec.Fin false 100 0).
    + exists hundred, (Int 100). repeat split.
    + repeat split; vm_compute; try discriminate. repeat constructor.
    + vm_compute. discriminate.
Defined.

(** *** The outcome of each comparison *)

Ltac step_block :=
  match goal with
  | |- context [bind ?m _] => destruct m; cbn [bind]
  | |- context [if ?c then _ else _] => destruct c
  end.

Lemma get_some {A : Type} (truthy : A -> bool) (entry : option A) (a : A) :
  get truthy entry = Some a -> entry = Some a /\ truthy a = true.
Proof.
  destruct entry as [a'|]; simpl; [|discriminate].
  destruct (truthy a') eqn:E; [|discriminate].
  intros H. inversion H; subst. now split.
Qed.

Lemma compare_invoice_number_outcome (e : result) (b : bill) (issues : list issue) :
  exists l,
    compare_invoice_number e b issues = Ret l
    /\ outcome "invoice_number" "WARNING" (both_numbers e b) issues (Ret l).
Proof.
  unfold compare_invoice_number, both_numbers.
  destruct (get truthy_string (invoice_number e)) as [number|];
    [|eexists; split; [reflexivity | now left]].
  destruct (get truthy_string (BillNumber b)) as [bill_number|];
    [|eexists; split; [reflexivity | now left]].
  destruct (negb (codes_eqb (Str.upper number) (Str.upper bill_number))).
  - eexists. split; [reflexivity|]. right. split; [split; discriminate|].
    eexists. repeat split.
  - eexists. split; [reflexivity | now left].
Qed.

Lemma compare_amount_outcome (e : result) (b : bill) (issues : list issue) :
  outcome "amount" "ERROR" (both_amounts e b) issues (compare_amount e b issues).
Proof.
  unfold compare_amount, both_amounts.
  destruct (get F64.truthy (amount_decimal e)) as [amount|]; [|now left].
  destruct (get truthy_number (Amount b)) as [bill_number|]; [|now left].
  assert (Hboth : Some amount <> None /\ Some bill_number <> None)
    by (split; discriminate).
  repeat step_block; simpl; try exact Hboth; try (now left).
  right. split; [exact Hboth|]. eexists. repeat split.
Qed.

Lemma compare_date_outcome (utcoffset : Z -> Z) (e : result) (b : bill)
      (issues : list issue) :
  outcome "date" "WARNING" (both_dates e b) issues (compare_date utcoffset e b issues).
Proof.
  unfold compare_date, both_dates.
  destruct (get truthy_int (date_timestamp e)) as [pdf_ts|]; [|now left].
  destruct (get truthy_int (BillDate b)) as [bill_ts|]; [|now left].
  assert (Hboth : Some pdf_ts <> None /\ Some bill_ts <> None)
    by (split; discriminate).
  repeat step_block; simpl; try exact Hboth; try (now left).
  right. split; [exact Hboth|]. eexists. repeat split.
Qed.

(** The date comparison is a test of the two timestamps against one day:
    at most 86400 seconds apart leaves the issues as they are; farther
    apart the block formats the bill date, adds one issue with it, or
    raises what formatting raises. *)
Lemma compare_date_exact (utcoffset : Z -> Z) (e : result) (b : bill)
      (issues : list issue) (pdf_ts bill_ts : Z) :
  get truthy_int (date_timestamp e) = Some pdf_ts ->
  get truthy_int (BillDate b) = Some bill_ts ->
  (compare_date utcoffset e b issues = Ret issues
   <-> (Z.abs (pdf_ts - bill_ts) <= 86400)%Z)
  /\ (forall day,
        (86400 < Z.abs (pdf_ts - bill_ts) < 2 ^ 1000)%Z ->
        Calendar.fromtimestamp utcoffset bill_ts = Ret day ->
        exists i,
          compare_date utcoffset e b issues = Ret (issues ++ [i])%list
          /\ field i = "date" /\ severity i = "WARNING"
          /\ pdf_value i = value_of_string (date_string e)
          /\ bill_value i = VStr (Calendar.strftime_ymd day))
  /\ (forall x,
        (86400 < Z.abs (pdf_ts - bill_ts) < 2 ^ 1000)%Z ->
        Calendar.fromtimestamp utcoffset bill_ts = Raise x ->
        compare_date utcoffset e b issues = Raise x).
Proof.
  intros G1 G2. unfold compare_date. rewrite G1, G2.
  pose proof (true_div_day (Z.abs (pdf_ts - bill_ts)) (Z.abs_nonneg _)) as H.
  assert (Hfar : (86400 < Z.abs (pdf_ts - bill_ts) < 2 ^ 1000)%Z ->
            exists x, F64.true_div (Z.abs (pdf_ts - bill_ts)) 86400 = Ret x
                      /\ F64.gt_int x 1 = true).
  { intros [Hlow Hhigh].
    assert (Hx : exists x, F64.true_div (Z.abs (pdf_ts - bill_ts)) 86400 = Ret x).
    { unfold F64.true_div.
      destruct (round_ratio_finite
                  (xorb (Z.abs (pdf_ts - bill_ts) <? 0)%Z (86400 <? 0)%Z)
                  (Z.abs (Z.abs (pdf_ts - bill_ts))) (Z.abs 86400)) as [m [q Hq]];
        [lia | lia |].
      rewrite Hq. now eexists. }
    destruct Hx as [x Hx]. exists x. split; [exact Hx|].
    rewrite Hx in H. rewrite H. apply Z.ltb_lt. exact Hlow. }
  split; [split|split].
  - intros Hret.
    destruct (F64.true_div (Z.abs (pdf_ts - bill_ts)) 86400) as [x|y];
      [|discriminate].
    cbn [bind] in Hret. rewrite H in Hret.
    destruct (Z.ltb_spec 86400 (Z.abs (pdf_ts - bill_ts))) as [Hlow|Hnear];
      [|exact Hnear].
    destruct (Calendar.fromtimestamp utcoffset bill_ts) as [day|y];
      [|discriminate].
    cbn [bind] in Hret. inversion Hret as [Hl].
    apply (f_equal (@List.length issue)) in Hl.
    rewrite List.length_app in Hl. simpl in Hl. lia.
  - intros Hnear.
    destruct (F64.true_div (Z.abs (pdf_ts - bill_ts)) 86400) as [x|y]; [|lia].
    cbn [bind]. rewrite H.
    now replace (86400 <? Z.abs (pdf_ts - bill_ts))%Z with false
      by (symmetry; apply Z.ltb_ge; lia).
  - intros day Hrange Hday. destruct (Hfar Hrange) as [x [Hx Hgt]].
    rewrite Hx. cbn [bind]. rewrite Hgt, Hday. cbn [bind].
    eexists. split; [reflexivity|]. repeat split.
  - intros x Hrange Hraise. destruct (Hfar Hrange) as [y [Hy Hgt]].
    rewrite Hy. cbn [bind]. rewrite Hgt, Hraise. reflexivity.
Qed.

Lemma outcome_skipped (fld sev : string) (both : Prop) (issues : list issue)
      (r : res (list issue)) :
  outcome fld sev both issues r -> ~ both -> r = Ret issues.
Proof.
  destruct r as [l|x]; simpl.
  - intros [-> | [H _]] Hn; [reflexivity | contradiction].
  - intros H Hn. contradiction.
Qed.

(** C4, as the code has it: a field is compared exactly when both sides
    hold a value for it that counts as true (present, and neither zero nor
    the empty string).  A field without such a value on either side is
    skipped: no discrepancy, no error.  With true values on both sides the
    field is compared: the invoice numbers without regard to case, the
    amounts by the decimals read from them against one cent, the dates by
    their timestamps against one day; each comparison leaves the issues as
    they are or adds one issue of its field.  A result without fields yields
    no discrepancy and no failure, and every discrepancy or failure of the
    engine comes from a field with true values on both sides. *)
Theorem comparison_gated_by_truth_value (utcoffset : Z -> Z) (e : result) (b : bill) :
  (forall issues, ~ both_numbers e b -> compare_invoice_number e b issues = Ret issues)
  /\ (forall issues, ~ both_amounts e b -> compare_amount e b issues = Ret issues)
  /\ (forall issues, ~ both_dates e b -> compare_date utcoffset e b issues = Ret issues)
  /\ (forall number bill_number issues,
         get truthy_string (invoice_number e) = Some number ->
         get truthy_string (BillNumber b) = Some bill_number ->
         exists l,
           compare_invoice_number e b issues = Ret l
           /\ (codes_eqb (Str.upper number) (Str.upper bill_number) = true -> l = issues)
           /\ (codes_eqb (Str.upper number) (Str.upper bill_number) = false ->
               exists i, l = (issues ++ [i])%list
                         /\ field i = "invoice_number" /\ severity i = "WARNING"
                         /\ pdf_value i = VStr number
                         /\ bill_value i = VStr bill_number))
  /\ (forall d1 d2 issues,
         amounts_read e b d1 d2 -> within_context d1 d2 ->
         (~ more_than_a_cent d1 d2 -> compare_amount e b issues = Ret issues)
         /\ (more_than_a_cent d1 d2 ->
             exists i, compare_amount e b issues = Ret (issues ++ [i])%list
                       /\ field i = "amount" /\ severity i = "ERROR"))
  /\ (forall pdf_ts bill_ts issues,
         get truthy_int (date_timestamp e) = Some pdf_ts ->
         get truthy_int (BillDate b) = Some bill_ts ->
         (compare_date utcoffset e b issues = Ret issues
          <-> (Z.abs (pdf_ts - bill_ts) <= 86400)%Z)
         /\ (forall day,
               (86400 < Z.abs (pdf_ts - bill_ts) < 2 ^ 1000)%Z ->
               Calendar.fromtimestamp utcoffset bill_ts = Ret day ->
               exists i,
                 compare_date utcoffset e b issues = Ret (issues ++ [i])%list
                 /\ field i = "date" /\ severity i = "WARNING"))
  /\ (invoice_number e = None -> amount_decimal e = None -> date_timestamp e = None ->
      compare_with_bill utcoffset e b = Ret [])
  /\ (forall l i,
         compare_with_bill utcoffset e b = Ret l -> In i l ->
         (field i = "invoice_number" /\ both_numbers e b)
         \/ (field i = "amount" /\ both_amounts e b)
         \/ (field i = "date" /\ both_dates e b))
  /\ (forall x, compare_with_bill utcoffset e b = Raise x ->
                both_amounts e b \/ both_dates e b).
Proof.
  split; [|split; [|split; [|split; [|split; [|split; [|split; [|split]]]]]]].
  - intros issues Hn.
    destruct (compare_invoice_number_outcome e b issues) as [l [Hl Ho]].
    rewrite Hl in *. exact (outcome_skipped _ _ _ _ _ Ho Hn).
  - intros issues Hn.
    exact (outcome_skipped _ _ _ _ _ (compare_amount_outcome e b issues) Hn).
  - intros issues Hn.
    exact (outcome_skipped _ _ _ _ _ (compare_date_outcome utcoffset e b issues) Hn).
  - intros number bill_number issues Hn Hb. unfold compare_invoice_number.
    rewrite Hn, Hb.
    destruct (codes_eqb (Str.upper number) (Str.upper bill_number)); cbn [negb].
    + eexists. split; [reflexivity|]. split; [reflexivity | discriminate].
    + eexists. split; [reflexivity|]. split; [discriminate|].
      intros _. eexists. repeat split.
  - intros d1 d2 issues Hread Hctx.
    destruct (compare_amount_exact e b d1 d2 issues Hread Hctx) as [Hyes Hnot].
    split; [exact Hnot | exact Hyes].
  - intros pdf_ts bill_ts issues G1 G2.
    destruct (compare_date_exact utcoffset e b issues pdf_ts bill_ts G1 G2)
      as [Hiff [Hissue _]].
    split; [exact Hiff|]. intros day Hrange Hday.
    destruct (Hissue day Hrange Hday) as [i [Hi [Hf [Hs _]]]].
    exists i. now repeat split.
  - intros Hn Ha Hd. unfold compare_with_bill, compare_invoice_number,
      compare_amount, compare_date. rewrite Hn, Ha, Hd. reflexivity.
  - intros l i Hl Hi. unfold compare_with_bill in Hl.
    destruct (compare_invoice_number_outcome e b []) as [l1 [H1 O1]].
    rewrite H1 in Hl. cbn [bind] in Hl.
    pose proof (compare_amount_outcome e b l1) as O2.
    destruct (compare_amount e b l1) as [l2|]; [|discriminate]. cbn [bind] in Hl.
    pose proof (compare_date_outcome utcoffset e b l2) as O3.
    rewrite Hl in O3. simpl in O1, O2, O3.
    assert (H3 : In i l2 \/ (field i = "date" /\ both_dates e b)).
    { destruct O3 as [-> | [Hb [j [-> [Hf _]]]]]; [now left|].
      apply in_app_or in Hi. destruct Hi as [Hi | [<- | []]]; [now left | now right]. }
    destruct H3 as [H3 | H3]; [|now right; right].
    assert (H2 : In i l1 \/ (field i = "amount" /\ both_amounts e b)).
    { destruct O2 as [-> | [Hb [j [-> [Hf _]]]]]; [now left|].
      apply in_app_or in H3. destruct H3 as [H3 | [<- | []]]; [now left | now right]. }
    destruct H2 as [H2 | H2]; [|now right; left].
    left. destruct O1 as [-> | [Hb [j [-> [Hf _]]]]]; [contradiction|].
    destruct H2 as [<- | []]. now split.
  - intros x Hx. unfold compare_with_bill in Hx.
    destruct (compare_invoice_number_outcome e b []) as [l1 [H1 _]].
    rewrite H1 in Hx. cbn [bind] in Hx.
    pose proof (compare_amount_outcome e b l1) as O2.
    destruct (compare_amount e b l1) as [l2|y]; [|now left]. cbn [bind] in Hx.
    pose proof (compare_date_outcome utcoffset e b l2) as O3.
    rewrite Hx in O3. now right.
Qed.

Lemma comparison_gated_by_truth_value_witness :
  compare_amount hundred_result
    {| BillNumber := None; Amount := Some (Int 0); BillDate := None |} [] = Ret []
  /\ compare_with_bill utc zero_result
       {| BillNumber := Some "A-1"; Amount := Some (Int 5); BillDate := Some 1%Z |}
     = Ret []
  /\ compare_date utc (only_date "11/14/2023" 1700000000%Z)
       {| BillNumber := None; Amount := None; BillDate := Some 1700086400%Z |} []
     = Ret []
  /\ (exists i,
        compare_date utc (only_date "11/14/2023" 1700000000%Z)
          {| BillNumber := None; Amount := None; BillDate := Some 1700086401%Z |} []
        = Ret [i]
        /\ field i = "date")
  /\ exists i,
      compare_amount hundred_result
        {| BillNumber := None; Amount := Some (Int 1); BillDate := None |} []
      = Ret [i]
      /\ field i = "amount".
Proof.
  split; [|split; [|split; [|split]]].
  - apply (comparison_gated_by_truth_value utc).
    intros [_ H]. apply H. reflexivity.
  - apply (comparison_gated_by_truth_value utc); reflexivity.
  - destruct (comparison_gated_by_truth_value utc
                (only_date "11/14/2023" 1700000000%Z)
                {| BillNumber := None; Amount := None;
                   BillDate := Some 1700086400%Z |})
      as [_ [_ [_ [_ [_ [Hdate _]]]]]].
    apply (Hdate 1700000000%Z 1700086400%Z [] eq_refl eq_refl). simpl. lia.
  - destruct (comparison_gated_by_truth_value utc
                (only_date "11/14/2023" 1700000000%Z)
                {| BillNumber := None; Amount := None;
                   BillDate := Some 1700086401%Z |})
      as [_ [_ [_ [_ [_ [Hdate _]]]]]].
    destruct (Hdate 1700000000%Z 1700086401%Z [] eq_refl eq_refl) as [_ Hissue].
    destruct (Hissue (2023, 11, 15)%Z) as [i [Hi [Hf _]]].
    + simpl. split; [lia | vm_compute; reflexivity].
    + reflexivity.
    + exists i. split; [exact Hi | exact Hf].
  - destruct (comparison_gated_by_truth_value utc hundred_result
                {| BillNumber := None; Amount := Some (Int 1); BillDate := None |})
      as [_ [_ [_ [_ [Hamount _]]]]].
    destruct (Hamount (Dec.Fin false 1000 (-1)) (Dec.Fin false 1 0) [])
      as [_ Hissue].
    + exists hundred, (Int 1). repeat split.
    + repeat split; vm_compute; try discriminate. repeat constructor.
    + destruct Hissue as [i [Hi [Hf _]]]; [vm_compute; reflexivity|].
      exists i. split; [exact Hi | exact Hf].
Defined.

(** C4, as stated, fails: the coordinator extracts the amount 100.00 from a
    document, the record holds the amount 0, so both are present and they
    differ by more than a cent, yet the amount is not compared and no
    discrepancy is produced; against a record amount of 1 the same result
    does produce one. *)
Lemma zero_bill_amount_is_skipped :
  let zero := {| BillNumber := None; Amount := Some (Int 0); BillDate := None |} in
  let one := {| BillNumber := None; Amount := Some (Int 1); BillDate := None |} in
  extract_invoice_data (one_page false no_dates hundred_invoice) "invoice.pdf"
  = Ret (hundred_result, [Structured_invoked])
  /\ amount_string hundred_result = Some "100.00"
  /\ amount_decimal hundred_result <> None
  /\ Amount zero <> None
  /\ compare_with_bill utc hundred_result zero = Ret []
  /\ exists i, compare_with_bill utc hundred_result one = Ret [i]
                /\ field i = "amount".
Proof.
  cbv zeta. split; [vm_compute; reflexivity|]. split; [reflexivity|].
  split; [discriminate|]. split; [discriminate|].
  split; [vm_compute; reflexivity|].
  eexists. split; [vm_compute; reflexivity | reflexivity].
Qed.

End Reconciliation.

(** ** Date extraction *)

Section DateExtraction.

Import Py Re Patterns Extract Spec ExtractFacts Sample.
Local Open Scope py_scope.

Lemma first_some_app {A B : Type} (f : A -> option B) (l1 l2 : list A) :
  first_some f (l1 ++ l2)%list
  = match first_some f l1 with Some b => Some b | None => first_some f l2 end.
Proof.
  induction l1 as [|a l1 IH]; simpl; [reflexivity|].
  destruct (f a); [reflexivity | exact IH].
Qed.

Lemma first_some_none {A B : Type} (f : A -> option B) (l : list A) :
  (forall a, In a l -> f a = None) -> first_some f l = None.
Proof.
  induction l as [|a l IH]; simpl; intros H; [reflexivity|].
  rewrite (H a (or_introl eq_refl)). apply IH. intros x Hx. apply H. now right.
Qed.

Lemma accepted_spec (lib : DateLib) (date_str : string) (r : string * Z) :
  accepted lib date_str = Some r <->
  fst r = date_str
  /\ exists d, dateparser_parse lib date_str = Ret (Some d)
               /\ (2020 <= year lib d <= 2030)%Z
               /\ timestamp lib d = Ret (snd r).
Proof.
  unfold accepted, plausible_year.
  destruct (dateparser_parse lib date_str) as [[d|]|x].
  - destruct ((2020 <=? year lib d) && (year lib d <=? 2030))%Z eqn:Y.
    + apply andb_true_iff in Y. destruct Y as [Y1 Y2].
      apply Z.leb_le in Y1. apply Z.leb_le in Y2.
      destruct (timestamp lib d) as [ts|y] eqn:T.
      * split.
        -- intros H. inversion H; subst r. simpl. split; [reflexivity|].
           exists d. repeat split; assumption.
        -- intros [H1 [d' [Hd [_ Ht]]]]. inversion Hd; subst d'.
           rewrite T in Ht. inversion Ht. destruct r. simpl in *. now subst.
      * split; [discriminate|].
        intros [_ [d' [Hd [_ Ht]]]]. inversion Hd; subst d'.
        rewrite T in Ht. discriminate.
    + split; [discriminate|].
      intros [_ [d' [Hd [[Y1 Y2] _]]]]. inversion Hd; subst d'.
      apply Z.leb_le in Y1. apply Z.leb_le in Y2. rewrite Y1, Y2 in Y. discriminate.
  - split; [discriminate|]. intros [_ [d' [Hd _]]]. discriminate.
  - split; [discriminate|]. intros [_ [d' [Hd _]]]. discriminate.
Qed.

(** The body of the [try] of the generic tier, with its handler, accepts
    what the specification calls acceptable. *)
Lemma generic_candidate_accepts (lib : DateLib) (date_str : string) :
  try_except (generic_candidate lib date_str) (fun _ => Ret None)
  = Ret (accepted lib date_str).
Proof.
  unfold generic_candidate, accepted, plausible_year.
  destruct (dateparser_parse lib date_str) as [[d|]|x]; cbn [bind try_except];
    try reflexivity.
  destruct ((2020 <=? year lib d) && (year lib d <=? 2030))%Z; [|reflexivity].
  destruct (timestamp lib d) as [ts|y]; reflexivity.
Qed.

Lemma first_plausible_spec (lib : DateLib) : forall matches,
  first_plausible lib matches = Ret (first_some (accepted lib) matches).
Proof.
  induction matches as [|s rest IH]; simpl; [reflexivity|].
  rewrite generic_candidate_accepts. cbn [bind].
  destruct (accepted lib s); [reflexivity | exact IH].
Qed.

Lemma generic_dates_spec (lib : DateLib) (text : string) : forall patterns,
  generic_dates lib patterns text
  = Ret (first_some (accepted lib)
           (flat_map (fun p => candidates p text) patterns)).
Proof.
  induction patterns as [|p ps IH]; cbn [generic_dates flat_map]; [reflexivity|].
  fold (candidates p text). rewrite first_plausible_spec. cbn [bind].
  rewrite first_some_app.
  destruct (first_some (accepted lib) (candidates p text)); [reflexivity | exact IH].
Qed.

Lemma first_some_in {A B : Type} (f : A -> option B) (l : list A) (b : B) :
  first_some f l = Some b -> exists a, In a l /\ f a = Some b.
Proof.
  induction l as [|a l IH]; simpl; [discriminate|].
  destruct (f a) as [b'|] eqn:E.
  - intros H. inversion H; subst b'. exists a. split; [now left | exact E].
  - intros H. destruct (IH H) as [a' [Hin Ha]]. exists a'. split; [now right | exact Ha].
Qed.

(** C7, as the code has it: when the labeled tier finds nothing, the
    generic tier takes the first three matches of the numeric shape
    [D/M/YYYY], then of the ISO-like shape [Y-M-D], then of the month-name
    shape, and returns the first candidate in that order that parses to a
    year of 2020 to 2030 and whose timestamp can be taken.  So the first
    acceptable date among the first three ISO-like matches wins over any
    month-name date when none of the first three numeric matches is
    acceptable; whatever is returned is one of these at most nine
    candidates and parses to a year of 2020 to 2030; and when none of them
    is acceptable nothing is found, whatever matches follow the third of a
    shape. *)
Theorem generic_tier_order (lib : DateLib) (text : string) :
  labeled_dates lib date_patterns text = Ret None ->
  let numeric := firstn 3 (findall false (Grp (numeric_date 4)) text) in
  let iso := firstn 3 (findall false (Grp iso_date) text) in
  let month_name := firstn 3 (findall false (Grp month_name_date) text) in
  parse_date true lib text
  = Ret (as_pair (first_some (accepted lib) (numeric ++ iso ++ month_name)%list))
  /\ (forall r, (forall s, In s numeric -> accepted lib s = None) ->
                first_some (accepted lib) iso = Some r ->
                parse_date true lib text = Ret (Some (fst r), Some (snd r)))
  /\ (forall s ts,
         parse_date true lib text = Ret (Some s, Some ts) ->
         In s (numeric ++ iso ++ month_name)%list
         /\ exists d, dateparser_parse lib s = Ret (Some d)
                      /\ (2020 <= year lib d <= 2030)%Z
                      /\ timestamp lib d = Ret ts)
  /\ ((forall s, In s (numeric ++ iso ++ month_name)%list -> accepted lib s = None) ->
      parse_date true lib text = Ret (None, None)).
Proof.
  intros Hlabeled numeric iso month_name.
  assert (Hparse : parse_date true lib text
                   = Ret (as_pair (first_some (accepted lib)
                                     (numeric ++ iso ++ month_name)%list))).
  { unfold parse_date. cbn [negb]. rewrite Hlabeled. cbn [bind].
    rewrite generic_dates_spec. cbn [bind generic_patterns flat_map].
    rewrite app_nil_r. unfold candidates.
    fold numeric iso month_name.
    destruct (first_some (accepted lib) (numeric ++ iso ++ month_name)%list)
      as [[s ts]|]; reflexivity. }
  split; [exact Hparse|]. split; [|split].
  - intros r Hnum Hiso. rewrite Hparse, first_some_app, (first_some_none _ _ Hnum).
    rewrite first_some_app, Hiso. destruct r. reflexivity.
  - intros s ts Hret. rewrite Hparse in Hret.
    destruct (first_some (accepted lib) (numeric ++ iso ++ month_name)%list)
      as [[s' ts']|] eqn:F; [|discriminate].
    simpl in Hret. inversion Hret; subst s' ts'.
    destruct (first_some_in _ _ _ F) as [a [Hin Ha]].
    apply accepted_spec in Ha. simpl in Ha. destruct Ha as [<- Hd].
    split; [exact Hin | exact Hd].
  - intros Hnone. rewrite Hparse, (first_some_none _ _ Hnone). reflexivity.
Qed.

Lemma generic_tier_order_witness :
  parse_date true two_dates march_text = Ret (Some "2024-03-07", Some 1709769600%Z).
Proof.
  destruct (generic_tier_order two_dates march_text eq_refl) as [_ [H _]].
  apply (H ("2024-03-07", 1709769600%Z)).
  - vm_compute. tauto.
  - reflexivity.
Defined.

(** C7, as stated, fails: the text has an acceptable month-name date and an
    acceptable ISO-like date, no label and no numeric date, and the date
    returned is the ISO-like one. *)
Lemma iso_date_before_month_name :
  labeled_dates two_dates date_patterns march_text = Ret None
  /\ candidates (Grp (numeric_date 4)) march_text = []
  /\ candidates (Grp month_name_date) march_text = ["March 5, 2024"]
  /\ accepted two_dates "March 5, 2024" = Some ("March 5, 2024", 1709596800%Z)
  /\ candidates (Grp iso_date) march_text = ["2024-03-07"]
  /\ accepted two_dates "2024-03-07" = Some ("2024-03-07", 1709769600%Z)
  /\ parse_date true two_dates march_text = Ret (Some "2024-03-07", Some 1709769600%Z).
Proof. repeat split. Qed.

End DateExtraction.

(** ** The calendar *)

Section CalendarFacts.

Import Py Calendar Spec.
Local Open Scope py_scope.
Local Open Scope Z_scope.

Ltac split_tests :=
  repeat match goal with
         | |- context [if ?x <? ?y then _ else _] => destruct (Z.ltb_spec x y)
         end;
  repeat match goal with
         | |- context [if ?x <=? ?y then _ else _] => destruct (Z.leb_spec x y)
         end.

Ltac era_arith :=
  unfold year_in_era; cbv zeta; split_tests;
  Z.to_euclidean_division_equations; lia.

Lemma civil_year (z : Z) :
  fst (fst (civil_from_days z))
  = year_in_era ((z + 719468) mod 146097) + 400 * ((z + 719468) / 146097).
Proof.
  unfold civil_from_days, year_in_era. cbv zeta.
  replace (z + 719468 - (z + 719468) / 146097 * 146097)
    with ((z + 719468) mod 146097) by (rewrite Z.mod_eq by lia; ring).
  cbn [fst]. ring.
Qed.

Lemma year_in_era_bounds (doe : Z) :
  0 <= doe < 146097 -> 0 <= year_in_era doe <= 400.
Proof. intros H. era_arith. Qed.

Lemma year_in_era_first (doe : Z) : 0 <= doe < 306 -> year_in_era doe = 0.
Proof. intros H. era_arith. Qed.

Lemma year_in_era_positive (doe : Z) :
  306 <= doe < 146097 -> 1 <= year_in_era doe.
Proof. intros H. era_arith. Qed.

Lemma year_in_era_last (doe : Z) :
  146037 <= doe < 146097 -> year_in_era doe = 400.
Proof. intros H. era_arith. Qed.

Lemma year_in_era_before_last (doe : Z) :
  0 <= doe < 146037 -> year_in_era doe <= 399.
Proof. intros H. era_arith. Qed.

(** The days of the years 1 to 9999. *)
Lemma civil_year_range (z : Z) :
  1 <= fst (fst (civil_from_days z)) <= 9999 <-> -719162 <= z <= 2932896.
Proof.
  rewrite civil_year.
  pose proof (Z.mod_pos_bound (z + 719468) 146097 eq_refl) as Hm.
  pose proof (Z.div_mod (z + 719468) 146097) as Hd.
  set (doe := (z + 719468) mod 146097) in *.
  set (era := (z + 719468) / 146097) in *. clearbody doe era.
  pose proof (year_in_era_bounds doe Hm) as B.
  assert (L : doe < 306 -> year_in_era doe = 0)
    by (intros; apply year_in_era_first; lia).
  assert (P : 306 <= doe -> 1 <= year_in_era doe)
    by (intros; apply year_in_era_positive; lia).
  assert (H : 146037 <= doe -> year_in_era doe = 400)
    by (intros; apply year_in_era_last; lia).
  assert (W : doe < 146037 -> year_in_era doe <= 399)
    by (intros; apply year_in_era_before_last; lia).
  lia.
Qed.

Lemma in_calendar_days (utcoffset : Z -> Z) (t : Z) :
  in_calendar utcoffset t
  <-> -719162 <= (t + utcoffset t) / 86400 <= 2932896.
Proof. unfold in_calendar. Z.to_euclidean_division_equations. lia. Qed.

(** The local time of an instant passes its tests exactly when the local
    date lies in the years 1 to 9999. *)
Lemma local_spec (utcoffset : Z -> Z) (t : Z) :
  (in_calendar utcoffset t ->
   localtime utcoffset t = Ret (civil_from_days ((t + utcoffset t) / 86400))
   /\ local utcoffset t = Ret tt)
  /\ (~ in_calendar utcoffset t ->
      exists x, local utcoffset t = Raise x /\ (x = OSError \/ x = ValueError)).
Proof.
  rewrite in_calendar_days, <- civil_year_range.
  unfold local, localtime, check_year, MINYEAR, MAXYEAR, INT_MIN, INT_MAX.
  destruct (civil_from_days ((t + utcoffset t) / 86400)) as [[y m] d].
  cbn [fst]. split.
  - intros [H1 H2].
    replace (- 2 ^ 31 <=? y - 1900) with true by (symmetry; apply Z.leb_le; lia).
    replace (y - 1900 <=? 2 ^ 31 - 1) with true by (symmetry; apply Z.leb_le; lia).
    cbn [andb bind].
    replace (1 <=? y) with true by (symmetry; apply Z.leb_le; lia).
    replace (y <=? 9999) with true by (symmetry; apply Z.leb_le; lia).
    split; reflexivity.
  - intros Hn.
    destruct ((- 2 ^ 31 <=? y - 1900) && (y - 1900 <=? 2 ^ 31 - 1));
      [|exists OSError; split; [reflexivity | now left]].
    cbn [bind].
    destruct (Z.leb_spec 1 y); destruct (Z.leb_spec y 9999); cbn [andb];
      try (exists ValueError; split; [reflexivity | now right]).
    exfalso. apply Hn. lia.
Qed.

(** [fromtimestamp] returns the local date when the timestamp fits the
    platform's time and can be formatted, raises [OverflowError] when it
    does not fit, and [OSError] or [ValueError] otherwise. *)
Lemma fromtimestamp_spec (utcoffset : Z -> Z) (ts : Z) :
  (fits_time_t ts -> formattable utcoffset ts ->
   fromtimestamp utcoffset ts
   = Ret (civil_from_days ((ts + utcoffset ts) / 86400)))
  /\ (~ fits_time_t ts -> fromtimestamp utcoffset ts = Raise OverflowError)
  /\ (fits_time_t ts -> ~ formattable utcoffset ts ->
      exists x, fromtimestamp utcoffset ts = Raise x
                /\ (x = OSError \/ x = ValueError)).
Proof.
  unfold fits_time_t, formattable, fromtimestamp, max_fold_seconds.
  destruct (Z.ltb_spec ts TIME_T_MIN) as [Hlow|Hlow]; cbn [orb].
  { split; [lia|]. split; [reflexivity | lia]. }
  destruct (Z.ltb_spec TIME_T_MAX ts) as [Hhigh|Hhigh].
  { split; [lia|]. split; [reflexivity | lia]. }
  split; [|split; [intros Hn; exfalso; apply Hn; lia|]].
  - intros _ [H0 [H1 H2]].
    destruct (proj1 (local_spec utcoffset ts) H0) as [Hl _]. rewrite Hl.
    cbn [bind].
    destruct (civil_from_days ((ts + utcoffset ts) / 86400)) as [[y m] d] eqn:E.
    assert (Hy : check_year y = Ret tt).
    { apply in_calendar_days, civil_year_range in H0. rewrite E in H0.
      cbn [fst] in H0. unfold check_year, MINYEAR, MAXYEAR.
      replace (1 <=? y) with true by (symmetry; apply Z.leb_le; lia).
      now replace (y <=? 9999) with true by (symmetry; apply Z.leb_le; lia). }
    rewrite Hy. cbn [bind].
    rewrite (proj2 (proj1 (local_spec utcoffset (ts - 86400)) H1)). cbn [bind].
    destruct (Z.ltb_spec (utcoffset ts - utcoffset (ts - 86400)) 0) as [T|T];
      [|reflexivity].
    rewrite (proj2 (proj1 (local_spec utcoffset _) (H2 ltac:(lia)))).
    reflexivity.
  - intros _ Hn.
    assert (D0 : in_calendar utcoffset ts \/ ~ in_calendar utcoffset ts)
      by (unfold in_calendar; lia).
    destruct D0 as [H0|H0].
    2:{ pose proof (proj2 (local_spec utcoffset ts) H0) as [x [Hx Hk]].
        unfold local in Hx.
        destruct (localtime utcoffset ts) as [[[y m] d]|z]; cbn [bind] in Hx |- *.
        - rewrite Hx. cbn [bind]. now exists x.
        - inversion Hx; subst z. now exists x. }
    destruct (proj1 (local_spec utcoffset ts) H0) as [Hl Hc]. unfold local in Hc.
    rewrite Hl in Hc |- *. cbn [bind] in Hc |- *.
    destruct (civil_from_days ((ts + utcoffset ts) / 86400)) as [[y m] d].
    rewrite Hc. cbn [bind].
    assert (D1 : in_calendar utcoffset (ts - 86400)
                 \/ ~ in_calendar utcoffset (ts - 86400))
      by (unfold in_calendar; lia).
    destruct D1 as [H1|H1].
    2:{ pose proof (proj2 (local_spec utcoffset _) H1) as [x [Hx Hk]].
        rewrite Hx. cbn [bind]. now exists x. }
    rewrite (proj2 (proj1 (local_spec utcoffset _) H1)). cbn [bind].
    destruct (Z.ltb_spec (utcoffset ts - utcoffset (ts - 86400)) 0) as [T|T].
    + assert (D2 : in_calendar utcoffset
                     (ts + (utcoffset ts - utcoffset (ts - 86400)))
                   \/ ~ in_calendar utcoffset
                        (ts + (utcoffset ts - utcoffset (ts - 86400))))
        by (unfold in_calendar; lia).
      destruct D2 as [H2|H2];
        [exfalso; apply Hn; split; [exact H0|]; split; [exact H1|]; intros _; exact H2|].
      pose proof (proj2 (local_spec utcoffset _) H2) as [x [Hx Hk]].
      rewrite Hx. cbn [bind]. now exists x.
    + exfalso. apply Hn. split; [exact H0|]. split; [exact H1|]. lia.
Qed.

End CalendarFacts.

(** ** What can raise *)

Section Totality.

Import Py Re Patterns Extract Spec ExtractFacts Acquire Reconcile Sample.
Local Open Scope py_scope.

(** The date comparison returns when the bill date can be formatted. *)
Lemma compare_date_returns (utcoffset : Z -> Z) (e : result) (b : bill)
      (issues : list issue) :
  (forall pdf_ts bill_ts,
      date_timestamp e = Some pdf_ts -> BillDate b = Some bill_ts ->
      (Z.abs (pdf_ts - bill_ts) < 2 ^ 1000)%Z
      /\ returns (Calendar.fromtimestamp utcoffset bill_ts)) ->
  returns (compare_date utcoffset e b issues).
Proof.
  intros H. unfold compare_date.
  destruct (get truthy_int (date_timestamp e)) as [pdf_ts|] eqn:G1;
    [|now eexists].
  destruct (get truthy_int (BillDate b)) as [bill_ts|] eqn:G2; [|now eexists].
  apply get_some in G1. apply get_some in G2.
  destruct (H _ _ (proj1 G1) (proj1 G2)) as [Hlt [day Hday]].
  unfold F64.true_div.
  destruct (round_ratio_finite
              (xorb (Z.abs (pdf_ts - bill_ts) <? 0)%Z (86400 <? 0)%Z)
              (Z.abs (Z.abs (pdf_ts - bill_ts))) (Z.abs 86400)) as [m [x Hx]];
    [lia | lia |].
  rewrite Hx. cbn [bind].
  destruct (F64.gt_int _ 1); [|now eexists].
  rewrite Hday. cbn [bind]. now eexists.
Qed.

(** C9, as the code has it: on every text the extractors of the invoice
    number, the date and the amount return (and the vendor extractor is a
    function without failing steps); a candidate whose date or number does
    not parse is passed over for the next one.  The reconciliation engine has
    no handler of its own: it returns when the amounts compared, if any,
    read as finite decimals whose difference fits the decimal context, and
    the bill date, when dates are compared, can be formatted by the calendar
    library; when the dates are more than a day apart and formatting the
    bill date raises, the engine raises the same exception.  Formatting
    returns exactly when the timestamp fits the platform's time and the
    local date lies in the years 1 to 9999 at the timestamp, one day before
    it and, after a backward change of the zone's offset, that much before
    it; it raises [OverflowError] when the timestamp does not fit, and
    [OSError] or [ValueError] otherwise. *)
Theorem extractors_return (has_dateutil : bool) (lib : DateLib) (text : string) :
  returns (parse_invoice_number text)
  /\ returns (parse_date has_dateutil lib text)
  /\ returns (parse_amount text)
  /\ (forall p ps m x,
         search true p text = Some m ->
         labeled_candidate lib (group1 m) = Raise x ->
         labeled_dates lib (p :: ps) text = labeled_dates lib ps text)
  /\ (forall s rest x,
         generic_candidate lib s = Raise x ->
         first_plausible lib (s :: rest) = first_plausible lib rest)
  /\ (forall p ps m g x,
         search true p text = Some m -> group1 m = Some g ->
         Dec.of_string (Str.remove "," g) = Raise x ->
         labeled_totals (p :: ps) text = labeled_totals ps text)
  /\ (forall m rest x,
         Dec.of_string (Str.remove "," m) = Raise x ->
         collect_amounts (m :: rest) = collect_amounts rest)
  /\ (forall utcoffset e b,
         (~ both_amounts e b
          \/ exists d1 d2, amounts_read e b d1 d2 /\ within_context d1 d2) ->
         (forall pdf_ts bill_ts,
             date_timestamp e = Some pdf_ts -> BillDate b = Some bill_ts ->
             (Z.abs (pdf_ts - bill_ts) < 2 ^ 1000)%Z
             /\ returns (Calendar.fromtimestamp utcoffset bill_ts)) ->
         returns (compare_with_bill utcoffset e b))
  /\ (forall utcoffset e b pdf_ts bill_ts x,
         (~ both_amounts e b
          \/ exists d1 d2, amounts_read e b d1 d2 /\ within_context d1 d2) ->
         get truthy_int (date_timestamp e) = Some pdf_ts ->
         get truthy_int (BillDate b) = Some bill_ts ->
         (86400 < Z.abs (pdf_ts - bill_ts) < 2 ^ 1000)%Z ->
         Calendar.fromtimestamp utcoffset bill_ts = Raise x ->
         compare_with_bill utcoffset e b = Raise x)
  /\ (forall utcoffset ts,
         (returns (Calendar.fromtimestamp utcoffset ts)
          <-> fits_time_t ts /\ formattable utcoffset ts)
         /\ (~ fits_time_t ts ->
             Calendar.fromtimestamp utcoffset ts = Raise OverflowError)
         /\ (fits_time_t ts -> ~ formattable utcoffset ts ->
             exists x, Calendar.fromtimestamp utcoffset ts = Raise x
                       /\ (x = OSError \/ x = ValueError))).
Proof.
  split; [exact (invoice_number_loop_returns text invoice_patterns eq_refl)|].
  split; [exact (parse_date_returns has_dateutil lib text)|].
  split; [exact (parse_amount_returns text)|].
  split; [|split; [|split; [|split; [|split; [|split]]]]].
  - intros p ps m x Hm Hx. cbn [labeled_dates]. rewrite Hm, Hx. reflexivity.
  - intros s rest x Hx. cbn [first_plausible]. rewrite Hx. reflexivity.
  - intros p ps m g x Hm Hg Hx. cbn [labeled_totals]. rewrite Hm, Hg, Hx.
    rewrite (DecFacts.of_string_raises _ _ Hx). reflexivity.
  - intros m rest x Hx. cbn [collect_amounts]. rewrite Hx. reflexivity.
  - intros utcoffset e b Hamounts Hdate. unfold compare_with_bill.
    destruct (compare_invoice_number_outcome e b []) as [l1 [H1 _]].
    rewrite H1. cbn [bind].
    destruct (compare_amount_returns e b l1 Hamounts) as [l2 H2].
    rewrite H2. cbn [bind]. now apply compare_date_returns.
  - intros utcoffset e b pdf_ts bill_ts x Hamounts G1 G2 Hrange Hraise.
    unfold compare_with_bill.
    destruct (compare_invoice_number_outcome e b []) as [l1 [H1 _]].
    rewrite H1. cbn [bind].
    destruct (compare_amount_returns e b l1 Hamounts) as [l2 H2].
    rewrite H2. cbn [bind].
    destruct (compare_date_exact utcoffset e b l2 pdf_ts bill_ts G1 G2)
      as [_ [_ Hr]].
    exact (Hr x Hrange Hraise).
  - intros utcoffset ts.
    destruct (fromtimestamp_spec utcoffset ts) as [Hret [Hover Hother]].
    split; [|split; [exact Hover | exact Hother]].
    assert (Dt : fits_time_t ts \/ ~ fits_time_t ts)
      by (unfold fits_time_t; lia).
    assert (Df : formattable utcoffset ts \/ ~ formattable utcoffset ts)
      by (unfold formattable, in_calendar; lia).
    split.
    + intros [day Hday]. destruct Dt as [Ht|Ht].
      * destruct Df as [Hf|Hf]; [now split|].
        destruct (Hother Ht Hf) as [x [Hx _]]. rewrite Hx in Hday. discriminate.
      * rewrite (Hover Ht) in Hday. discriminate.
    + intros [Ht Hf]. eexists. exact (Hret Ht Hf).
Qed.

Lemma extractors_return_witness :
  labeled_totals total_patterns "Total: , then Balance Due: 12.50"
  = labeled_totals (tl total_patterns) "Total: , then Balance Due: 12.50"
  /\ returns (compare_with_bill utc (only_date "11/14/2023" 1700000000%Z)
                {| BillNumber := None; Amount := Some (Int 5);
                   BillDate := Some 1700200000%Z |})
  /\ returns (compare_with_bill utc (only_amount hundred)
                {| BillNumber := Some "A-1"; Amount := Some (Int 250);
                   BillDate := Some 1700200000%Z |}).
Proof.
  destruct (extractors_return false no_dates "Total: , then Balance Due: 12.50")
    as [_ [_ [_ [_ [_ [Hamount [_ [Hengine _]]]]]]]].
  split; [|split].
  - eapply (Hamount _ _ _ ","); vm_compute; reflexivity.
  - apply Hengine.
    + left. intros [H _]. apply H. reflexivity.
    + intros pdf_ts bill_ts Hp Hb. inversion Hp; subst. inversion Hb; subst.
      split; [reflexivity | eexists; reflexivity].
  - apply Hengine.
    + right. exists (Dec.Fin false 1000 (-1)), (Dec.Fin false 250 0). split.
      * exists hundred, (Int 250). repeat split.
      * repeat split; vm_compute; try discriminate. repeat constructor.
    + intros pdf_ts bill_ts Hp. discriminate.
Defined.

(** C9, as stated, fails for the reconciliation engine: for a bill date in
    the year 33658 the date discrepancy cannot be formatted and the engine
    raises [ValueError]. *)
Lemma reconciliation_raises_on_far_date :
  compare_with_bill utc (only_date "11/14/2023" 1700000000%Z)
    {| BillNumber := None; Amount := None; BillDate := Some 1000000000000%Z |}
  = Raise ValueError.
Proof. vm_compute. reflexivity. Qed.

(** The three ways in which formatting fails, and the two ends of the
    calendar, in the zone without offset. *)
Lemma fromtimestamp_samples :
  Calendar.fromtimestamp utc (10 ^ 12) = Raise ValueError
  /\ Calendar.fromtimestamp utc (10 ^ 17) = Raise OSError
  /\ Calendar.fromtimestamp utc (10 ^ 19) = Raise OverflowError
  /\ Calendar.fromtimestamp utc (-62135596800) = Raise ValueError
  /\ Calendar.fromtimestamp utc (-62135510400) = Ret (1, 1, 2)%Z
  /\ Calendar.fromtimestamp utc 253402300799 = Ret (9999, 12, 31)%Z
  /\ Calendar.fromtimestamp utc 253402300800 = Raise ValueError.
Proof. repeat split; vm_compute; reflexivity. Qed.

End Totality.

(** * Further properties of the code *)

(** ** The discrepancy list *)

Section IssueList.

Import Py Acquire Reconcile Spec More Sample.
Local Open Scope py_scope.

Lemma outcome_split (fld sev : string) (both : Prop) (issues l : list issue) :
  outcome fld sev both issues (Ret l) ->
  exists l', l = (issues ++ l')%list /\ at_most_one fld sev l'.
Proof.
  simpl. intros [-> | [_ [i [-> [Hf Hs]]]]].
  - exists []. split; [now rewrite app_nil_r | now left].
  - exists [i]. split; [reflexivity|]. right. now exists i.
Qed.

(** X1.  The engine reports at most one discrepancy per field, in the fixed
    order invoice number, amount, date, whatever the records hold: an invoice
    number or a date mismatch is a "WARNING", an amount mismatch an "ERROR",
    and the list has at most three entries. *)
Theorem issues_in_field_order (utcoffset : Z -> Z) (e : result) (b : bill)
        (l : list issue) :
  compare_with_bill utcoffset e b = Ret l ->
  exists l1 l2 l3,
    l = (l1 ++ l2 ++ l3)%list
    /\ at_most_one "invoice_number" "WARNING" l1
    /\ at_most_one "amount" "ERROR" l2
    /\ at_most_one "date" "WARNING" l3
    /\ (List.length l <= 3)%nat.
Proof.
  intros Hl. unfold compare_with_bill in Hl.
  destruct (compare_invoice_number_outcome e b []) as [k1 [H1 O1]].
  rewrite H1 in Hl. cbn [bind] in Hl.
  pose proof (compare_amount_outcome e b k1) as O2.
  destruct (compare_amount e b k1) as [k2|]; [|discriminate]. cbn [bind] in Hl.
  pose proof (compare_date_outcome utcoffset e b k2) as O3. rewrite Hl in O3.
  destruct (outcome_split _ _ _ _ _ O1) as [l1 [E1 A1]].
  destruct (outcome_split _ _ _ _ _ O2) as [l2 [E2 A2]].
  destruct (outcome_split _ _ _ _ _ O3) as [l3 [E3 A3]].
  simpl in E1. subst k1 k2 l.
  exists l1, l2, l3. split; [now rewrite <- List.app_assoc|].
  split; [exact A1|]. split; [exact A2|]. split; [exact A3|].
  rewrite !length_app.
  assert (B : forall f s x, at_most_one f s x -> (List.length x <= 1)%nat).
  { intros f s x [-> | [i [-> _]]]; simpl; lia. }
  pose proof (B _ _ _ A1). pose proof (B _ _ _ A2). pose proof (B _ _ _ A3). lia.
Qed.

Lemma issues_in_field_order_witness :
  exists l,
    compare_with_bill utc
      {| file := "invoice.pdf"; extraction_method := Some "pdfplumber";
         invoice_number := Some "inv-1"; date_string := Some "11/14/2023";
         date_timestamp := Some 1700000000%Z; amount_string := Some "100.00";
         amount_decimal := Some hundred; vendor := None;
         raw_text_preview := None; errors := [] |}
      {| BillNumber := Some "INV-2"; Amount := Some (Int 250);
         BillDate := Some 1700200000%Z |} = Ret l
    /\ map field l = ["invoice_number"; "amount"; "date"]
    /\ (List.length l <= 3)%nat.
Proof.
  eexists. split; [vm_compute; reflexivity|]. split; [reflexivity|].
  match goal with
  | |- (List.length ?l <= 3)%nat =>
      destruct (issues_in_field_order utc
                  {| file := "invoice.pdf"; extraction_method := Some "pdfplumber";
                     invoice_number := Some "inv-1"; date_string := Some "11/14/2023";
                     date_timestamp := Some 1700000000%Z; amount_string := Some "100.00";
                     amount_decimal := Some hundred; vendor := None;
                     raw_text_preview := None; errors := [] |}
                  {| BillNumber := Some "INV-2"; Amount := Some (Int 250);
                     BillDate := Some 1700200000%Z |} l)
        as [l1 [l2 [l3 [_ [_ [_ [_ H]]]]]]]; [vm_compute; reflexivity | exact H]
  end.
Defined.

End IssueList.

(** ** Acquisition and the coordinator *)

Section AcquisitionMore.

Import Py Acquire Extract ExtractFacts AcquireFacts Spec More Sample.
Local Open Scope py_scope.

Lemma nonempty_iff (s : string) : Dec.nonempty s = true <-> s <> EmptyString.
Proof. destruct s; simpl; split; congruence. Qed.

Lemma strip_of_empty : Str.strip EmptyString = EmptyString.
Proof. reflexivity. Qed.

(** The three shapes of what acquisition returns. *)
Lemma extract_text_cases (caps : Capabilities) (pdf_path : string) :
  let structured := extract_text_pdfplumber caps pdf_path in
  let recognised := extract_text_ocr caps pdf_path in
  (extract_text caps pdf_path = ((fst structured, "pdfplumber"), snd structured)
   /\ (50 <= String.length (Str.strip (fst structured)))%nat)
  \/ (extract_text caps pdf_path
      = ((fst recognised, "ocr"), (snd structured ++ snd recognised)%list)
      /\ Str.strip (fst recognised) <> EmptyString)
  \/ (extract_text caps pdf_path
      = (("", "none"), (snd structured ++ snd recognised)%list)).
Proof.
  cbv zeta. unfold extract_text.
  destruct (extract_text_pdfplumber caps pdf_path) as [text log1].
  destruct (extract_text_ocr caps pdf_path) as [text2 log2]. cbn [fst snd].
  destruct (50 <=? String.length (Str.strip text))%nat eqn:L.
  - left. split; [reflexivity | now apply Nat.leb_le].
  - destruct (Dec.nonempty (Str.strip text2)) eqn:N.
    + right. left. split; [reflexivity | now apply nonempty_iff].
    + right. right. reflexivity.
Qed.

(** The method is "none" exactly when no text comes back. *)
Lemma method_none (caps : Capabilities) (pdf_path : string) :
  snd (fst (extract_text caps pdf_path)) = "none"
  <-> fst (fst (extract_text caps pdf_path)) = "".
Proof.
  destruct (extract_text_cases caps pdf_path) as [[H L] | [[H N] | H]];
    rewrite H; cbn [fst snd].
  - split; [discriminate|]. intros E. rewrite E in L. simpl in L. lia.
  - split; [discriminate|]. intros E. rewrite E in N. now contradiction N.
  - tauto.
Qed.

(** X2.  What acquisition returns is consistent: the method is one of
    "pdfplumber", "ocr" and "none"; it is "none" exactly when the text is
    empty; and a text that is returned is never all white space. *)
Theorem acquired_text_invariant (caps : Capabilities) (pdf_path : string) :
  let text := fst (fst (extract_text caps pdf_path)) in
  let method := snd (fst (extract_text caps pdf_path)) in
  (method = "pdfplumber" \/ method = "ocr" \/ method = "none")
  /\ (method = "none" <-> text = "")
  /\ (text <> "" -> Str.strip text <> "").
Proof.
  cbv zeta.
  destruct (extract_text_cases caps pdf_path) as [[H L] | [[H N] | H]];
    rewrite H; cbn [fst snd].
  - assert (Hs : Str.strip (fst (extract_text_pdfplumber caps pdf_path)) <> "").
    { intros E. rewrite E in L. simpl in L. lia. }
    assert (Ht : fst (extract_text_pdfplumber caps pdf_path) <> "").
    { intros E. rewrite E in Hs. now apply Hs. }
    split; [now left|]. split; [split; [discriminate | contradiction]|].
    intros _. exact Hs.
  - assert (Ht : fst (extract_text_ocr caps pdf_path) <> "").
    { intros E. rewrite E in N. now apply N. }
    split; [now right; left|]. split; [split; [discriminate | contradiction]|].
    intros _. exact N.
  - split; [now right; right|]. split; [tauto|]. intros E. now contradiction E.
Qed.

(** X3.  Each tier is attempted at most once and a failure of a capability is
    never passed on: the log of acquisition holds at most one invocation of
    each capability, none of a capability whose library is missing, and a
    diagnostic only for an exception that the capability raised. *)
Theorem tiers_attempted_once (caps : Capabilities) (pdf_path : string) :
  let log := snd (extract_text caps pdf_path) in
  (times is_structured log <= 1)%nat
  /\ (times is_recognition log <= 1)%nat
  /\ (HAS_PDFPLUMBER caps = false -> times is_structured log = 0%nat)
  /\ (HAS_OCR caps = false -> times is_recognition log = 0%nat)
  /\ (forall prefix x, In (Diagnostic prefix x) log ->
        (prefix = "pdfplumber error: " /\ pdfplumber_pages caps pdf_path = Raise x)
        \/ (prefix = "OCR error: " /\ ocr_pages caps pdf_path = Raise x)).
Proof.
  cbv zeta.
  assert (H1 : let l := snd (extract_text_pdfplumber caps pdf_path) in
               (times is_structured l <= 1)%nat /\ times is_recognition l = 0%nat
               /\ (HAS_PDFPLUMBER caps = false -> l = [])
               /\ (forall prefix x, In (Diagnostic prefix x) l ->
                     prefix = "pdfplumber error: "
                     /\ pdfplumber_pages caps pdf_path = Raise x)).
  { unfold extract_text_pdfplumber.
    destruct (HAS_PDFPLUMBER caps); cbn [negb].
    - destruct (pdfplumber_pages caps pdf_path) as [pages|y]; cbn [snd];
        (split; [unfold times; simpl; lia|]); (split; [reflexivity|]);
        (split; [discriminate|]); intros prefix x Hin; simpl in Hin.
      + destruct Hin as [Hin | []]. discriminate.
      + destruct Hin as [Hin | [Hin | []]]; [discriminate|].
        inversion Hin; subst. now split.
    - cbn [snd]. split; [unfold times; simpl; lia|]. split; [reflexivity|].
      split; [reflexivity|]. intros prefix x []. }
  assert (H2 : let l := snd (extract_text_ocr caps pdf_path) in
               (times is_recognition l <= 1)%nat /\ times is_structured l = 0%nat
               /\ (HAS_OCR caps = false -> l = [])
               /\ (forall prefix x, In (Diagnostic prefix x) l ->
                     prefix = "OCR error: " /\ ocr_pages caps pdf_path = Raise x)).
  { unfold extract_text_ocr.
    destruct (HAS_OCR caps); cbn [negb].
    - destruct (ocr_pages caps pdf_path) as [pages|y]; cbn [snd];
        (split; [unfold times; simpl; lia|]); (split; [reflexivity|]);
        (split; [discriminate|]); intros prefix x Hin; simpl in Hin.
      + destruct Hin as [Hin | []]. discriminate.
      + destruct Hin as [Hin | [Hin | []]]; [discriminate|].
        inversion Hin; subst. now split.
    - cbn [snd]. split; [unfold times; simpl; lia|]. split; [reflexivity|].
      split; [reflexivity|]. intros prefix x []. }
  cbv zeta in H1, H2.
  destruct H1 as [S1 [R1 [M1 D1]]]. destruct H2 as [R2 [S2 [M2 D2]]].
  assert (Happ : forall f (a c : list event),
             times f (a ++ c)%list = (times f a + times f c)%nat).
  { intros f a c. unfold times. now rewrite filter_app, List.length_app. }
  destruct (extract_text_cases caps pdf_path) as [[H _] | [[H _] | H]];
    rewrite H; cbn [snd]; rewrite ?Happ, ?R1, ?S2.
  - repeat split; try lia.
    + intros Hm. now rewrite (M1 Hm).
    + intros prefix x Hin. left. now apply D1.
  - repeat split; try lia.
    + intros Hm. now rewrite (M1 Hm).
    + intros Hm. now rewrite (M2 Hm).
    + intros prefix x Hin. apply in_app_or in Hin.
      destruct Hin as [Hin | Hin]; [left; now apply D1 | right; now apply D2].
  - repeat split; try lia.
    + intros Hm. now rewrite (M1 Hm).
    + intros Hm. now rewrite (M2 Hm).
    + intros prefix x Hin. apply in_app_or in Hin.
      destruct Hin as [Hin | Hin]; [left; now apply D1 | right; now apply D2].
Qed.

End AcquisitionMore.

Section CoordinatorMore.

Import Py Acquire Extract ExtractFacts AcquireFacts Spec More Sample.
Local Open Scope py_scope.

(** The entries of the result that do not come from an extractor, for a
    document that exists and has text. *)
Lemma extract_invoice_data_meta (caps : Capabilities) (pdf_path text method : string)
      (log : list event) :
  path_exists caps pdf_path = Ret true ->
  extract_text caps pdf_path = ((text, method), log) ->
  Dec.nonempty text = true ->
  exists r,
    extract_invoice_data caps pdf_path = Ret (r, log)
    /\ file r = pdf_path
    /\ extraction_method r = Some method
    /\ raw_text_preview r = Some (Str.take 500 text)
    /\ errors r = []
    /\ vendor r = parse_vendor text.
Proof.
  intros Hex Htext Hne.
  destruct (extract_invoice_data_fields _ _ _ _ _ Hex Htext Hne)
    as [r [amount [Hr [Hn [Hd [Ha Hf]]]]]].
  exists r. split; [exact Hr|].
  unfold extract_invoice_data in Hr.
  rewrite Hex, Htext in Hr. cbn [bind negb] in Hr. rewrite Hne in Hr.
  cbn [negb] in Hr.
  rewrite Hn, Hd, Ha in Hr. cbn [bind snd fst] in Hr. rewrite Hf in Hr.
  cbn [bind] in Hr. inversion Hr as [Hrec]. rewrite <- Hrec at 1 2 3 4 5.
  repeat split.
Qed.

Lemma substring_prefix (n : nat) : forall s,
  exists rest, s = substring 0 n s ++ rest
               /\ String.length (substring 0 n s) = Nat.min n (String.length s).
Proof.
  induction n as [|n IH]; intros s.
  - exists s. destruct s; simpl; split; reflexivity.
  - destruct s as [|c s]; simpl.
    + exists EmptyString. split; reflexivity.
    + destruct (IH s) as [rest [Hs Hl]]. exists rest. split.
      * now rewrite <- Hs.
      * now rewrite Hl.
Qed.

(** X4.  The coordinator has no handler around the test of the path: what
    that test raises, the coordinator raises.  When the test answers, the
    coordinator returns a result, and an error leaves every field unset: a
    missing file is reported as "File not found" without any capability
    being invoked, a document without usable text as "Could not extract text
    from PDF" with the method "none"; the error list is empty exactly when
    the file exists and text was acquired. *)
Theorem errors_leave_no_fields (caps : Capabilities) (pdf_path : string) :
  (forall x, path_exists caps pdf_path = Raise x ->
             extract_invoice_data caps pdf_path = Raise x)
  /\ (forall found, path_exists caps pdf_path = Ret found ->
        exists r log,
          extract_invoice_data caps pdf_path = Ret (r, log)
          /\ file r = pdf_path
          /\ (found = false ->
              errors r = ["File not found: " ++ pdf_path]
              /\ extraction_method r = None /\ raw_text_preview r = None /\ log = [])
          /\ (found = true -> acquired caps pdf_path = "" ->
              errors r = ["Could not extract text from PDF"]
              /\ extraction_method r = Some "none" /\ raw_text_preview r = None)
          /\ (errors r <> [] -> no_fields r)
          /\ (errors r = [] <-> found = true /\ acquired caps pdf_path <> "")).
Proof.
  split; [intros x Hx; exact (extract_invoice_data_raises _ _ _ Hx)|].
  unfold acquired. intros found Hex. destruct found.
  - pose proof (method_none caps pdf_path) as Hnone.
    destruct (extract_text caps pdf_path) as [[text method] log] eqn:Ht.
    cbn [fst snd] in *.
    destruct (Dec.nonempty text) eqn:Hne.
    + destruct (extract_invoice_data_meta _ _ _ _ _ Hex Ht Hne)
        as [r [Hr [Hfile [_ [_ [Herr _]]]]]].
      apply nonempty_iff in Hne.
      exists r, log. split; [exact Hr|]. split; [exact Hfile|].
      split; [discriminate|]. split; [intros _ E; contradiction|].
      split; [intros E; contradiction|].
      split; [intros _; now split | intros _; exact Herr].
    + assert (E : text = "") by (destruct text; [reflexivity | discriminate]).
      rewrite (extract_invoice_data_no_text _ _ _ _ _ Hex Ht Hne).
      eexists. eexists. split; [reflexivity|].
      cbn [file errors extraction_method raw_text_preview].
      split; [reflexivity|]. split; [discriminate|].
      split; [intros _ _; repeat split; f_equal; now apply Hnone|].
      split; [intros _; repeat split|].
      split; [discriminate | intros [_ H]; contradiction].
  - rewrite (extract_invoice_data_missing _ _ Hex).
    eexists. eexists. split; [reflexivity|].
    cbn [file errors extraction_method raw_text_preview].
    split; [reflexivity|]. split; [intros _; repeat split|].
    split; [discriminate|]. split; [intros _; repeat split|].
    split; [discriminate | intros [H _]; discriminate].
Qed.

(** X5.  When the coordinator returns, the text preview of its result is
    the first 500 characters of the acquired text: a prefix of it, of at
    most 500 characters, the whole text when that is no longer; there is a
    preview exactly when the file exists and text was acquired. *)
Theorem preview_is_prefix (caps : Capabilities) (pdf_path : string) (r : result)
        (log : list event) :
  extract_invoice_data caps pdf_path = Ret (r, log) ->
  (raw_text_preview r <> None <->
   path_exists caps pdf_path = Ret true /\ acquired caps pdf_path <> "")
  /\ (forall p, raw_text_preview r = Some p ->
        (String.length p <= 500)%nat
        /\ (exists rest, acquired caps pdf_path = p ++ rest)
        /\ ((String.length (acquired caps pdf_path) <= 500)%nat ->
            p = acquired caps pdf_path)).
Proof.
  unfold acquired. intros Hret.
  destruct (extract_invoice_data_answered _ _ _ _ Hret) as [[|] Hex].
  - destruct (extract_text caps pdf_path) as [[text method] log'] eqn:Ht.
    cbn [fst snd]. destruct (Dec.nonempty text) eqn:Hne.
    + destruct (extract_invoice_data_meta _ _ _ _ _ Hex Ht Hne)
        as [r' [Hr [_ [_ [Hp _]]]]].
      rewrite Hret in Hr. inversion Hr; subst r' log'. clear Hr.
      apply nonempty_iff in Hne. rewrite Hp.
      split; [split; [intros _; now split | discriminate]|].
      intros p E. inversion E; subst p. unfold Str.take.
      destruct (substring_prefix 500 text) as [rest [Hs Hl]].
      split; [rewrite Hl; lia|]. split; [now exists rest|].
      intros Hlen. rewrite Nat.min_r in Hl by exact Hlen.
      assert (Hrest : rest = "").
      { apply (f_equal String.length) in Hs.
        rewrite ReFacts.length_app, Hl in Hs. destruct rest; [reflexivity|].
        simpl in Hs. lia. }
      rewrite Hrest in Hs.
      assert (Hnil : forall u : string, u ++ "" = u).
      { induction u as [|c u IH]; simpl; [reflexivity | now rewrite IH]. }
      rewrite Hnil in Hs. now symmetry.
    + assert (E : text = "") by (destruct text; [reflexivity | discriminate]).
      rewrite (extract_invoice_data_no_text _ _ _ _ _ Hex Ht Hne) in Hret.
      inversion Hret as [[Hr Hl]]. clear Hret. cbn [raw_text_preview].
      split; [split; [intros H; now contradiction H | intros [_ H]; contradiction]|].
      discriminate.
  - rewrite (extract_invoice_data_missing _ _ Hex) in Hret.
    inversion Hret as [[Hr Hl]]. clear Hret. cbn [raw_text_preview].
    split; [split; [intros H; now contradiction H
                   | intros [H _]; rewrite Hex in H; discriminate]|].
    discriminate.
Qed.

Lemma preview_is_prefix_witness :
  exists r log,
    extract_invoice_data (one_page false no_dates dime_invoice) "invoice.pdf"
    = Ret (r, log)
    /\ raw_text_preview r = Some dime_invoice.
Proof.
  destruct (extract_invoice_data_returns
              (one_page false no_dates dime_invoice) "invoice.pdf" true eq_refl)
    as [[r log] Hr].
  destruct (preview_is_prefix _ _ r log Hr) as [Hsome Hprefix].
  exists r, log. split; [exact Hr|].
  destruct (raw_text_preview r) as [p|] eqn:Hp.
  - destruct (Hprefix p eq_refl) as [_ [_ Hwhole]]. f_equal. apply Hwhole.
    vm_compute. repeat constructor.
  - exfalso. apply (proj2 Hsome); [|reflexivity].
    split; [reflexivity | vm_compute; discriminate].
Defined.

End CoordinatorMore.

(** ** The vendor extractor *)

Section Vendor.

Import Py Re Patterns Extract Spec More Sample.

Lemma vendor_loop_find : forall ls,
  vendor_loop ls = find vendor_line (map Str.strip ls).
Proof.
  induction ls as [|l rest IH]; [reflexivity|].
  cbn [vendor_loop map find]. unfold vendor_line. cbv zeta.
  set (line := Str.strip l). set (len := String.length line).
  destruct (Nat.eqb_spec len 0); destruct (Nat.ltb_spec len 3);
    destruct (Nat.ltb_spec 100 len); destruct (Nat.leb_spec 3 len);
    destruct (Nat.leb_spec len 100); cbn [orb andb]; try lia; try exact IH.
  destruct (matches_any skip_patterns line); cbn [negb andb]; [exact IH|].
  destruct (match_at false capital_pattern 0 line); [reflexivity | exact IH].
Qed.

Lemma find_first {A : Type} (f : A -> bool) : forall (l : list A) (x : A),
  find f l = Some x ->
  exists n, nth_error l n = Some x /\ f x = true
            /\ forall j y, (j < n)%nat -> nth_error l j = Some y -> f y = false.
Proof.
  induction l as [|a l IH]; simpl; intros x H; [discriminate|].
  destruct (f a) eqn:E.
  - inversion H; subst. exists 0%nat. repeat split; [exact E|].
    intros j y Hj. lia.
  - destruct (IH _ H) as [n [Hn [Hf Hbefore]]]. exists (S n). repeat split.
    + exact Hn.
    + exact Hf.
    + intros [|j] y Hj Hy; simpl in Hy.
      * now inversion Hy; subst.
      * apply (Hbefore j); [lia | exact Hy].
Qed.

Lemma capital_start (line : string) (m : rmatch) :
  match_at false capital_pattern 0 line = Some m ->
  exists c rest, line = String c rest /\ Chars.isupper_ascii c = true.
Proof.
  unfold match_at, capital_pattern. cbn [run].
  destruct line as [|c rest]; [discriminate|].
  destruct (accepts false [Rng "A" "Z"] c) eqn:E; [|discriminate].
  intros _. exists c, rest. split; [reflexivity|].
  unfold accepts, set_has in E. simpl in E. rewrite orb_false_r in E. exact E.
Qed.

Lemma skip_word (word line : string) :
  In (Bol >> Lit word) skip_patterns ->
  matches_any skip_patterns line = false ->
  starts_with word line = false.
Proof.
  intros Hin Hno. unfold matches_any in Hno.
  assert (H : match match_at true (Bol >> Lit word) 0 line with
              | Some _ => true | None => false end = false).
  { destruct (match match_at true (Bol >> Lit word) 0 line with
              | Some _ => true | None => false end) eqn:E; [|reflexivity].
    rewrite <- Hno. symmetry. apply existsb_exists.
    exists (Bol >> Lit word). now split. }
  unfold starts_with. unfold match_at in H. cbn [run] in H.
  destruct (lit true word line); [discriminate | reflexivity].
Qed.

(** X6.  The vendor is the first of the first ten lines that, trimmed, has 3
    to 100 characters, matches no skip pattern and starts with a capital
    letter A to Z; lines after the tenth are never looked at.  So a vendor
    that is returned is the trimmed text of such a line, no earlier line
    qualifies, and it does not start with "invoice", "date", "page" or
    "total" in any case of the letters. *)
Theorem vendor_is_first_qualifying_line (text : string) :
  parse_vendor text
  = find vendor_line (map Str.strip (firstn 10 (Str.split NL text)))
  /\ forall v,
      parse_vendor text = Some v ->
      exists n line,
        (n < 10)%nat
        /\ nth_error (Str.split NL text) n = Some line
        /\ v = Str.strip line
        /\ (3 <= String.length v <= 100)%nat
        /\ (exists c rest, v = String c rest /\ Chars.isupper_ascii c = true)
        /\ starts_with "invoice" v = false
        /\ starts_with "date" v = false
        /\ starts_with "page" v = false
        /\ starts_with "total" v = false
        /\ (forall j earlier, (j < n)%nat ->
              nth_error (Str.split NL text) j = Some earlier ->
              vendor_line (Str.strip earlier) = false).
Proof.
  assert (Hfind : parse_vendor text
                  = find vendor_line (map Str.strip (firstn 10 (Str.split NL text))))
    by apply vendor_loop_find.
  split; [exact Hfind|]. intros v Hv. rewrite Hfind in Hv.
  destruct (find_first _ _ _ Hv) as [n [Hn [Hq Hbefore]]].
  rewrite nth_error_map, nth_error_firstn in Hn.
  destruct (n <? 10)%nat eqn:Hlt; [|discriminate]. apply Nat.ltb_lt in Hlt.
  destruct (nth_error (Str.split NL text) n) as [line|] eqn:Hline; [|discriminate].
  simpl in Hn. injection Hn as Hstrip. subst v.
  exists n, line. split; [exact Hlt|]. split; [exact Hline|].
  split; [reflexivity|].
  unfold vendor_line in Hq. cbv zeta in Hq.
  apply andb_true_iff in Hq. destruct Hq as [Hq Hcap].
  apply andb_true_iff in Hq. destruct Hq as [Hq Hskip].
  apply andb_true_iff in Hq. destruct Hq as [H3 H100].
  apply Nat.leb_le in H3. apply Nat.leb_le in H100.
  apply negb_true_iff in Hskip.
  split; [lia|]. split.
  { destruct (match_at false capital_pattern 0 (Str.strip line)) as [m|] eqn:E;
      [|discriminate].
    exact (capital_start _ _ E). }
  split; [apply skip_word; [simpl; tauto | exact Hskip]|].
  split; [apply skip_word; [simpl; tauto | exact Hskip]|].
  split; [apply skip_word; [simpl; tauto | exact Hskip]|].
  split; [apply skip_word; [simpl; tauto | exact Hskip]|].
  intros j earlier Hj Hearlier. apply (Hbefore j); [exact Hj|].
  rewrite nth_error_map, nth_error_firstn.
  replace (j <? 10)%nat with true by (symmetry; apply Nat.ltb_lt; lia).
  now rewrite Hearlier.
Qed.

Lemma vendor_is_first_qualifying_line_witness :
  parse_vendor letterhead = Some "Acme Tools Ltd"
  /\ exists n line,
      (n < 10)%nat
      /\ nth_error (Str.split NL letterhead) n = Some line
      /\ "Acme Tools Ltd" = Str.strip line
      /\ starts_with "total" "Acme Tools Ltd" = false.
Proof.
  split; [reflexivity|].
  destruct (vendor_is_first_qualifying_line letterhead) as [_ H].
  destruct (H "Acme Tools Ltd" eq_refl)
    as [n [line [Hn [Hline [Hv [_ [_ [_ [_ [_ [Ht _]]]]]]]]]]].
  exists n, line. repeat split; assumption.
Defined.

End Vendor.

(** ** The date tolerance *)

Section DateTolerance.
Import Py Acquire Reconcile Spec More Sample.
Local Open Scope py_scope.
Local Open Scope Z_scope.

(** X7.  The date tolerance is one day, exactly: with a true timestamp on
    both sides the date block leaves the issue list as it is if and only if
    the two timestamps are at most 86400 seconds apart; farther apart, when
    the bill date can be formatted, it adds one "date" warning that shows
    the local day of the bill date: the year as it is, without leading
    zeros, then month and day with two digits. *)
Theorem date_tolerance_is_one_day (utcoffset : Z -> Z) (e : result) (b : bill)
        (issues : list issue) (pdf_ts bill_ts : Z) :
  get truthy_int (date_timestamp e) = Some pdf_ts ->
  get truthy_int (BillDate b) = Some bill_ts ->
  (compare_date utcoffset e b issues = Ret issues
   <-> Z.abs (pdf_ts - bill_ts) <= 86400)
  /\ (forall day,
        86400 < Z.abs (pdf_ts - bill_ts) < 2 ^ 1000 ->
        Calendar.fromtimestamp utcoffset bill_ts = Ret day ->
        exists i,
          compare_date utcoffset e b issues = Ret (issues ++ [i])%list
          /\ field i = "date" /\ severity i = "WARNING"
          /\ pdf_value i = value_of_string (date_string e)
          /\ bill_value i = VStr (Calendar.strftime_ymd day)).
Proof.
  intros G1 G2.
  destruct (compare_date_exact utcoffset e b issues pdf_ts bill_ts G1 G2)
    as [Hiff [Hissue _]].
  split; [exact Hiff | exact Hissue].
Qed.

Lemma date_tolerance_is_one_day_witness :
  compare_date utc (only_date "11/14/2023" 1700000000)
    {| BillNumber := None; Amount := None; BillDate := Some 1700086400 |} []
  = Ret []
  /\ (exists i,
        compare_date utc (only_date "11/14/2023" 1700000000)
          {| BillNumber := None; Amount := None; BillDate := Some 1700086401 |} []
        = Ret [i]
        /\ bill_value i = VStr "2023-11-15")
  /\ exists i,
      compare_date utc (only_date "11/14/2023" 1700000000)
        {| BillNumber := None; Amount := None; BillDate := Some (-50000025600) |} []
      = Ret [i]
      /\ bill_value i = VStr "385-07-25".
Proof.
  split; [|split].
  - apply (date_tolerance_is_one_day utc (only_date "11/14/2023" 1700000000)
             {| BillNumber := None; Amount := None; BillDate := Some 1700086400 |}
             [] 1700000000 1700086400 eq_refl eq_refl).
    simpl. lia.
  - destruct (date_tolerance_is_one_day utc (only_date "11/14/2023" 1700000000)
                {| BillNumber := None; Amount := None; BillDate := Some 1700086401 |}
                [] 1700000000 1700086401 eq_refl eq_refl) as [_ H].
    destruct (H (2023, 11, 15)) as [i [Hi [_ [_ [_ Hb]]]]].
    + simpl. split; [lia|]. vm_compute; reflexivity.
    + reflexivity.
    + exists i. split; [exact Hi | exact Hb].
  - destruct (date_tolerance_is_one_day utc (only_date "11/14/2023" 1700000000)
                {| BillNumber := None; Amount := None;
                   BillDate := Some (-50000025600) |}
                [] 1700000000 (-50000025600) eq_refl eq_refl) as [_ H].
    destruct (H (385, 7, 25)) as [i [Hi [_ [_ [_ Hb]]]]].
    + simpl. split; [lia|]. vm_compute; reflexivity.
    + reflexivity.
    + exists i. split; [exact Hi | exact Hb].
Defined.

End DateTolerance.

(** ** A failed extraction and the engine *)

Section FailedExtraction.
Import Py Acquire Extract ExtractFacts AcquireFacts Reconcile Spec More Sample.
Local Open Scope py_scope.

(** A result with an error is the empty result with that error. *)
Lemma failed_result (caps : Capabilities) (pdf_path : string) (r : result)
      (log : list event) :
  extract_invoice_data caps pdf_path = Ret (r, log) ->
  errors r <> [] ->
  no_fields r.
Proof.
  intros Hr Herr.
  destruct (extract_invoice_data_answered _ _ _ _ Hr) as [[|] Hex].
  - destruct (extract_text caps pdf_path) as [[text method] log'] eqn:Ht.
    destruct (Dec.nonempty text) eqn:Hne.
    + destruct (extract_invoice_data_meta _ _ _ _ _ Hex Ht Hne)
        as [r' [Hr' [_ [_ [_ [He _]]]]]].
      rewrite Hr in Hr'. inversion Hr'; subst r'. contradiction.
    + rewrite (extract_invoice_data_no_text _ _ _ _ _ Hex Ht Hne) in Hr.
      inversion Hr. repeat split.
  - rewrite (extract_invoice_data_missing _ _ Hex) in Hr.
    inversion Hr. repeat split.
Qed.

Lemma no_fields_clean (utcoffset : Z -> Z) (r : result) (b : bill) :
  no_fields r -> compare_with_bill utcoffset r b = Ret [].
Proof.
  intros [Hn [_ [Hd [_ [Ha _]]]]].
  unfold compare_with_bill, compare_invoice_number, compare_amount, compare_date.
  rewrite Hn, Hd, Ha. reflexivity.
Qed.

(** X8.  A failed extraction reconciles clean: when the coordinator reports
    an error (the file is missing, or no text could be acquired), comparing
    its result with any bill record returns the empty list; the engine
    raises nothing and reports no discrepancy. *)
Theorem failed_extraction_reconciles_clean (utcoffset : Z -> Z)
        (caps : Capabilities) (pdf_path : string) (r : result) (log : list event)
        (b : bill) :
  extract_invoice_data caps pdf_path = Ret (r, log) ->
  errors r <> [] ->
  compare_with_bill utcoffset r b = Ret [].
Proof.
  intros Hr Herr. apply no_fields_clean. exact (failed_result _ _ _ _ Hr Herr).
Qed.

Lemma failed_extraction_reconciles_clean_witness :
  exists r log,
    extract_invoice_data (scanned "") "invoice.pdf" = Ret (r, log)
    /\ errors r = ["Could not extract text from PDF"]
    /\ compare_with_bill utc r
         {| BillNumber := Some "INV-2"; Amount := Some (Int 250);
            BillDate := Some 1700200000%Z |} = Ret [].
Proof.
  eexists. eexists. split; [vm_compute; reflexivity|]. split; [reflexivity|].
  apply (failed_extraction_reconciles_clean utc (scanned "") "invoice.pdf" _ _ _ eq_refl).
  discriminate.
Defined.

End FailedExtraction.

(** ** What a match covers and what its group holds *)

Section Language.
Import Re Spec More ReFacts.

Variable ic : bool.

Lemma app_empty_r (u : string) : u ++ "" = u.
Proof. induction u as [|c u IH]; simpl; [reflexivity | now rewrite IH]. Qed.

Lemma occurs_in_refl (t : string) : occurs_in t t.
Proof. exists "", "". simpl. now rewrite app_empty_r. Qed.

Lemma occurs_in_part (t w pre post : string) :
  occurs_in t w -> occurs_in t (pre ++ w ++ post).
Proof.
  intros [a [b ->]]. exists (pre ++ a), (b ++ post).
  now rewrite !app_assoc.
Qed.

Lemma occurs_in_prefix (t w post : string) :
  occurs_in t w -> occurs_in t (w ++ post).
Proof. intros H. exact (occurs_in_part t w "" post H). Qed.

Lemma occurs_in_suffix (t w pre : string) :
  occurs_in t w -> occurs_in t (pre ++ w).
Proof.
  intros H. rewrite <- (app_empty_r w). exact (occurs_in_part t w pre "" H).
Qed.

Lemma occurs_in_trans (t w text : string) :
  occurs_in t w -> occurs_in w text -> occurs_in t text.
Proof. intros H [pre [post ->]]. now apply occurs_in_part. Qed.

Lemma lit_lang (l : string) : forall s s',
  lit ic l s = Some s' ->
  exists w, s = w ++ s' /\ String.length w = String.length l
            /\ lit ic l w = Some EmptyString.
Proof.
  induction l as [|p l IH]; intros s s' H; simpl in H.
  - exists EmptyString. inversion H; subst. repeat split.
  - destruct s as [|c s]; [discriminate|].
    destruct (same_char ic p c) eqn:E; [|discriminate].
    destruct (IH _ _ H) as [w [Hs [Hl Hw]]].
    exists (String c w). simpl. rewrite E. repeat split.
    + now rewrite Hs.
    + now rewrite Hl.
    + exact Hw.
Qed.

Section RunLanguage.

Context {A : Type}.

Lemma rep_lang (cs : list item) : forall s lo hi pos g (k : cont) (a : A),
  rep ic cs lo hi pos s g k = Some a ->
  exists w s', s = w ++ s' /\ k (pos + String.length w) s' g = Some a
               /\ lang ic (Rep cs lo hi) w.
Proof.
  assert (Hstop : forall lo hi pos s g (k : cont) (a : A),
             match lo with O => k pos s g | S _ => None end = Some a ->
             exists w s', s = w ++ s' /\ k (pos + String.length w) s' g = Some a
                          /\ lang ic (Rep cs lo hi) w).
  { intros lo hi pos s g k a H. destruct lo; [|discriminate].
    exists EmptyString, s. simpl. rewrite Nat.add_0_r.
    split; [reflexivity|]. split; [exact H|]. split; [reflexivity|].
    split; [lia | intros h _; lia]. }
  induction s as [|c s IH]; intros lo hi pos g k a H.
  - destruct hi as [[|h]|]; simpl in H; apply (Hstop _ _ _ _ _ _ _ H).
  - assert (Hgo : hi <> Some O ->
                  (if accepts ic cs c
                   then match rep ic cs (pred lo) (option_map pred hi) (S pos) s g k with
                        | Some x => Some x
                        | None => match lo with O => k pos (String c s) g | S _ => None end
                        end
                   else match lo with O => k pos (String c s) g | S _ => None end)
                  = Some a ->
                  exists w s', String c s = w ++ s'
                               /\ k (pos + String.length w) s' g = Some a
                               /\ lang ic (Rep cs lo hi) w).
    { intros Hhi H'. destruct (accepts ic cs c) eqn:E; [|exact (Hstop _ hi _ _ _ _ _ H')].
      destruct (rep ic cs (pred lo) (option_map pred hi) (S pos) s g k) as [x|] eqn:R;
        [|exact (Hstop _ hi _ _ _ _ _ H')].
      inversion H'; subst x.
      destruct (IH _ _ _ _ _ _ R) as [w [s' [Hs [Hk [Hall [Hlo Hh]]]]]].
      exists (String c w), s'. simpl. repeat split.
      - now rewrite Hs.
      - rewrite Nat.add_succ_r. exact Hk.
      - now rewrite E, Hall.
      - lia.
      - intros h Eh. subst hi. destruct h as [|h]; [congruence|].
        specialize (Hh h eq_refl). lia. }
    destruct hi as [[|h]|]; simpl in H.
    + exact (Hstop _ _ _ _ _ _ _ H).
    + apply Hgo; [discriminate | exact H].
    + apply Hgo; [discriminate | exact H].
Qed.

Lemma run_lang (r : regex) : forall pos s g (k : cont) (a : A),
  run ic r pos s g k = Some a ->
  exists w s' g', s = w ++ s' /\ k (pos + String.length w) s' g' = Some a
                  /\ lang ic r w /\ grp_in ic r w g g'.
Proof.
  induction r as [l | cs | cs lo hi | r1 IH1 r2 IH2 | r1 IH1 r2 IH2 | r1 IH1 |];
    intros pos s g k a H; simpl in H.
  - destruct (lit ic l s) as [s'|] eqn:E; [|discriminate].
    destruct (lit_lang _ _ _ E) as [w [Hs [Hl Hw]]].
    exists w, s', g. rewrite Hl. repeat split; try assumption. now left.
  - destruct s as [|c s]; [discriminate|].
    destruct (accepts ic cs c) eqn:E; [|discriminate].
    exists (String c EmptyString), s, g. simpl. rewrite Nat.add_1_r.
    repeat split; try assumption; [now exists c | now left].
  - destruct (rep_lang _ _ _ _ _ _ _ _ H) as [w [s' [Hs [Hk Hw]]]].
    exists w, s', g. split; [exact Hs|]. split; [exact Hk|].
    split; [exact Hw | now left].
  - destruct (IH1 _ _ _ _ _ H) as [w1 [s1 [g1 [Hs1 [Hk1 [Hw1 Hg1]]]]]].
    destruct (IH2 _ _ _ _ _ Hk1) as [w2 [s2 [g2 [Hs2 [Hk2 [Hw2 Hg2]]]]]].
    exists (w1 ++ w2), s2, g2. repeat split.
    + now rewrite app_assoc, <- Hs2.
    + now rewrite length_app, Nat.add_assoc.
    + now exists w1, w2.
    + destruct Hg2 as [-> | [t [Ht [Hl Ho]]]].
      * destruct Hg1 as [-> | [t [Ht [Hl Ho]]]]; [now left|].
        right. exists t. repeat split; [exact Ht | now left |].
        now apply occurs_in_prefix.
      * right. exists t. repeat split; [exact Ht | now right |].
        now apply occurs_in_suffix.
  - destruct (run ic r1 pos s g k) as [x|] eqn:E.
    + inversion H; subst x.
      destruct (IH1 _ _ _ _ _ E) as [w [s' [g' [Hs [Hk [Hw Hg]]]]]].
      exists w, s', g'. repeat split; try assumption; [now left|].
      destruct Hg as [-> | [t [Ht [Hl Ho]]]]; [now left|].
      right. exists t. repeat split; [exact Ht | now left | exact Ho].
    + destruct (IH2 _ _ _ _ _ H) as [w [s' [g' [Hs [Hk [Hw Hg]]]]]].
      exists w, s', g'. repeat split; try assumption; [now right|].
      destruct Hg as [-> | [t [Ht [Hl Ho]]]]; [now left|].
      right. exists t. repeat split; [exact Ht | now right | exact Ho].
  - destruct (IH1 _ _ _ _ _ H) as [w [s' [g' [Hs [Hk [Hw Hg]]]]]].
    exists w, s', (Some w). repeat split; try assumption.
    + replace (pos + String.length w - pos) with (String.length w) in Hk by lia.
      rewrite Hs, substring_app in Hk. exact Hk.
    + right. exists w. repeat split; [exact Hw | apply occurs_in_refl].
  - destruct pos; [|discriminate].
    exists EmptyString, s, g. simpl. repeat split; try assumption. now left.
Qed.

End RunLanguage.

(** A match found by [re.search] or [re.match]: the text it covers and what
    group 1 holds. *)
Lemma match_at_lang (r : regex) (pos : nat) (s : string) (m : rmatch) :
  match_at ic r pos s = Some m ->
  exists w, s = w ++ m_rest m /\ lang ic r w
            /\ m_start m = pos /\ m_end m = pos + String.length w
            /\ grp_in ic r w None (group1 m).
Proof.
  unfold match_at. intros H.
  destruct (run_lang _ _ _ _ _ _ H) as [w [s' [g' [Hs [Hk [Hw Hg]]]]]].
  inversion Hk; subst m. exists w. repeat split; assumption.
Qed.

Lemma search_from_lang (r : regex) : forall s pos m,
  search_from ic r pos s = Some m ->
  exists pre w, s = pre ++ w ++ m_rest m /\ lang ic r w
                /\ m_end m = m_start m + String.length w
                /\ grp_in ic r w None (group1 m).
Proof.
  assert (Hat : forall s pos m, match_at ic r pos s = Some m ->
            exists pre w, s = pre ++ w ++ m_rest m /\ lang ic r w
                          /\ m_end m = m_start m + String.length w
                          /\ grp_in ic r w None (group1 m)).
  { intros s pos m E.
    destruct (match_at_lang _ _ _ _ E) as [w [Hs [Hw [H1 [H2 Hg]]]]].
    exists "", w. rewrite H1. repeat split; assumption. }
  induction s as [|c s IH]; intros pos m H; simpl in H.
  - destruct (match_at ic r pos EmptyString) as [x|] eqn:E; [|discriminate].
    inversion H; subst x. exact (Hat _ _ _ E).
  - destruct (match_at ic r pos (String c s)) as [x|] eqn:E.
    + inversion H; subst x. exact (Hat _ _ _ E).
    + destruct (IH _ _ H) as [pre [w [Hs Hrest]]].
      exists (String c pre), w. simpl. rewrite <- Hs. split; [reflexivity | exact Hrest].
Qed.

(** What [group(1)] of a found match holds, for a pattern that captures on
    every path. *)
Lemma search_group (r : regex) (text : string) (m : rmatch) :
  captures r = true ->
  search ic r text = Some m ->
  exists t, group1 m = Some t /\ group_lang ic r t /\ occurs_in t text.
Proof.
  intros Hc H. destruct (search_captures _ _ _ _ Hc H) as [t [Ht _]].
  destruct (search_from_lang _ _ _ _ H) as [pre [w [Hs [_ [_ Hg]]]]].
  destruct Hg as [Hg | [u [Hu [Hl Ho]]]]; [congruence|].
  exists u. repeat split; [exact Hu | exact Hl |].
  rewrite Hs. now apply occurs_in_part.
Qed.

Lemma findall_from_lang (r : regex) : captures r = true ->
  forall fuel pos s t,
  In t (findall_from ic fuel r pos s) ->
  group_lang ic r t /\ occurs_in t s.
Proof.
  intros Hc. induction fuel as [|fuel IH]; intros pos s t H; simpl in H;
    [contradiction|].
  destruct (search_from ic r pos s) as [m|] eqn:E; [|contradiction].
  destruct (search_from_group _ _ _ _ _ E) as [[Hn _] | [u [Hu _]]];
    [rewrite Hc in Hn; discriminate|].
  destruct (search_from_lang _ _ _ _ E) as [pre [w [Hs [_ [_ Hg]]]]].
  assert (Hhead : group_lang ic r u /\ occurs_in u s).
  { destruct Hg as [Hg | [u' [Hu' [Hl Ho]]]]; [congruence|].
    assert (u' = u) by congruence. subst u'.
    split; [exact Hl|]. rewrite Hs. now apply occurs_in_part. }
  rewrite Hu in H.
  assert (Htail : forall pos' s', (exists p, m_rest m = p ++ s') ->
            In t (findall_from ic fuel r pos' s') ->
            group_lang ic r t /\ occurs_in t s).
  { intros pos' s' [p Hp] Hin. destruct (IH _ _ _ Hin) as [Hl Ho].
    split; [exact Hl|]. rewrite Hs, Hp, <- !app_assoc.
    now apply occurs_in_suffix. }
  destruct (Nat.eqb (m_end m) (m_start m)).
  - destruct (m_rest m) as [|c s'] eqn:R.
    + destruct H as [H | []]. now subst t.
    + destruct H as [H | H]; [now subst t|].
      apply (Htail _ _ (ex_intro _ (String c "") eq_refl) H).
  - destruct H as [H | H]; [now subst t|].
    apply (Htail _ _ (ex_intro _ "" eq_refl) H).
Qed.

Lemma findall_lang (r : regex) (text t : string) :
  captures r = true ->
  In t (findall ic r text) -> group_lang ic r t /\ occurs_in t text.
Proof. intros Hc. apply findall_from_lang. exact Hc. Qed.

End Language.

(** ** The shape of an invoice number *)

Section InvoiceNumberShape.
Import Py Re Patterns Extract Reconcile Spec More ReFacts.
Local Open Scope py_scope.

Lemma token_first (c : ascii) :
  accepts true [Rng "A" "Z"; Rng "0" "9"] c = true -> alnum c = true.
Proof.
  destruct c as [[] [] [] [] [] [] [] []]; vm_compute; intros H;
    first [reflexivity | exact H].
Qed.

Lemma token_rest (c : ascii) :
  accepts true [Ch "-"; Rng "A" "Z"; Rng "0" "9"] c = true -> number_char c = true.
Proof.
  destruct c as [[] [] [] [] [] [] [] []]; vm_compute; intros H;
    first [reflexivity | exact H].
Qed.

Lemma number_char_no_space (c : ascii) :
  number_char c = true -> Chars.isspace c = false.
Proof.
  destruct c as [[] [] [] [] [] [] [] []]; vm_compute; intros H;
    first [reflexivity | discriminate H].
Qed.

(** [strip] leaves a text without white space as it is. *)
Lemma strip_no_space (s : string) :
  all_chars (fun c => negb (Chars.isspace c)) s = true -> Str.strip s = s.
Proof.
  intros H. unfold Str.strip.
  assert (Hl : Str.lstrip s = s).
  { destruct s as [|c s]; [reflexivity|]. simpl in *.
    apply andb_true_iff in H. destruct H as [Hc _].
    apply negb_true_iff in Hc. now rewrite Hc. }
  rewrite Hl. clear Hl. induction s as [|c s IH]; [reflexivity|].
  simpl in *. apply andb_true_iff in H. destruct H as [Hc Hs].
  apply negb_true_iff in Hc. rewrite (IH Hs), Hc. now destruct s.
Qed.

Lemma number_token_lang (n : nat) (t : string) :
  group_lang true (number_token n) t ->
  exists c w, t = String c w
              /\ accepts true [Rng "A" "Z"; Rng "0" "9"] c = true
              /\ all_chars (accepts true [Ch "-"; Rng "A" "Z"; Rng "0" "9"]) w = true
              /\ (n <= String.length w)%nat.
Proof.
  simpl. intros [w1 [w2 [-> [[c [-> Hc]] [Hall [Hlen _]]]]]].
  exists c, w2. simpl. repeat split; assumption.
Qed.

Lemma token_first_rest (c : ascii) :
  accepts true [Rng "A" "Z"; Rng "0" "9"] c = true ->
  accepts true [Ch "-"; Rng "A" "Z"; Rng "0" "9"] c = true
  /\ Ascii.eqb c "-" = false.
Proof.
  destruct c as [[] [] [] [] [] [] [] []]; vm_compute; intros H;
    first [split; reflexivity | discriminate H].
Qed.

Lemma invoice_patterns_token (p : regex) (t : string) :
  In p invoice_patterns -> group_lang true p t ->
  exists n, (3 <= n)%nat /\ group_lang true (number_token n) t.
Proof.
  intros Hin H. unfold invoice_patterns in Hin.
  destruct Hin as [<- | [<- | [<- | [<- | []]]]].
  - exists 3%nat. split; [lia|]. simpl in H |- *. tauto.
  - exists 3%nat. split; [lia|]. simpl in H |- *. tauto.
  - exists 3%nat. split; [lia|]. simpl in H |- *. tauto.
  - exists 5%nat. split; [lia|]. simpl in H |- *. tauto.
Qed.

Lemma invoice_number_loop_shape (text v : string) : forall patterns,
  (forall p, In p patterns -> In p invoice_patterns) ->
  invoice_number_loop patterns text = Ret (Some v) ->
  exists p g, In p invoice_patterns /\ group_lang true p g
              /\ occurs_in g text /\ v = Str.strip g.
Proof.
  induction patterns as [|p ps IH]; simpl; intros Hsub H; [discriminate|].
  destruct (search true p text) as [m|] eqn:E.
  - assert (Hp : In p invoice_patterns) by (apply Hsub; now left).
    assert (Hc : captures p = true).
    { destruct ExtractFacts.patterns_capture as [Hall _].
      rewrite forallb_forall in Hall. now apply Hall. }
    destruct (search_group true p text m Hc E) as [t [Ht [Hl Ho]]].
    rewrite Ht in H. inversion H. exists p, t. repeat split; assumption.
  - apply IH; [|exact H]. intros q Hq. apply Hsub. now right.
Qed.

(** X9.  An invoice number that is returned is a token of the text as it
    stands there: at least four characters, each of them one that the class
    [[-A-Z0-9]] accepts without regard to case, the first one not the
    hyphen.  So none of its characters is white space and trimming changed
    nothing; every character of ASCII in it is a letter, a digit or a
    hyphen; and the number is never empty (it counts as true for the
    reconciliation engine). *)
Theorem invoice_number_is_a_token (text v : string) :
  parse_invoice_number text = Ret (Some v) ->
  occurs_in v text
  /\ (4 <= String.length v)%nat
  /\ all_chars (accepts true [Ch "-"; Rng "A" "Z"; Rng "0" "9"]) v = true
  /\ (exists c rest, v = String c rest /\ Ascii.eqb c "-" = false)
  /\ all_chars (fun c => negb (Chars.isspace c)) v = true
  /\ all_chars (fun c => negb (is_ascii c) || number_char c) v = true
  /\ get truthy_string (Some v) = Some v.
Proof.
  intros H. unfold parse_invoice_number in H.
  destruct (invoice_number_loop_shape text v invoice_patterns (fun p Hp => Hp) H)
    as [p [g [Hp [Hl [Ho Hv]]]]].
  destruct (invoice_patterns_token p g Hp Hl) as [n [Hn Htok]].
  destruct (number_token_lang n g Htok) as [c [w [Hg [Hc [Hw Hlen]]]]].
  destruct (token_first_rest c Hc) as [Hc' Hhyphen].
  assert (Hall : all_chars (accepts true [Ch "-"; Rng "A" "Z"; Rng "0" "9"]) g
                 = true).
  { rewrite Hg. cbn [all_chars]. now rewrite Hc', Hw. }
  assert (Hnum : all_chars number_char g = true).
  { apply (all_chars_weaken (accepts true [Ch "-"; Rng "A" "Z"; Rng "0" "9"]));
      [exact token_rest | exact Hall]. }
  assert (Hspace : all_chars (fun c => negb (Chars.isspace c)) g = true).
  { apply (all_chars_weaken number_char); [|exact Hnum].
    intros x Hx. now rewrite (number_char_no_space x Hx). }
  rewrite (strip_no_space g Hspace) in Hv. subst v.
  split; [exact Ho|]. split; [rewrite Hg; simpl; lia|].
  split; [exact Hall|]. split; [now exists c, w|].
  split; [exact Hspace|]. split.
  - apply (all_chars_weaken number_char); [|exact Hnum].
    intros x Hx. rewrite Hx. apply orb_true_r.
  - rewrite Hg. reflexivity.
Qed.

Lemma invoice_number_is_a_token_witness :
  occurs_in "A-77-X" "Ref #A-77-X, due on receipt"
  /\ (4 <= String.length "A-77-X")%nat.
Proof.
  destruct (invoice_number_is_a_token "Ref #A-77-X, due on receipt" "A-77-X")
    as [Ho [Hlen _]]; [vm_compute; reflexivity|].
  split; [exact Ho | exact Hlen].
Defined.

End InvoiceNumberShape.

(** ** The candidates of the fallback tier *)

Section CurrencyCandidates.
Import Py Re Patterns Extract Reconcile Spec More ReFacts DecFacts ExtractFacts.
Local Open Scope py_scope.

Lemma remove_app (x : ascii) (u v : string) :
  Str.remove x (u ++ v) = Str.remove x u ++ Str.remove x v.
Proof.
  induction u as [|c u IH]; simpl; [reflexivity|].
  destruct (Ascii.eqb c x); simpl; now rewrite IH.
Qed.

Lemma remove_absent (x : ascii) (s : string) :
  all_chars (fun c => negb (Ascii.eqb c x)) s = true -> Str.remove x s = s.
Proof.
  induction s as [|c s IH]; simpl; [reflexivity|]. intros H.
  apply andb_true_iff in H. destruct H as [Hc Hs].
  apply negb_true_iff in Hc. now rewrite Hc, (IH Hs).
Qed.

Lemma span_digits_all (s : string) :
  all_chars Chars.isdecimal s = true -> Dec.span_digits s = (s, EmptyString).
Proof.
  induction s as [|c s IH]; simpl; [reflexivity|]. intros H.
  apply andb_true_iff in H. destruct H as [Hc Hs]. now rewrite Hc, (IH Hs).
Qed.

Lemma span_digits_point (d r : string) :
  all_chars Chars.isdecimal d = true ->
  Dec.span_digits (d ++ String "." r) = (d, String "." r).
Proof.
  induction d as [|c d IH]; simpl; [reflexivity|]. intros H.
  apply andb_true_iff in H. destruct H as [Hc Hs]. now rewrite Hc, (IH Hs).
Qed.

(** Digits, a point and digits after it, at least one digit in all, read as
    the decimal of those digits with one decimal place per digit after the
    point. *)
Lemma of_string_fixed_point (d f : string) :
  all_chars Chars.isdecimal d = true ->
  all_chars Chars.isdecimal f = true ->
  f <> EmptyString ->
  Dec.of_string (d ++ String "." f)
  = Ret (Dec.Fin false (Digits.read 0 (d ++ f)) (- Z.of_nat (String.length f))).
Proof.
  intros Hd Hf Hne.
  assert (Hall : all_chars amount_char (d ++ String "." f) = true).
  { rewrite all_chars_app. apply andb_true_iff. split.
    - apply (all_chars_weaken Chars.isdecimal); [|exact Hd].
      intros c Hc. unfold amount_char. now rewrite Hc.
    - simpl. apply (all_chars_weaken Chars.isdecimal); [|exact Hf].
      intros c Hc. unfold amount_char. now rewrite Hc. }
  assert (Hns : forall c, amount_char c = true ->
                          negb (Chars.isspace c) = true
                          /\ negb (Ascii.eqb c "_") = true).
  { intros c Hc. destruct (amount_char_cases c Hc) as
        [<-|[<-|[<-|[<-|[<-|[<-|[<-|[<-|[<-|[<-|[<-|[]]]]]]]]]]]]; split; reflexivity. }
  unfold Dec.of_string.
  rewrite strip_no_space
    by (apply (all_chars_weaken amount_char); [intros c Hc; apply Hns, Hc | exact Hall]).
  rewrite remove_absent
    by (apply (all_chars_weaken amount_char); [intros c Hc; apply Hns, Hc | exact Hall]).
  assert (Hsign : Dec.parse_sign (d ++ String "." f) = (false, d ++ String "." f)).
  { destruct d as [|c d]; [reflexivity|]. simpl in Hd.
    apply andb_true_iff in Hd. destruct Hd as [Hc _].
    assert (Ha : amount_char c = true) by (unfold amount_char; now rewrite Hc).
    simpl.
    destruct (amount_char_cases c Ha) as
        [<-|[<-|[<-|[<-|[<-|[<-|[<-|[<-|[<-|[<-|[<-|[]]]]]]]]]]]]; reflexivity. }
  rewrite Hsign. unfold Dec.parse_finite.
  rewrite (span_digits_point d f Hd), (span_digits_all f Hf).
  assert (Hnon : Dec.nonempty (d ++ f) = true).
  { destruct d; simpl; [|reflexivity]. destruct f; [contradiction | reflexivity]. }
  rewrite Hnon. simpl. reflexivity.
Qed.

Lemma lit_exact (l w : string) :
  lit false l w = Some EmptyString -> w = l.
Proof.
  revert w. induction l as [|p l IH]; intros w H; simpl in H.
  - now inversion H.
  - destruct w as [|c w]; [discriminate|].
    unfold same_char in H. destruct (Ascii.eqb_spec p c) as [->|]; [|discriminate].
    now rewrite (IH _ H).
Qed.

Lemma currency_token (t : string) :
  group_lang false currency_pattern t ->
  exists a f, t = a ++ String "." f
              /\ all_chars (fun c => Chars.isdecimal c || Ascii.eqb c ",") a = true
              /\ all_chars Chars.isdecimal f = true
              /\ String.length f = 2%nat.
Proof.
  unfold currency_pattern. simpl.
  intros [[] | [[] | [w1 [w2 [-> [[H1 _] [w3 [w4 [-> [Hl [H4 [Hlo Hhi]]]]]]]]]]]].
  rewrite (lit_exact "." w3 Hl). exists w1, w4. simpl.
  split; [reflexivity|]. split.
  - apply (all_chars_weaken (accepts false [Digit; Ch ","])); [|exact H1].
    intros c Hc. unfold accepts, set_has in Hc. simpl in Hc.
    rewrite orb_false_r in Hc. rewrite Ascii.eqb_sym. exact Hc.
  - split.
    + apply (all_chars_weaken (accepts false [Digit])); [|exact H4].
      intros c Hc. unfold accepts, set_has in Hc. simpl in Hc.
      now rewrite orb_false_r in Hc.
    + specialize (Hhi 2%nat eq_refl). lia.
Qed.

Lemma currency_token_reads (t : string) :
  group_lang false currency_pattern t ->
  exists c, Dec.of_string (Str.remove "," t) = Ret (Dec.Fin false c (-2)).
Proof.
  intros H. destruct (currency_token t H) as [a [f [-> [Ha [Hf Hlen]]]]].
  rewrite remove_app. simpl.
  rewrite (remove_absent "," f).
  2:{ apply (all_chars_weaken Chars.isdecimal); [|exact Hf].
      intros c Hc. destruct c as [[] [] [] [] [] [] [] []];
        first [reflexivity | discriminate Hc]. }
  assert (Hd : all_chars Chars.isdecimal (Str.remove "," a) = true).
  { clear -Ha. induction a as [|c a IH]; simpl in *; [reflexivity|].
    apply andb_true_iff in Ha. destruct Ha as [Hc Hs].
    destruct (Ascii.eqb c ",") eqn:E; [exact (IH Hs)|].
    simpl. rewrite orb_false_r in Hc. now rewrite Hc, (IH Hs). }
  rewrite (of_string_fixed_point _ f Hd Hf).
  - rewrite Hlen. now eexists.
  - intros ->. discriminate.
Qed.

Lemma collect_amounts_keeps (matches : list string) :
  (forall t, In t matches ->
     exists c, Dec.of_string (Str.remove "," t) = Ret (Dec.Fin false c (-2))) ->
  map fst (collect_amounts matches) = matches
  /\ forall x, In x (collect_amounts matches) -> exists c, snd x = Dec.Fin false c (-2).
Proof.
  induction matches as [|m ms IH]; simpl; intros H.
  - split; [reflexivity | contradiction].
  - destruct (H m (or_introl eq_refl)) as [c Hc]. rewrite Hc.
    destruct (IH (fun t Ht => H t (or_intror Ht))) as [Hmap Hval].
    split; [simpl; now rewrite Hmap|].
    intros x [<- | Hx]; [now exists c | now apply Hval].
Qed.

(** X10.  Every bare dollar amount is a valid amount: each match of the
    currency pattern, its separators removed, reads as a decimal that is not
    negative and has exactly two decimal places, so the fallback tier drops
    no candidate (its handler never runs) and finds no amount exactly when
    the pattern has no match; each candidate stands in the text as
    matched. *)
Theorem currency_candidates_all_parse (text : string) :
  let matches := findall false currency_pattern text in
  map fst (collect_amounts matches) = matches
  /\ (forall x, In x (collect_amounts matches) ->
        (exists c, snd x = Dec.Fin false c (-2)) /\ occurs_in (fst x) text)
  /\ (largest_amount text = Ret (None, None) <-> matches = []).
Proof.
  cbv zeta.
  assert (Hread : forall t, In t (findall false currency_pattern text) ->
            exists c, Dec.of_string (Str.remove "," t) = Ret (Dec.Fin false c (-2))).
  { intros t Ht. apply currency_token_reads.
    exact (proj1 (findall_lang false currency_pattern text t eq_refl Ht)). }
  destruct (collect_amounts_keeps _ Hread) as [Hmap Hval].
  split; [exact Hmap|]. split.
  - intros x Hx. split; [now apply Hval|].
    assert (Hin : In (fst x) (findall false currency_pattern text)).
    { rewrite <- Hmap. now apply in_map. }
    exact (proj2 (findall_lang false currency_pattern text (fst x) eq_refl Hin)).
  - pose proof (largest_amount_spec text) as Hl. cbv zeta in Hl.
    destruct (collect_amounts (findall false currency_pattern text))
      as [|a amounts] eqn:E.
    + simpl in Hmap. split; [intros _; now symmetry | intros _; exact Hl].
    + destruct Hl as [x [Hx _]]. rewrite Hx. split; [discriminate|].
      intros Hnil. rewrite Hnil in Hmap. discriminate.
Qed.

End CurrencyCandidates.

(** ** Where the extracted fields come from *)

Section Provenance.
Import Py Re Patterns Extract Reconcile Spec More ReFacts DecFacts ExtractFacts.
Local Open Scope py_scope.

Lemma lstrip_suffix (s : string) : exists pre, s = pre ++ Str.lstrip s.
Proof.
  induction s as [|c s [pre IH]]; simpl; [now exists ""|].
  destruct (Chars.isspace c); [|now exists ""].
  exists (String c pre). simpl. now rewrite <- IH.
Qed.

Lemma rstrip_prefix (s : string) : exists post, s = Str.rstrip s ++ post.
Proof.
  induction s as [|c s [post IH]]; simpl; [now exists ""|].
  destruct (Str.rstrip s) as [|c' r] eqn:E.
  - simpl in IH. subst post. destruct (Chars.isspace c).
    + now exists (String c s).
    + now exists s.
  - exists post. simpl. simpl in IH. now rewrite <- IH.
Qed.

Lemma strip_occurs (s : string) : occurs_in (Str.strip s) s.
Proof.
  unfold Str.strip. destruct (lstrip_suffix s) as [pre Hpre].
  destruct (rstrip_prefix (Str.lstrip s)) as [post Hpost].
  exists pre, post. now rewrite <- Hpost.
Qed.

Lemma split_shape (c : ascii) : forall s,
  exists h t, Str.split c s = h :: t
              /\ (exists post, s = h ++ post)
              /\ (forall l, In l t -> occurs_in l s).
Proof.
  induction s as [|a s [h [t [E [[post Hpost] Htail]]]]]; simpl.
  - exists "", []. split; [reflexivity|]. split; [now exists ""|]. contradiction.
  - rewrite E. destruct (Ascii.eqb a c).
    + exists "", (h :: t). split; [reflexivity|]. split; [now exists (String a s)|].
      intros l Hl. apply (occurs_in_suffix l s (String a "")).
      destruct Hl as [<- | Hl]; [now exists "", post | now apply Htail].
    + exists (String a h), t. split; [reflexivity|]. split.
      * exists post. simpl. now rewrite <- Hpost.
      * intros l Hl. apply (occurs_in_suffix l s (String a "")). now apply Htail.
Qed.

Lemma split_occurs (c : ascii) (s l : string) :
  In l (Str.split c s) -> occurs_in l s.
Proof.
  destruct (split_shape c s) as [h [t [E [[post Hpost] Htail]]]]. rewrite E.
  intros [<- | H]; [now exists "", post | now apply Htail].
Qed.

Lemma firstn_incl {A : Type} (n : nat) (l : list A) (x : A) :
  In x (firstn n l) -> In x l.
Proof.
  intros H. rewrite <- (firstn_skipn n l). apply in_or_app. now left.
Qed.

Lemma first_some_found {A B : Type} (f : A -> option B) (l : list A) (b : B) :
  first_some f l = Some b -> exists a, In a l /\ f a = Some b.
Proof.
  induction l as [|a l IH]; simpl; [discriminate|].
  destruct (f a) as [b'|] eqn:E.
  - intros H. inversion H; subst b'. exists a. split; [now left | exact E].
  - intros H. destruct (IH H) as [a' [Hin Ha]]. exists a'. split; [now right | exact Ha].
Qed.

(** A labeled date that is returned is group 1 of a match of a labeled
    pattern, and its timestamp is that of its parse. *)
Lemma labeled_dates_found (lib : DateLib) (text s : string) (ts : Z) : forall patterns,
  labeled_dates lib patterns text = Ret (Some (s, ts)) ->
  exists p m d, In p patterns /\ search true p text = Some m
                /\ group1 m = Some s
                /\ dateparser_parse lib s = Ret (Some d)
                /\ timestamp lib d = Ret ts.
Proof.
  induction patterns as [|p ps IH]; simpl; intros H; [discriminate|].
  assert (Hrest : labeled_dates lib ps text = Ret (Some (s, ts)) ->
            exists p' m d, (p = p' \/ In p' ps) /\ search true p' text = Some m
                           /\ group1 m = Some s
                           /\ dateparser_parse lib s = Ret (Some d)
                           /\ timestamp lib d = Ret ts).
  { intros H'. destruct (IH H') as [p' [m [d [Hin Hrest]]]].
    exists p', m, d. split; [now right | exact Hrest]. }
  destruct (search true p text) as [m|] eqn:E; [|exact (Hrest H)].
  destruct (group1 m) as [g|] eqn:G; simpl in H; [|exact (Hrest H)].
  destruct (dateparser_parse lib g) as [[d|]|x] eqn:P; simpl in H;
    try exact (Hrest H).
  destruct (timestamp lib d) as [ts'|x] eqn:T; simpl in H; [|exact (Hrest H)].
  inversion H; subst g ts'. exists p, m, d. split; [now left|].
  repeat split; assumption.
Qed.

Lemma generic_dates_found (lib : DateLib) (text s : string) (ts : Z)
      (patterns : list regex) :
  generic_dates lib patterns text = Ret (Some (s, ts)) ->
  exists p d, In p patterns /\ In s (findall false p text)
              /\ dateparser_parse lib s = Ret (Some d)
              /\ (2020 <= year lib d <= 2030)%Z
              /\ timestamp lib d = Ret ts.
Proof.
  rewrite generic_dates_spec. intros H. inversion H as [Hf].
  destruct (first_some_found _ _ _ Hf) as [a [Hin Ha]].
  apply accepted_spec in Ha. destruct Ha as [Hfst [d [Hd [Hy Ht]]]].
  simpl in Hfst, Ht. subst a.
  apply in_flat_map in Hin. destruct Hin as [p [Hp Hs]].
  exists p, d. split; [exact Hp|]. split; [exact (firstn_incl _ _ _ Hs)|].
  repeat split; assumption || apply Hy.
Qed.

Lemma parse_date_cases (has : bool) (lib : DateLib) (text s : string) (ts : Z) :
  parse_date has lib text = Ret (Some s, Some ts) ->
  has = true
  /\ (labeled_dates lib date_patterns text = Ret (Some (s, ts))
      \/ (labeled_dates lib date_patterns text = Ret None
          /\ generic_dates lib generic_patterns text = Ret (Some (s, ts)))).
Proof.
  unfold parse_date. destruct has; cbn [negb]; [|discriminate].
  intros H. split; [reflexivity|].
  destruct (labeled_dates lib date_patterns text) as [[[s' ts']|]|x];
    cbn [bind] in H; [| |discriminate].
  - inversion H. now left.
  - right. split; [reflexivity|].
    destruct (generic_dates lib generic_patterns text) as [[[s' ts']|]|x];
      cbn [bind] in H; [| discriminate | discriminate].
    now inversion H.
Qed.

(** X11.  A date that is returned was parsed from the string that is
    returned with it: the library parses the date string, the timestamp is
    that of this parse, and the date library is present; a date without a
    label was only accepted with a year of 2020 to 2030, a labeled date is
    taken whatever its year. *)
Theorem returned_date_was_parsed (has : bool) (lib : DateLib) (text s : string)
        (ts : Z) :
  parse_date has lib text = Ret (Some s, Some ts) ->
  has = true
  /\ occurs_in s text
  /\ exists d,
      dateparser_parse lib s = Ret (Some d)
      /\ timestamp lib d = Ret ts
      /\ (labeled_dates lib date_patterns text = Ret None ->
          (2020 <= year lib d <= 2030)%Z).
Proof.
  intros H. destruct (parse_date_cases _ _ _ _ _ H) as [Hhas [Hl | [Hl Hg]]].
  - split; [exact Hhas|].
    destruct (labeled_dates_found _ _ _ _ _ Hl) as [p [m [d [Hp [Hm [Hg [Hd Ht]]]]]]].
    split.
    + assert (Hc : captures p = true).
      { destruct patterns_capture as [_ [_ [Hall _]]].
        rewrite forallb_forall in Hall. now apply Hall. }
      destruct (search_group true p text m Hc Hm) as [t [Ht' [_ Ho]]].
      assert (t = s) by congruence. now subst t.
    + exists d. split; [exact Hd|]. split; [exact Ht|].
      intros Hnone. rewrite Hl in Hnone. discriminate.
  - split; [exact Hhas|].
    destruct (generic_dates_found _ _ _ _ _ Hg) as [p [d [Hp [Hin [Hd [Hy Ht]]]]]].
    split.
    + assert (Hc : captures p = true).
      { destruct patterns_capture as [_ [_ [_ [Hall _]]]].
        rewrite forallb_forall in Hall. now apply Hall. }
      exact (proj2 (findall_lang false p text s Hc Hin)).
    + exists d. split; [exact Hd|]. split; [exact Ht|]. intros _. exact Hy.
Qed.

Lemma returned_date_was_parsed_witness :
  occurs_in "2024-03-07" march_text
  /\ exists d,
      dateparser_parse Sample.two_dates "2024-03-07" = Ret (Some d)
      /\ (2020 <= year Sample.two_dates d <= 2030)%Z.
Proof.
  destruct (returned_date_was_parsed true Sample.two_dates march_text
              "2024-03-07" 1709769600%Z eq_refl) as [_ [Ho [d [Hd [_ Hy]]]]].
  split; [exact Ho|]. exists d. split; [exact Hd | exact (Hy eq_refl)].
Defined.

Lemma labeled_totals_found (text g : string) (d : Dec.t) : forall patterns,
  labeled_totals patterns text = Ret (Some (g, d)) ->
  exists p m, In p patterns /\ search true p text = Some m /\ group1 m = Some g.
Proof.
  induction patterns as [|p ps IH]; simpl; intros H; [discriminate|].
  assert (Hrest : labeled_totals ps text = Ret (Some (g, d)) ->
            exists p' m, (p = p' \/ In p' ps) /\ search true p' text = Some m
                         /\ group1 m = Some g).
  { intros H'. destruct (IH H') as [p' [m [Hin Hrest]]].
    exists p', m. split; [now right | exact Hrest]. }
  destruct (search true p text) as [m|] eqn:E; [|exact (Hrest H)].
  destruct (group1 m) as [t|] eqn:G; [|discriminate].
  destruct (Dec.of_string (Str.remove "," t)) as [d'|x] eqn:D; simpl in H.
  - inversion H; subst t d'. exists p, m. split; [now left|]. now split.
  - rewrite (of_string_raises _ _ D) in H. simpl in H. exact (Hrest H).
Qed.

Lemma largest_amount_found (text g : string) (d : option Dec.t) :
  largest_amount text = Ret (Some g, d) ->
  In g (findall false currency_pattern text).
Proof.
  intros H. pose proof (largest_amount_spec text) as Hl. cbv zeta in Hl.
  destruct (collect_amounts (findall false currency_pattern text))
    as [|a amounts] eqn:E.
  - rewrite Hl in H. discriminate.
  - destruct Hl as [x [Hx [i [Hi _]]]]. rewrite Hx in H. inversion H; subst g.
    apply nth_error_In in Hi. rewrite <- E in Hi.
    exact (proj1 (collect_amounts_spec _ _ Hi)).
Qed.

(** X12.  Every text field that an extractor returns stands in the text it
    was given, character for character: the invoice number, the date
    string, the amount string (with its separators) and the vendor are
    parts of the text; nothing is normalised or made up. *)
Theorem extracted_fields_occur_in_text (has : bool) (lib : DateLib) (text : string) :
  (forall v, parse_invoice_number text = Ret (Some v) -> occurs_in v text)
  /\ (forall s ts, parse_date has lib text = Ret (Some s, Some ts) ->
        occurs_in s text)
  /\ (forall g d, parse_amount text = Ret (Some g, d) -> occurs_in g text)
  /\ (forall v, parse_vendor text = Some v -> occurs_in v text).
Proof.
  split; [|split; [|split]].
  - intros v H. unfold parse_invoice_number in H.
    destruct (invoice_number_loop_shape text v invoice_patterns (fun p Hp => Hp) H)
      as [p [g [_ [_ [Ho ->]]]]].
    exact (occurs_in_trans _ _ _ (strip_occurs g) Ho).
  - intros s ts H.
    destruct (parse_date_cases _ _ _ _ _ H) as [_ [Hl | [_ Hg]]].
    + destruct (labeled_dates_found _ _ _ _ _ Hl) as [p [m [d [Hp [Hm [Hg _]]]]]].
      assert (Hc : captures p = true).
      { destruct patterns_capture as [_ [_ [Hall _]]].
        rewrite forallb_forall in Hall. now apply Hall. }
      destruct (search_group true p text m Hc Hm) as [t [Ht [_ Ho]]].
      assert (t = s) by congruence. now subst t.
    + destruct (generic_dates_found _ _ _ _ _ Hg) as [p [d [Hp [Hin _]]]].
      assert (Hc : captures p = true).
      { destruct patterns_capture as [_ [_ [_ [Hall _]]]].
        rewrite forallb_forall in Hall. now apply Hall. }
      exact (proj2 (findall_lang false p text s Hc Hin)).
  - intros g d H. unfold parse_amount in H.
    destruct (labeled_totals total_patterns text) as [[[g' d']|]|x] eqn:L;
      cbn [bind] in H; [| |discriminate].
    + inversion H; subst g'.
      destruct (labeled_totals_found _ _ _ _ L) as [p [m [Hp [Hm Hg]]]].
      assert (Hc : captures p = true).
      { destruct patterns_capture as [_ [Hall _]].
        rewrite forallb_forall in Hall. now apply Hall. }
      destruct (search_group true p text m Hc Hm) as [t [Ht [_ Ho]]].
      assert (t = g) by congruence. now subst t.
    + pose proof (largest_amount_found _ _ _ H) as Hin.
      exact (proj2 (findall_lang false currency_pattern text g eq_refl Hin)).
  - intros v H. unfold parse_vendor in H. rewrite vendor_loop_find in H.
    apply find_some in H. destruct H as [Hin _].
    apply in_map_iff in Hin. destruct Hin as [line [<- Hline]].
    apply firstn_incl in Hline.
    exact (occurs_in_trans _ _ _ (strip_occurs line) (split_occurs _ _ _ Hline)).
Qed.

End Provenance.

(** ** The comparison of invoice numbers *)

Section NumberComparison.
Import Py Re Acquire Reconcile Spec More ReFacts.
Local Open Scope py_scope.

Lemma codes_eqb_eq (a b : list N) : codes_eqb a b = true <-> a = b.
Proof.
  revert b. induction a as [|x a IH]; intros [|y b]; simpl;
    try (split; [discriminate | discriminate]); [tauto|].
  rewrite andb_true_iff, N.eqb_eq, IH. split.
  - intros [-> ->]. reflexivity.
  - intros H. inversion H. now split.
Qed.

Lemma upper_char_ascii (c : ascii) :
  is_ascii c = true -> Str.upper_char c = [Chars.code (Chars.upper c)].
Proof.
  destruct c as [[] [] [] [] [] [] [] []]; intros H;
    first [discriminate H | reflexivity].
Qed.

Lemma code_inj (c d : ascii) : Chars.code c = Chars.code d -> c = d.
Proof.
  unfold Chars.code. intros H.
  rewrite <- (ascii_N_embedding c), <- (ascii_N_embedding d). now rewrite H.
Qed.

Lemma upper_ascii (s : string) :
  all_chars is_ascii s = true ->
  Str.upper s = map Chars.code (list_ascii_of_string (ascii_upper s)).
Proof.
  induction s as [|c s IH]; simpl; [reflexivity|]. intros H.
  apply andb_true_iff in H. destruct H as [Hc Hs].
  now rewrite (upper_char_ascii c Hc), (IH Hs).
Qed.

Lemma codes_inj (s t : string) :
  map Chars.code (list_ascii_of_string s) = map Chars.code (list_ascii_of_string t) ->
  s = t.
Proof.
  revert t. induction s as [|c s IH]; intros [|d t]; simpl; intros H;
    try discriminate; [reflexivity|].
  inversion H as [[Hc Hs]]. now rewrite (code_inj _ _ Hc), (IH _ Hs).
Qed.

(** X13.  Invoice numbers are compared as written, except for the case of
    letters: for two numbers of ASCII characters that count as true, the
    number block leaves the issue list as it is if and only if the numbers
    are equal once their letters a-z are put in upper case; otherwise it
    appends one "invoice_number" warning that carries both numbers as
    given.  Spaces, hyphens and leading zeros all count. *)
Theorem number_comparison_ignores_case_only (e : result) (b : bill)
        (issues : list issue) (number bill_number : string) :
  get truthy_string (invoice_number e) = Some number ->
  get truthy_string (BillNumber b) = Some bill_number ->
  all_chars is_ascii number = true ->
  all_chars is_ascii bill_number = true ->
  (compare_invoice_number e b issues = Ret issues
   <-> ascii_upper number = ascii_upper bill_number)
  /\ (ascii_upper number <> ascii_upper bill_number ->
      exists i,
        compare_invoice_number e b issues = Ret (issues ++ [i])%list
        /\ field i = "invoice_number" /\ severity i = "WARNING"
        /\ pdf_value i = VStr number /\ bill_value i = VStr bill_number).
Proof.
  intros G1 G2 A1 A2. unfold compare_invoice_number. rewrite G1, G2.
  rewrite (upper_ascii _ A1), (upper_ascii _ A2).
  destruct (codes_eqb _ _) eqn:E; cbn [negb].
  - apply codes_eqb_eq, codes_inj in E. split; [tauto|]. intros H. contradiction.
  - assert (Hne : ascii_upper number <> ascii_upper bill_number).
    { intros H. rewrite H in E.
      assert (T : codes_eqb (map Chars.code (list_ascii_of_string (ascii_upper bill_number)))
                    (map Chars.code (list_ascii_of_string (ascii_upper bill_number)))
                  = true) by now apply codes_eqb_eq.
      rewrite T in E. discriminate. }
    split.
    + split; [|intros H; contradiction].
      intros H. inversion H as [Hl].
      apply (f_equal (@List.length issue)) in Hl.
      rewrite List.length_app in Hl. simpl in Hl. lia.
    + intros _. eexists. split; [reflexivity|]. repeat split.
Qed.

Lemma number_comparison_ignores_case_only_witness :
  compare_invoice_number
    {| file := "invoice.pdf"; extraction_method := Some "pdfplumber";
       invoice_number := Some "inv-2024-001"; date_string := None;
       date_timestamp := None; amount_string := None; amount_decimal := None;
       vendor := None; raw_text_preview := None; errors := [] |}
    {| BillNumber := Some "INV-2024-001"; Amount := None; BillDate := None |} []
  = Ret [].
Proof.
  apply (number_comparison_ignores_case_only
           {| file := "invoice.pdf"; extraction_method := Some "pdfplumber";
              invoice_number := Some "inv-2024-001"; date_string := None;
              date_timestamp := None; amount_string := None; amount_decimal := None;
              vendor := None; raw_text_preview := None; errors := [] |}
           {| BillNumber := Some "INV-2024-001"; Amount := None; BillDate := None |}
           [] "inv-2024-001" "INV-2024-001" eq_refl eq_refl eq_refl eq_refl).
  reflexivity.
Defined.

End NumberComparison.

(** ** The pages of a document *)

Section Pages.
Import Py Re Acquire Reconcile Spec More ReFacts.
Local Open Scope py_scope.

Lemma concat_cons (sep x : string) (xs : list string) :
  String.concat sep (x :: xs)
  = match xs with [] => x | _ :: _ => x ++ sep ++ String.concat sep xs end.
Proof. destruct xs; reflexivity. Qed.

Lemma join_occurs (sep : string) : forall parts p,
  In p parts -> occurs_in p (Str.join sep parts).
Proof.
  unfold Str.join. induction parts as [|x xs IH]; intros p H; [contradiction|].
  rewrite concat_cons. destruct H as [<- | H].
  - destruct xs; [apply occurs_in_refl|]. now exists "", (sep ++ String.concat sep (s :: xs)).
  - destruct xs as [|y ys]; [contradiction|].
    apply (occurs_in_suffix p _ (x ++ sep)) in IH; [|exact H].
    now rewrite app_assoc in IH.
Qed.

Lemma join_empty (sep : string) : forall parts,
  (forall p, In p parts -> p <> EmptyString) ->
  Str.join sep parts = EmptyString -> parts = [].
Proof.
  unfold Str.join. intros [|x xs] Hne H; [reflexivity|].
  rewrite concat_cons in H. assert (Hx : x <> "") by (apply Hne; now left).
  destruct x; [contradiction|]. destruct xs; discriminate.
Qed.

(** What [join_pages] keeps of the pages. *)
Lemma join_pages_spec (pages : list string) :
  (forall page, In page pages -> page <> "" -> occurs_in page (join_pages pages))
  /\ (join_pages pages = "" <-> forall page, In page pages -> page = "").
Proof.
  unfold join_pages. split; [|split].
  - intros page Hin Hne. apply join_occurs. apply filter_In.
    split; [exact Hin | now destruct page].
  - intros H page Hin. apply join_empty in H.
    + destruct page as [|c page]; [reflexivity|].
      assert (Hf : In (String c page) (filter Dec.nonempty pages))
        by (apply filter_In; now split).
      rewrite H in Hf. contradiction.
    + intros p Hp. apply filter_In in Hp. destruct Hp as [_ Hp]. now destruct p.
  - intros Hall.
    replace (filter Dec.nonempty pages) with (@nil string); [reflexivity|].
    symmetry. induction pages as [|p ps IH]; [reflexivity|].
    simpl. rewrite (Hall p (or_introl eq_refl)). simpl.
    apply IH. intros q Hq. apply Hall. now right.
Qed.

(** X14.  Each tier returns the pages that have text and swallows a
    failure: every page with text is a part of the text the tier returns
    (pages without text add nothing, not even a separator), and the tier
    returns the empty text exactly when its library is missing, the library
    raised, or no page has text.  The same holds for the structured tier
    and for recognition. *)
Theorem pages_with_text_are_kept (caps : Capabilities) (pdf_path : string) :
  let structured := fst (extract_text_pdfplumber caps pdf_path) in
  let recognised := fst (extract_text_ocr caps pdf_path) in
  (forall pages page,
      HAS_PDFPLUMBER caps = true ->
      pdfplumber_pages caps pdf_path = Ret pages ->
      In page pages -> page <> "" -> occurs_in page structured)
  /\ (structured = "" <->
      HAS_PDFPLUMBER caps = false
      \/ (exists x, pdfplumber_pages caps pdf_path = Raise x)
      \/ (exists pages, pdfplumber_pages caps pdf_path = Ret pages
                        /\ forall page, In page pages -> page = ""))
  /\ (forall pages page,
      HAS_OCR caps = true ->
      ocr_pages caps pdf_path = Ret pages ->
      In page pages -> page <> "" -> occurs_in page recognised)
  /\ (recognised = "" <->
      HAS_OCR caps = false
      \/ (exists x, ocr_pages caps pdf_path = Raise x)
      \/ (exists pages, ocr_pages caps pdf_path = Ret pages
                        /\ forall page, In page pages -> page = "")).
Proof.
  cbv zeta.
  assert (Htier : forall (has : bool) (got : res (list string)) (prefix : string)
                         (ev : event),
            let text := fst (if negb has then ("", [])
                             else match got with
                                  | Ret pages => (join_pages pages, [ev])
                                  | Raise x => ("", [ev; Diagnostic prefix x])
                                  end) in
            (forall pages page, has = true -> got = Ret pages ->
                                In page pages -> page <> "" -> occurs_in page text)
            /\ (text = "" <->
                has = false \/ (exists x, got = Raise x)
                \/ (exists pages, got = Ret pages
                                  /\ forall page, In page pages -> page = ""))).
  { intros has got prefix ev. cbv zeta. destruct has; cbn [negb fst].
    - destruct got as [pages|x]; cbn [fst].
      + destruct (join_pages_spec pages) as [Hocc Hempty]. split.
        * intros ps page _ E. inversion E; subst ps. apply Hocc.
        * split.
          -- intros H. right. right. exists pages. split; [reflexivity|].
             now apply Hempty.
          -- intros [H | [[x H] | [ps [E Hall]]]]; try discriminate.
             inversion E; subst ps. now apply Hempty.
      + split; [intros ps page _ E; discriminate|].
        split; [intros _; right; left; now exists x | reflexivity].
    - split; [intros ps page E; discriminate|].
      split; [intros _; now left | reflexivity]. }
  destruct (Htier (HAS_PDFPLUMBER caps) (pdfplumber_pages caps pdf_path)
              "pdfplumber error: " Structured_invoked) as [H1 H2].
  destruct (Htier (HAS_OCR caps) (ocr_pages caps pdf_path)
              "OCR error: " Recognition_invoked) as [H3 H4].
  split; [exact H1|]. split; [exact H2|]. split; [exact H3 | exact H4].
Qed.

End Pages.

(** ** A float as [str] writes it and [Decimal] reads it *)

Section FloatText.
Import Py Re Acquire Reconcile Spec More ReFacts DecFacts.
Local Open Scope py_scope.

Lemma digit_char_decimal (k : N) : (k < 10)%N -> Chars.isdecimal (Digits.digit_char k) = true.
Proof.
  intros H.
  assert (C : (k = 0 \/ k = 1 \/ k = 2 \/ k = 3 \/ k = 4 \/ k = 5 \/ k = 6
               \/ k = 7 \/ k = 8 \/ k = 9)%N) by lia.
  destruct C as [-> | [-> | [-> | [-> | [-> | [-> | [-> | [-> | [-> | ->]]]]]]]]];
    reflexivity.
Qed.

Lemma rev_digits_decimal : forall fuel n,
  forallb Chars.isdecimal (Digits.rev_digits fuel n) = true.
Proof.
  induction fuel as [|fuel IH]; intros n; simpl; [reflexivity|].
  destruct (N.ltb_spec n 10).
  - simpl. now rewrite digit_char_decimal.
  - simpl. rewrite digit_char_decimal, IH; [reflexivity|].
    apply N.mod_lt. discriminate.
Qed.

Lemma all_chars_of_list (P : ascii -> bool) (l : list ascii) :
  all_chars P (string_of_list_ascii l) = forallb P l.
Proof. induction l as [|c l IH]; simpl; [reflexivity | now rewrite IH]. Qed.

Lemma show_digits (n : N) :
  all_chars Chars.isdecimal (Digits.show n) = true /\ Digits.show n <> "".
Proof.
  unfold Digits.show. set (fuel := N.to_nat (N.log2 n)). split.
  - rewrite all_chars_of_list, forallb_forall. intros c Hc.
    apply in_rev in Hc.
    pose proof (rev_digits_decimal (S fuel) n) as H.
    rewrite forallb_forall in H. now apply H.
  - assert (Hne : Digits.rev_digits (S fuel) n <> [])
      by (simpl; destruct (n <? 10)%N; discriminate).
    destruct (Digits.rev_digits (S fuel) n) as [|a l]; [contradiction|]. simpl.
    destruct (rev l); discriminate.
Qed.

Lemma zeros_digits (n : nat) : all_chars Chars.isdecimal (Digits.zeros n) = true.
Proof. induction n as [|n IH]; simpl; [reflexivity | exact IH]. Qed.

Lemma all_chars_substring (P : ascii -> bool) : forall s i n,
  all_chars P s = true -> all_chars P (substring i n s) = true.
Proof.
  induction s as [|c s IH]; intros i n H.
  - destruct i, n; reflexivity.
  - simpl in H. apply andb_true_iff in H. destruct H as [Hc Hs].
    destruct i as [|i]; simpl.
    + destruct n as [|n]; [reflexivity|]. simpl. now rewrite Hc, IH.
    + now apply IH.
Qed.

Lemma all_digits_chars (s : string) :
  Digits.all_digits s = all_chars Chars.isdecimal s.
Proof. induction s as [|c s IH]; simpl; [reflexivity | now rewrite IH]. Qed.

Lemma span_digits_stop (d r : string) :
  all_chars Chars.isdecimal d = true ->
  match r with String c _ => Chars.isdecimal c = false | EmptyString => True end ->
  Dec.span_digits (d ++ r) = (d, r).
Proof.
  intros Hd Hr. induction d as [|c d IH]; simpl.
  - destruct r as [|c r]; simpl; [reflexivity | now rewrite Hr].
  - simpl in Hd. apply andb_true_iff in Hd. destruct Hd as [Hc Hd].
    now rewrite Hc, (IH Hd).
Qed.

Lemma digit_not_sign (c : ascii) (r : string) :
  Chars.isdecimal c = true -> Dec.parse_sign (String c r) = (false, String c r).
Proof.
  destruct c as [[] [] [] [] [] [] [] []]; intros H;
    first [discriminate H | reflexivity].
Qed.

Lemma numeral_char_plain (c : ascii) :
  numeral_char c = true ->
  negb (Chars.isspace c) = true /\ negb (Ascii.eqb c "_") = true.
Proof.
  destruct c as [[] [] [] [] [] [] [] []]; intros H;
    first [discriminate H | split; reflexivity].
Qed.

Lemma digits_numeral (s : string) :
  all_chars Chars.isdecimal s = true -> all_chars numeral_char s = true.
Proof.
  apply all_chars_weaken. intros c Hc. unfold numeral_char. now rewrite Hc.
Qed.

(** An exponent as [repr] writes it: nothing, or [e], a sign and digits. *)
Lemma parse_exponent_text (sg : ascii) (ex : string) :
  (sg = "+" \/ sg = "-")%char ->
  all_chars Chars.isdecimal ex = true -> ex <> "" ->
  exists e, Dec.parse_exponent (String "e" (String sg ex)) = Some e.
Proof.
  intros Hsg Hex Hne. unfold Dec.parse_exponent.
  change (Ascii.eqb (Chars.lower "e") "e") with true. cbv iota.
  assert (Hs : Dec.parse_sign (String sg ex) = (sg =? "-", ex)%char)
    by (destruct Hsg as [-> | ->]; reflexivity).
  rewrite Hs, all_digits_chars, Hex.
  destruct ex; [contradiction|]. simpl. now eexists.
Qed.

(** The text of a number: digits, perhaps a point and digits, perhaps an
    exponent, reads as a finite decimal with the sign it was given. *)
Lemma of_string_number (neg point : bool) (ip fp tail : string) :
  all_chars Chars.isdecimal ip = true -> ip <> "" ->
  all_chars Chars.isdecimal fp = true ->
  (tail = ""
   \/ exists sg ex, tail = String "e" (String sg ex) /\ (sg = "+" \/ sg = "-")%char
                    /\ all_chars Chars.isdecimal ex = true /\ ex <> "") ->
  exists c q,
    Dec.of_string ((if neg then "-" else "")
                   ++ ip ++ (if point then String "." fp else "") ++ tail)
    = Ret (Dec.Fin neg c q).
Proof.
  intros Hip Hne Hfp Htail.
  set (mid := if point then String "." fp else "").
  assert (Hmid : all_chars numeral_char mid = true).
  { unfold mid. destruct point; [|reflexivity]. simpl. now apply digits_numeral. }
  assert (Htl : all_chars numeral_char tail = true).
  { destruct Htail as [-> | [sg [ex [-> [Hsg [Hex _]]]]]]; [reflexivity|].
    simpl. rewrite (digits_numeral _ Hex).
    destruct Hsg as [-> | ->]; reflexivity. }
  assert (Hall : all_chars numeral_char
                   ((if neg then "-" else "") ++ ip ++ mid ++ tail) = true).
  { rewrite !all_chars_app, (digits_numeral _ Hip), Hmid, Htl.
    now destruct neg. }
  unfold Dec.of_string.
  rewrite strip_no_space
    by (apply (all_chars_weaken numeral_char);
        [intros c Hc; apply numeral_char_plain, Hc | exact Hall]).
  rewrite remove_absent
    by (apply (all_chars_weaken numeral_char);
        [intros c Hc; apply numeral_char_plain, Hc | exact Hall]).
  assert (Hsign : Dec.parse_sign ((if neg then "-" else "") ++ ip ++ mid ++ tail)
                  = (neg, ip ++ mid ++ tail)).
  { destruct neg; [reflexivity|]. simpl.
    destruct ip as [|c ip]; [contradiction|]. simpl in Hip.
    apply andb_true_iff in Hip. destruct Hip as [Hc _].
    simpl. now apply digit_not_sign. }
  rewrite Hsign. unfold Dec.parse_finite.
  assert (Hstop : match tail with
                  | String c _ => Chars.isdecimal c = false
                  | EmptyString => True
                  end).
  { destruct Htail as [-> | [sg [ex [-> _]]]]; [exact I | reflexivity]. }
  assert (Hexp : exists e, Dec.parse_exponent tail = Some e).
  { destruct Htail as [-> | [sg [ex [-> [Hsg [Hex Hn]]]]]]; [now exists 0%Z|].
    now apply parse_exponent_text. }
  destruct Hexp as [e He].
  assert (Hnon : forall f, Dec.nonempty (ip ++ f) = true).
  { intros f. destruct ip; [contradiction | reflexivity]. }
  unfold mid. destruct point.
  - rewrite span_digits_stop; [|exact Hip | reflexivity].
    cbn [append]. rewrite (span_digits_stop fp tail Hfp Hstop).
    rewrite Hnon, He. now eexists; eexists.
  - cbn [append].
    rewrite span_digits_stop; [|exact Hip | exact Hstop].
    assert (Hm : match tail with
                 | String "." r => Dec.span_digits r
                 | _ => (EmptyString, tail)
                 end = (EmptyString, tail)).
    { destruct Htail as [-> | [sg [ex [-> _]]]]; reflexivity. }
    rewrite Hm, Hnon, He. now eexists; eexists.
Qed.

Lemma show_exponent_text (x : Z) :
  exists sg ex, F64.show_exponent x = String sg ex
                /\ (sg = "+" \/ sg = "-")%char
                /\ all_chars Chars.isdecimal ex = true /\ ex <> "".
Proof.
  unfold F64.show_exponent.
  destruct (show_digits (Z.abs_N x)) as [Hd Hne].
  set (a := Digits.show (Z.abs_N x)) in *.
  exists (if (x <? 0)%Z then "-" else "+")%char,
         ((if (String.length a <? 2)%nat then "0" else "") ++ a).
  split; [now destruct (x <? 0)%Z|].
  split; [destruct (x <? 0)%Z; tauto|].
  split.
  - rewrite all_chars_app, Hd. now destruct (String.length a <? 2)%nat.
  - destruct (String.length a <? 2)%nat; [discriminate | exact Hne].
Qed.

Lemma substring_nonempty (s : string) (n : nat) :
  s <> "" -> (0 < n)%nat -> substring 0 n s <> "".
Proof. destruct s, n; simpl; try lia; try contradiction; discriminate. Qed.

(** [Decimal(str(x))] for a finite float: a finite decimal of its sign. *)
Lemma to_string_parses (neg : bool) (m : N) (e : Z) :
  exists c q,
    Dec.of_string (F64.to_string (F64.Fin neg m e)) = Ret (Dec.Fin neg c q).
Proof.
  unfold F64.to_string.
  destruct (m =? 0)%N.
  - destruct neg; now eexists; eexists.
  - destruct (F64.shortest F64.up_to_17 m e) as [c q].
    destruct (show_digits (Z.to_N c)) as [Hd Hne].
    set (ds := Digits.show (Z.to_N c)) in *.
    set (len := Z.of_nat (String.length ds)).
    set (decpt := (len + q)%Z).
    destruct ((decpt <=? -4)%Z || (16 <? decpt)%Z).
    + destruct (show_exponent_text (decpt - 1)) as [sg [ex [Hx [Hsg [Hex Hxne]]]]].
      rewrite Hx.
      apply (of_string_number neg (1 <? len)%Z (Str.take 1 ds)
               (substring 1 (String.length ds) ds) (String "e" (String sg ex))).
      * now apply all_chars_substring.
      * apply substring_nonempty; [exact Hne | lia].
      * now apply all_chars_substring.
      * right. exists sg, ex. now repeat split.
    + destruct (decpt <=? 0)%Z eqn:D0.
      * destruct (of_string_number neg true "0"
                    (Digits.zeros (Z.to_nat (- decpt)) ++ ds) "")
          as [c' [q' H]];
          [reflexivity | discriminate
           | now rewrite all_chars_app, zeros_digits, Hd | now left |].
        exists c', q'. rewrite <- H. simpl. now rewrite app_empty_r.
      * destruct (len <=? decpt)%Z eqn:L.
        -- destruct (of_string_number neg true
                       (ds ++ Digits.zeros (Z.to_nat (decpt - len))) "0" "")
             as [c' [q' H]];
             [now rewrite all_chars_app, zeros_digits, Hd
             | destruct ds; [contradiction | discriminate]
             | reflexivity | now left |].
           exists c', q'. rewrite <- H. simpl. now rewrite app_assoc.
        -- apply Z.leb_gt in L.
           destruct (of_string_number neg true (Str.take (Z.to_nat decpt) ds)
                       (substring (Z.to_nat decpt) (String.length ds) ds) "")
             as [c' [q' H]];
             [now apply all_chars_substring
             | apply substring_nonempty; [exact Hne | apply Z.leb_gt in D0; lia]
             | now apply all_chars_substring | now left |].
           exists c', q'. rewrite <- H. simpl. now rewrite app_empty_r.
Qed.

End FloatText.

(** ** A record with the values of the result *)

Section OwnValues.
Import Py Re Acquire Reconcile Spec More Sample ReFacts DecFacts.
Local Open Scope py_scope.

(** The amount block on two amounts that read as the same finite decimal. *)
Lemma same_decimal_passes (n : bool) (c : N) (e : Z) :
  (difference <- Dec.sub (Dec.Fin n c e) (Dec.Fin n c e) ;;
   distance <- Dec.abs difference ;;
   cent <- Dec.of_string "0.01" ;;
   Dec.gt distance cent) = Ret false.
Proof.
  unfold Dec.sub. cbv zeta. rewrite Z.min_id, (Z.sub_diag e), Z.sub_diag.
  change (Z.abs_N 0) with 0%N.
  set (neg := if ((c =? 0) && (c =? 0))%N then n && negb n else (0 <? 0)%Z).
  unfold Dec.fix_ at 1. cbn [N.eqb bind]. unfold Dec.abs, Dec.fix_.
  cbn [N.eqb bind].
  change (Dec.of_string "0.01") with (Ret (Dec.Fin false 1 (-2))). cbn [bind].
  unfold Dec.gt, Dec.compare, Dec.compare_fin, Dec.signed. cbn [bind].
  set (E := Z.max Dec.Etiny (Z.min (Z.max Dec.Etiny (Z.min e Dec.Emax)) Dec.Emax)).
  assert (H : (0 < 10 ^ (-2 - Z.min E (-2)))%Z) by (apply Z.pow_pos_nonneg; lia).
  change (Z.of_N 0) with 0%Z. change (Z.of_N 1) with 1%Z.
  rewrite Z.mul_0_l, Z.mul_1_l.
  destruct (0 ?= 10 ^ (-2 - Z.min E (-2)))%Z eqn:C; try reflexivity.
  change (0 > 10 ^ (-2 - Z.min E (-2)))%Z in C. lia.
Qed.

Lemma compare_amount_same (r : result) (issues : list issue) :
  (forall x, amount_decimal r = Some x -> exists n m e, x = F64.Fin n m e) ->
  compare_amount r (bill_of r) issues = Ret issues.
Proof.
  intros Hfin. unfold compare_amount, bill_of. cbn [Amount].
  destruct (amount_decimal r) as [x|] eqn:A; [|reflexivity].
  destruct (Hfin x eq_refl) as [n [m [e ->]]]. cbn [get option_map truthy_number].
  destruct (F64.truthy (F64.Fin n m e)); [|reflexivity].
  cbn [number_to_string].
  destruct (to_string_parses n m e) as [c [q H]]. rewrite H. cbn [bind].
  pose proof (same_decimal_passes n c q) as P.
  destruct (Dec.sub (Dec.Fin n c q) (Dec.Fin n c q)) as [d|y]; [|discriminate].
  cbn [bind] in P |- *.
  destruct (Dec.abs d) as [d'|y]; [|discriminate]. cbn [bind] in P |- *.
  destruct (Dec.of_string "0.01") as [cent|y]; [|discriminate].
  cbn [bind] in P |- *. rewrite P. reflexivity.
Qed.

Lemma compare_amount_not_finite (r : result) (issues : list issue) (x : F64.t) :
  amount_decimal r = Some x ->
  (forall n m e, x <> F64.Fin n m e) ->
  compare_amount r (bill_of r) issues = Raise InvalidOperation.
Proof.
  intros A Hx. unfold compare_amount, bill_of. cbn [Amount]. rewrite A.
  destruct x as [n m e | n |]; [now contradiction (Hx n m e) | |].
  - destruct n; reflexivity.
  - reflexivity.
Qed.

Lemma compare_number_same (r : result) (issues : list issue) :
  compare_invoice_number r (bill_of r) issues = Ret issues.
Proof.
  unfold compare_invoice_number, bill_of. cbn [BillNumber].
  destruct (get truthy_string (invoice_number r)) as [number|]; [|reflexivity].
  now rewrite (proj2 (codes_eqb_eq _ _) eq_refl).
Qed.

Lemma compare_date_same (utcoffset : Z -> Z) (r : result) (issues : list issue) :
  compare_date utcoffset r (bill_of r) issues = Ret issues.
Proof.
  unfold compare_date, bill_of. cbn [BillDate].
  destruct (get truthy_int (date_timestamp r)) as [ts|]; [|reflexivity].
  rewrite Z.sub_diag. reflexivity.
Qed.

(** X15.  A bill record that holds the very values of an extraction result
    reconciles with it: the engine returns the empty list, whatever the
    invoice number, the date and a finite amount are; the float of the
    amount is written by [str] and read back by [Decimal] on both sides.
    An amount that is not finite (an infinity or a NaN) makes the engine
    raise [InvalidOperation] instead. *)
Theorem own_values_reconcile (utcoffset : Z -> Z) (r : result) :
  ((forall x, amount_decimal r = Some x -> exists n m e, x = F64.Fin n m e) ->
   compare_with_bill utcoffset r (bill_of r) = Ret [])
  /\ (forall x, amount_decimal r = Some x ->
                (forall n m e, x <> F64.Fin n m e) ->
                compare_with_bill utcoffset r (bill_of r) = Raise InvalidOperation).
Proof.
  unfold compare_with_bill. rewrite compare_number_same. cbn [bind]. split.
  - intros Hfin. rewrite (compare_amount_same r [] Hfin). cbn [bind].
    apply compare_date_same.
  - intros x A Hx. now rewrite (compare_amount_not_finite r [] x A Hx).
Qed.

Lemma own_values_reconcile_witness :
  compare_with_bill utc
    {| file := "invoice.pdf"; extraction_method := Some "pdfplumber";
       invoice_number := Some "inv-1"; date_string := Some "11/14/2023";
       date_timestamp := Some 1700000000%Z; amount_string := Some "100.00";
       amount_decimal := Some hundred; vendor := Some "Acme Tools Ltd";
       raw_text_preview := None; errors := [] |}
    {| BillNumber := Some "inv-1"; Amount := Some (Float hundred);
       BillDate := Some 1700000000%Z |}
  = Ret [].
Proof.
  apply (proj1 (own_values_reconcile utc
    {| file := "invoice.pdf"; extraction_method := Some "pdfplumber";
       invoice_number := Some "inv-1"; date_string := Some "11/14/2023";
       date_timestamp := Some 1700000000%Z; amount_string := Some "100.00";
       amount_decimal := Some hundred; vendor := Some "Acme Tools Ltd";
       raw_text_preview := None; errors := [] |})).
  intros x H. inversion H. unfold hundred. now eexists; eexists; eexists.
Defined.

End OwnValues.

(** ** The report of a run *)

Section ReportFacts.
Import Py Re Patterns Extract Acquire Reconcile Spec More Report Sample.
Import ReFacts DecFacts ExtractFacts AcquireFacts.
Local Open Scope py_scope.

Lemma date_shape_nonempty (ic : bool) (p : regex) (s : string) :
  In p date_patterns \/ In p generic_patterns ->
  group_lang ic p s -> s <> "".
Proof.
  unfold date_patterns, generic_patterns.
  intros [[<- | [<- | [<- | []]]] | [<- | [<- | [<- | []]]]] H;
    simpl in H;
    repeat match goal with
           | H : _ \/ _ |- _ => destruct H as [H | H]
           | H : False |- _ => destruct H
           end;
    destruct H as [w1 [w2 [-> [[_ [Hlen _]] _]]]];
    (destruct w1; [simpl in Hlen; lia | discriminate]).
Qed.

Lemma invoice_number_nonempty (text v : string) :
  parse_invoice_number text = Ret (Some v) -> v <> "".
Proof.
  intros H. unfold parse_invoice_number in H.
  destruct (invoice_number_loop_shape text v invoice_patterns (fun p Hp => Hp) H)
    as [p [g [Hp [Hl [_ Hv]]]]].
  destruct (invoice_patterns_token p g Hp Hl) as [n [_ Htok]].
  destruct (number_token_lang n g Htok) as [c [w [Hg [Hc [Hw _]]]]].
  assert (Hstrip : Str.strip g = g).
  { apply strip_no_space. rewrite Hg. simpl.
    assert (Hn : number_char c = true)
      by (unfold number_char; now rewrite (token_first c Hc)).
    rewrite (number_char_no_space c Hn). simpl.
    apply (all_chars_weaken (accepts true [Ch "-"; Rng "A" "Z"; Rng "0" "9"]));
      [|exact Hw].
    intros x Hx. now rewrite (number_char_no_space x (token_rest x Hx)). }
  rewrite Hstrip, Hg in Hv. subst v. discriminate.
Qed.

Lemma date_string_nonempty (has : bool) (lib : DateLib) (text s : string)
      (ts : option Z) :
  parse_date has lib text = Ret (Some s, ts) -> s <> "".
Proof.
  intros H.
  destruct ts as [ts|].
  - destruct (parse_date_cases _ _ _ _ _ H) as [_ [Hl | [_ Hg]]].
    + destruct (labeled_dates_found _ _ _ _ _ Hl) as [p [m [d [Hp [Hm [Hg _]]]]]].
      assert (Hc : captures p = true).
      { destruct patterns_capture as [_ [_ [Hall _]]].
        rewrite forallb_forall in Hall. now apply Hall. }
      destruct (search_group true p text m Hc Hm) as [t [Ht [Hlang _]]].
      assert (t = s) by congruence. subst t.
      exact (date_shape_nonempty true p s (or_introl Hp) Hlang).
    + destruct (generic_dates_found _ _ _ _ _ Hg) as [p [d [Hp [Hin _]]]].
      assert (Hc : captures p = true).
      { destruct patterns_capture as [_ [_ [_ [Hall _]]]].
        rewrite forallb_forall in Hall. now apply Hall. }
      exact (date_shape_nonempty false p s (or_intror Hp)
               (proj1 (findall_lang false p text s Hc Hin))).
  - destruct (parse_date_paired has lib text) as [ds [ts' [E [_ Hn]]]].
    rewrite E in H. inversion H; subst. discriminate (Hn eq_refl).
Qed.

Lemma vendor_nonempty (text v : string) : parse_vendor text = Some v -> v <> "".
Proof.
  unfold parse_vendor. rewrite vendor_loop_find. intros H.
  apply find_some in H. destruct H as [_ H]. unfold vendor_line in H.
  destruct v; [discriminate H | discriminate].
Qed.

Lemma take_take (n m : nat) : forall s,
  (n <= m)%nat -> Str.take n (Str.take m s) = Str.take n s.
Proof.
  unfold Str.take. revert m. induction n as [|n IH]; intros m s H.
  - destruct (substring 0 m s), s; reflexivity.
  - destruct m as [|m]; [lia|]. destruct s as [|c s]; [reflexivity|].
    simpl. rewrite IH by lia. reflexivity.
Qed.

Lemma or_not_found_present (s : option string) :
  (forall t, s = Some t -> t <> "") -> or_not_found s = or_absent s.
Proof.
  intros H. unfold or_not_found, or_absent. destruct s as [t|]; [|reflexivity].
  simpl. specialize (H t eq_refl). now destruct t.
Qed.

(** X16.  The report of a run: [main] has no handler around the
    extraction, so what the test of the path raises ends the run.  When
    the test answers, [main] prints the notes on missing packages, extracts,
    and in text mode prints eight entries: the six field lines, where NOT
    FOUND stands for an absent invoice number, date or vendor and for
    nothing else (a field that is present is never empty), followed either
    by the error section with the one error of the run, or by the preview
    section with the first 300 characters of the acquired text; never both,
    never neither. *)
Theorem report_of_an_extraction (json_dumps : result -> string)
        (caps : Capabilities) (pdf_file : string) :
  (forall x json, path_exists caps pdf_file = Raise x ->
                  main json_dumps caps pdf_file json = Raise x)
  /\ (forall found, path_exists caps pdf_file = Ret found ->
        exists r log,
          extract_invoice_data caps pdf_file = Ret (r, log)
          /\ main json_dumps caps pdf_file false
             = Ret (dependency_notes caps, log, report r)
          /\ fields_section r
             = [ "File: " ++ pdf_file;
                 "Extraction method: " ++ show_option (extraction_method r);
                 "Invoice #: " ++ or_absent (invoice_number r);
                 "Date: " ++ or_absent (date_string r);
                 amount_line r;
                 "Vendor: " ++ or_absent (vendor r) ]
          /\ ((exists err, errors r = [err]
                           /\ errors_section r
                              = [newline ++ "Errors:"; "  - " ++ err]
                           /\ preview_section r = [])
              \/ (errors r = []
                  /\ errors_section r = []
                  /\ preview_section r
                     = [ newline ++ "Text preview:" ++ newline
                           ++ repeat_string "-" 40;
                         Str.take 300 (acquired caps pdf_file) ]))
          /\ List.length (report r) = 8%nat).
Proof.
  split.
  { intros x json Hx. unfold main.
    now rewrite (extract_invoice_data_raises _ _ _ Hx). }
  assert (Hmain : forall r log, extract_invoice_data caps pdf_file = Ret (r, log) ->
            main json_dumps caps pdf_file false
            = Ret (dependency_notes caps, log, report r)).
  { intros r log H. unfold main. rewrite H. reflexivity. }
  unfold acquired. intros found Hex. destruct found.
  - destruct (extract_text caps pdf_file) as [[text method] log] eqn:Ht.
    cbn [fst snd]. destruct (Dec.nonempty text) eqn:Hne.
    + destruct (extract_invoice_data_fields _ _ _ _ _ Hex Ht Hne)
        as [r [amount [Hr [Hn [Hd [Ha Hf]]]]]].
      destruct (extract_invoice_data_meta _ _ _ _ _ Hex Ht Hne)
        as [r' [Hr' [Hfile [Hmeth [Hprev [Herr Hven]]]]]].
      rewrite Hr in Hr'. inversion Hr'; subst r'. clear Hr'.
      exists r, log. split; [exact Hr|]. split; [exact (Hmain _ _ Hr)|].
      assert (Hfields : fields_section r
                = [ "File: " ++ pdf_file;
                    "Extraction method: " ++ show_option (extraction_method r);
                    "Invoice #: " ++ or_absent (invoice_number r);
                    "Date: " ++ or_absent (date_string r);
                    amount_line r;
                    "Vendor: " ++ or_absent (vendor r) ]).
      { unfold fields_section. rewrite Hfile.
        rewrite (or_not_found_present (invoice_number r)),
                (or_not_found_present (date_string r)),
                (or_not_found_present (vendor r)); [reflexivity | | |].
        - intros t E. rewrite Hven in E. exact (vendor_nonempty _ _ E).
        - intros t E. rewrite E in Hd. exact (date_string_nonempty _ _ _ _ _ Hd).
        - intros t E. rewrite E in Hn. exact (invoice_number_nonempty _ _ Hn). }
      assert (Hpre : preview_section r
                = [ newline ++ "Text preview:" ++ newline ++ repeat_string "-" 40;
                    Str.take 300 text ]).
      { unfold preview_section. rewrite Hprev.
        assert (Hnon : Dec.nonempty (Str.take 500 text) = true)
          by (destruct text; [discriminate | reflexivity]).
        unfold get, truthy_string. rewrite Hnon, take_take by lia. reflexivity. }
      assert (Herrs : errors_section r = [])
        by (unfold errors_section; now rewrite Herr).
      split; [exact Hfields|]. split.
      * right. now repeat split.
      * unfold report. rewrite Hfields, Herrs, Hpre. reflexivity.
    + pose proof (extract_invoice_data_no_text _ _ _ _ _ Hex Ht Hne) as Hr.
      eexists. eexists. split; [exact Hr|].
      split; [exact (Hmain _ _ Hr)|].
      split; [reflexivity|]. split; [|reflexivity].
      left. eexists. repeat split.
  - pose proof (extract_invoice_data_missing _ _ Hex) as Hr.
    eexists. eexists. split; [exact Hr|].
    split; [exact (Hmain _ _ Hr)|].
    split; [reflexivity|]. split; [|reflexivity].
    left. eexists. repeat split.
Qed.

Local Open Scope Z_scope.

(** The integer within half a unit of a ratio is what rounding gives. *)
Lemma round_half_even_unique (n d k : Z) :
  0 < d -> 2 * Z.abs (n - k * d) < d -> F64.round_half_even n d = k.
Proof.
  intros Hd Hk. unfold F64.round_half_even.
  pose proof (Z.div_mod n d ltac:(lia)) as E.
  pose proof (Z.mod_pos_bound n d Hd) as B.
  set (q := n / d) in *. set (r := n mod d) in *. clearbody q r.
  assert (Hq : k = q \/ k = q + 1).
  { assert (q - 1 < k) by nia. assert (k < q + 2) by nia. lia. }
  destruct Hq as [-> | ->].
  - assert (C : 2 * r < d) by (replace (n - q * d) with r in Hk by lia; lia).
    now rewrite (proj2 (Z.compare_lt_iff _ _) C).
  - assert (C : d < 2 * r) by (replace (n - (q + 1) * d) with (r - d) in Hk by lia; lia).
    now rewrite (proj2 (Z.compare_gt_iff _ _) C).
Qed.

(** A ratio that is a whole number of hundredths below [2^52] is shown with
    exactly these hundredths after it was rounded to a float. *)
Lemma format_cents (neg : bool) (n d k : Z) :
  0 <= n -> 0 < d -> n * 100 = k * d -> k < 2 ^ 52 ->
  exists m e,
    F64.round_ratio neg n d = F64.Fin neg m e
    /\ (0 < n -> m <> 0%N)
    /\ format_2f (F64.Fin neg m e)
       = ((if neg then "-" else "")
            ++ Digits.show (Z.to_N (k / 100)) ++ "." ++ Calendar.pad 2 (k mod 100))%string.
Proof.
  intros Hn Hd Hk Hlt. unfold F64.round_ratio.
  assert (H52 : 2 ^ 52 = 4503599627370496) by reflexivity.
  assert (H53 : 2 ^ 53 = 9007199254740992) by reflexivity.
  destruct (Z.eqb_spec n 0) as [->|Hn0].
  - assert (k = 0) by nia. subst k. exists 0%N, (-1074).
    split; [reflexivity|]. split; [lia|]. destruct neg; vm_compute; reflexivity.
  - set (L := F64.ilog2 n d).
    assert (HL : L <= 45).
    { destruct (Z.le_gt_cases d n) as [Hge|Hsmall].
      - destruct (ilog2_large n d ltac:(lia)) as [_ HLd]. fold L in HLd.
        destruct (Z.le_gt_cases L 45) as [H|H]; [exact H|].
        assert (P : 2 ^ 46 <= 2 ^ L) by (apply Z.pow_le_mono_r; lia).
        assert (H46 : 2 ^ 46 = 70368744177664) by reflexivity.
        nia.
      - assert (L <= 0) by (apply ilog2_small; lia). lia. }
    set (e := Z.max (L - 52) (-1074)).
    assert (He : -1074 <= e <= -7) by (unfold e; lia).
    unfold F64.scale2.
    replace (0 <=? e) with false by (symmetry; apply Z.leb_gt; lia).
    assert (HS : 2 ^ (- e) = 2 * 2 ^ (- (e + 1))).
    { rewrite <- Z.pow_succ_r by lia. f_equal. lia. }
    assert (HS' : 2 ^ 6 <= 2 ^ (- (e + 1))) by (apply Z.pow_le_mono_r; lia).
    change (2 ^ 6) with 64 in HS'.
    pose proof (round_half_even_near (n * 2 ^ (- e)) d) as Hm. cbv zeta in Hm.
    set (m := F64.round_half_even (n * 2 ^ (- e)) d) in *.
    set (S := 2 ^ (- e)) in *. set (S' := 2 ^ (- (e + 1))) in *.
    assert (Hm' : 2 * (n * S) - d <= 2 * m * d <= 2 * (n * S) + d)
      by (apply Hm; nia).
    assert (Hclose : Z.abs (m * 100 - k * S) <= 50).
    { assert (200 * (n * S) - 100 * d <= 2 * (m * 100) * d) by nia.
      assert (2 * (m * 100) * d <= 200 * (n * S) + 100 * d) by nia.
      assert (E : 200 * (n * S) = 2 * (k * S) * d) by nia.
      rewrite E in *. nia. }
    assert (Hk0 : 0 < k) by nia.
    assert (Hmpos : 0 < m) by nia.
    destruct (Z.eqb_spec m (2 ^ 53)) as [Em|Em].
    + replace (971 <? e + 1) with false by (symmetry; apply Z.ltb_ge; lia).
      exists (Z.to_N (2 ^ 52)), (e + 1).
      split; [reflexivity|]. split; [intros _; rewrite H52; discriminate|].
      unfold format_2f, F64.scale2. rewrite Z2N.id by lia.
      replace (0 <=? - (e + 1)) with true by (symmetry; apply Z.leb_le; lia).
      fold S'. rewrite (round_half_even_unique _ _ k); [reflexivity | lia |].
      rewrite Em in Hclose. lia.
    + replace (971 <? e) with false by (symmetry; apply Z.ltb_ge; lia).
      exists (Z.to_N m), e.
      split; [reflexivity|]. split; [intros _; lia|].
      unfold format_2f, F64.scale2. rewrite Z2N.id by lia.
      replace (0 <=? - e) with true by (symmetry; apply Z.leb_le; lia).
      fold S. rewrite (round_half_even_unique _ _ k); [reflexivity | lia |]. lia.
Qed.

(** X17.  The report shows an extracted amount exact to the cent: when
    the amount read from the text has at most two decimal places and is
    below [2^52] cents, the amount line is the dollar sign, the whole
    dollars, a point and the two digits of the cents; going through a float
    and the format [.2f] loses nothing. *)
Theorem amount_shown_to_the_cent (caps : Capabilities) (pdf_file g : string)
        (c : N) (q : Z) :
  path_exists caps pdf_file = Ret true ->
  acquired caps pdf_file <> ""%string ->
  parse_amount (acquired caps pdf_file) = Ret (Some g, Some (Dec.Fin false c q)) ->
  -2 <= q <= 0 ->
  0 < Z.of_N c * 10 ^ (q + 2) < 2 ^ 52 ->
  exists r log,
    extract_invoice_data caps pdf_file = Ret (r, log)
    /\ amount_string r = Some g
    /\ amount_line r
       = ("Amount: $" ++ Digits.show (Z.to_N (Z.of_N c * 10 ^ (q + 2) / 100))
            ++ "." ++ Calendar.pad 2 ((Z.of_N c * 10 ^ (q + 2)) mod 100))%string.
Proof.
  unfold acquired. intros Hex Hne Hamount Hq Hk.
  destruct (extract_text caps pdf_file) as [[text method] log] eqn:Ht.
  cbn [fst snd] in *. apply nonempty_iff in Hne.
  destruct (extract_invoice_data_fields _ _ _ _ _ Hex Ht Hne)
    as [r [amount [Hr [_ [_ [Ha Hf]]]]]].
  rewrite Hamount in Ha. inversion Ha as [[Hg Hd]]. clear Ha.
  exists r, log. split; [exact Hr|]. split; [now symmetry|].
  rewrite <- Hd in Hf.
  set (k := Z.of_N c * 10 ^ (q + 2)) in *.
  assert (Hc : (c =? 0)%N = false).
  { apply N.eqb_neq. intros ->. unfold k in Hk. simpl in Hk. lia. }
  unfold float_if_truthy, Dec.truthy in Hf. rewrite Hc in Hf. cbn [negb] in Hf.
  unfold F64.of_dec in Hf.
  assert (Hcents : exists n d, F64.scale10 (Z.of_N c) 1 q = (n, d)
                               /\ 0 <= n /\ 0 < d /\ n * 100 = k * d).
  { assert (Hq' : q = 0 \/ q = -1 \/ q = -2) by lia.
    unfold k. destruct Hq' as [-> | [-> | ->]].
    - exists (Z.of_N c * 10 ^ 0), 1. split; [reflexivity|].
      change (10 ^ 0) with 1. change (10 ^ (0 + 2)) with 100. lia.
    - exists (Z.of_N c), (1 * 10 ^ 1). split; [reflexivity|].
      change (10 ^ 1) with 10. change (10 ^ (-1 + 2)) with 10. lia.
    - exists (Z.of_N c), (1 * 10 ^ 2). split; [reflexivity|].
      change (10 ^ 2) with 100. change (10 ^ (-2 + 2)) with 1. lia. }
  destruct Hcents as [n [d [Hs [Hn [Hd0 Hnd]]]]]. rewrite Hs in Hf.
  destruct (format_cents false n d k Hn Hd0 Hnd (proj2 Hk))
    as [m [e [Hround [Hm Hshow]]]].
  rewrite Hround in Hf. cbn [bind] in Hf. inversion Hf as [Hx].
  unfold amount_line. rewrite <- Hx. unfold get, F64.truthy.
  assert (Hm0 : (m =? 0)%N = false) by (apply N.eqb_neq, Hm; nia).
  rewrite Hm0. cbn [negb]. rewrite Hshow. reflexivity.
Qed.

Lemma amount_shown_to_the_cent_witness :
  exists r log,
    extract_invoice_data (one_page false no_dates dime_invoice) "invoice.pdf"
    = Ret (r, log)
    /\ amount_line r = "Amount: $0.10"%string.
Proof.
  destruct (amount_shown_to_the_cent (one_page false no_dates dime_invoice)
              "invoice.pdf" "0.10" 10%N (-2) eq_refl)
    as [r [log [Hr [_ Hline]]]].
  - vm_compute. discriminate.
  - vm_compute. reflexivity.
  - lia.
  - vm_compute. split; reflexivity.
  - exists r, log. split; [exact Hr | exact Hline].
Defined.

End ReportFacts.
